(** * CodeCompare: the measurement and statistics engine of [comparer.py]

    A shallow embedding of [code_compare/comparer.py] and
    [code_compare/utils.py], with the progress bar of
    [code_compare/colors.py] and the callback that [code_compare/cli.py]
    hands to the comparer.

    Conventions of the model.
    - Python numbers ([float] timings and the [int] 0 of an empty
      repetition) are exact rationals [Q]; [float('inf')] is a separate
      constructor.  IEEE rounding is not modelled, except in the progress
      bar, whose float operations are rounded by a parameter [fl].
    - A Python exception is a value of [exn], [SystemExit] and
      [KeyboardInterrupt] included, which [except Exception] lets through;
      a computation that can raise returns a [result].
    - Source text handed to [exec] is represented by its parse tree
      ([program]); appending a line to a text appends a statement.
    - What imported modules do when called ([random.random], [time.sleep],
      ...) and [math.sqrt] are parameters: [native] and [sqrt].
    - The process-wide state ([gc], [sys.stdout], the clock, the terminal)
      is threaded through every method, together with the attributes of
      the comparer and a trace of the calls of [exec].
    - Colour escapes of [Colors] are left out of printed text; the two
      number formats of the f-strings are parameters. *)

From Stdlib Require Import QArith Qround Qabs ZArith List String Lia Lqa Bool.
From Stdlib Require Import Sorting.Sorted.
From stdpp Require Import base option gmap strings pretty.

Open Scope string_scope.
Open Scope Z_scope.

(** ** Exceptions and results *)

Inductive exn : Type :=
| NameError (name : string)
| TypeError (msg : string)
| AttributeError (msg : string)
| ZeroDivisionError
| StatisticsError (msg : string)
| ValueError (msg : string)
| IndexError
| RaisedException (msg : string)
| SystemExit
| KeyboardInterrupt.

(** The exceptions that [except Exception] catches: all but the two that
    derive from [BaseException] only. *)
Definition is_exception (e : exn) : bool :=
  match e with
  | SystemExit | KeyboardInterrupt => false
  | _ => true
  end.

Inductive result (A : Type) : Type :=
| Ok (a : A)
| Raise (e : exn).
Arguments Ok {A} a.
Arguments Raise {A} e.

#[global] Instance result_ret : MRet result := fun _ a => Ok a.
#[global] Instance result_bind : MBind result := fun _ _ k r =>
  match r with
  | Ok a => k a
  | Raise e => Raise e
  end.

Definition is_ok {A} (r : result A) : bool :=
  match r with Ok _ => true | Raise _ => false end.

(** ** Numbers *)

(** [a < b] *)
Definition Qlt_b (a b : Q) : bool := negb (Qle_bool b a).

(** An [int] where a [float] is expected. *)
Definition QofZ (z : Z) : Q := inject_Z z.

(** [len(l)] *)
Definition len {A} (l : list A) : Z := Z.of_nat (length l).

(** Python's [/]: raises on a zero divisor. *)
Definition py_div (a b : Q) : result Q :=
  if Qeq_bool b 0 then Raise ZeroDivisionError else Ok (a / b)%Q.

(** Truthiness of a number: [0] and [0.0] are false. *)
Definition truthy (o : option Q) : bool :=
  match o with
  | None => false
  | Some q => negb (Qeq_bool q 0)
  end.

(** [not l] on a Python list. *)
Definition py_not {A} (l : list A) : bool :=
  match l with [] => true | _ :: _ => false end.

(** [l[i]] on a Python list. *)
Definition py_index {A} (l : list A) (i : nat) : result A :=
  match nth_error l i with
  | Some a => Ok a
  | None => Raise IndexError
  end.

(** ** The standard library's [sorted], [min], [max] and [statistics] *)

Fixpoint insert_sorted (x : Q) (l : list Q) : list Q :=
  match l with
  | [] => [x]
  | y :: ys => if Qle_bool x y then x :: y :: ys else y :: insert_sorted x ys
  end.

(** A stable sort, as [sorted] is. *)
Fixpoint sorted (l : list Q) : list Q :=
  match l with
  | [] => []
  | x :: xs => insert_sorted x (sorted xs)
  end.

Definition py_min (data : list Q) : result Q :=
  match data with
  | [] => Raise (ValueError "min() arg is an empty sequence")
  | x :: xs => Ok (fold_left (fun m y => if Qlt_b y m then y else m) xs x)
  end.

Definition py_max (data : list Q) : result Q :=
  match data with
  | [] => Raise (ValueError "max() arg is an empty sequence")
  | x :: xs => Ok (fold_left (fun m y => if Qlt_b m y then y else m) xs x)
  end.

Definition fsum (l : list Q) : Q := fold_right Qplus 0%Q l.

Module statistics.

Definition mean (data : list Q) : result Q :=
  match data with
  | [] => Raise (StatisticsError "mean requires at least one data point")
  | _ => Ok (fsum data / QofZ (len data))%Q
  end.

Definition median (data : list Q) : result Q :=
  let data := sorted data in
  let n := length data in
  if Nat.eqb n 0 then Raise (StatisticsError "no median for empty data")
  else if Nat.eqb (n mod 2) 1 then py_index data (n / 2)
  else
    let i := (n / 2)%nat in
    a ← py_index data (i - 1);
    b ← py_index data i;
    Ok ((a + b) / 2)%Q.

(** Sum of squared deviations from the exact mean. *)
Definition ss (data : list Q) : Q :=
  let xbar := (fsum data / QofZ (len data))%Q in
  fsum (map (fun x => (x - xbar) * (x - xbar))%Q data).

(** One cut point of [quantiles], method ['exclusive']: the body of its
    loop, for sorted [data], [n] cuts and index [i].  The interpolation is
    exact here; on doubles it is rounded, and a cut point may then leave the
    interval of its two neighbours by the last digit. *)
Definition quantile_point (data : list Q) (n i : Z) : Q :=
  let ld := len data in
  let m := ld + 1 in
  let j := i * m / n in
  let j := if j <? 1 then 1 else if ld - 1 <? j then ld - 1 else j in
  let delta := i * m - j * n in
  ((nth (Z.to_nat (j - 1)) data 0 * QofZ (n - delta)
    + nth (Z.to_nat j) data 0 * QofZ delta) / QofZ n)%Q.

(** [quantiles(data, n=n)] with the default method ['exclusive']. *)
Definition quantiles (data : list Q) (n : Z) : result (list Q) :=
  if n <? 1 then Raise (StatisticsError "n must be at least 1")
  else
    let data := sorted data in
    let ld := len data in
    if ld <? 2 then Raise (StatisticsError "must have at least two data points")
    else Ok (map (quantile_point data n) (map Z.of_nat (seq 1 (Z.to_nat n - 1)))).

Section WithSqrt.
(** [math.sqrt], a parameter of the model. *)
Variable sqrt : Q -> Q.

Definition stdev (data : list Q) : result Q :=
  if len data <? 2
  then Raise (StatisticsError "stdev requires at least two data points")
  else Ok (sqrt (ss data / QofZ (len data - 1))%Q).
End WithSqrt.

End statistics.

(** ** [CodeComparer]: descriptive statistics and confidence interval *)

(** The dictionary returned by [_detailed_stats]. *)
Record DescriptiveStats : Type := {
  s_mean : Q;
  s_stdev : Q;
  s_median : Q;
  s_percentile_5 : option Q;
  s_percentile_95 : option Q;
  s_min : Q;
  s_max : Q;
  s_count : Z
}.

(** The dictionary literal of [_confidence_interval], lines 206-208. *)
Definition t_table : gmap Z Q :=
  {[ 2 := 12.71%Q; 3 := 4.30%Q; 4 := 3.18%Q; 5 := 2.78%Q; 6 := 2.57%Q;
     7 := 2.45%Q; 8 := 2.36%Q; 9 := 2.31%Q; 10 := 2.26%Q ]}.

(** [1.96 if n > 30 else {...}.get(n, 2.0)] *)
Definition t_value (n : Z) : Q :=
  if 30 <? n then 1.96%Q else default 2.0%Q (t_table !! n).

Section Statistics.
Variable sqrt : Q -> Q.

Definition _detailed_stats (data : list Q) : result DescriptiveStats :=
  percentiles ←
    (if 20 <=? len data
     then qs ← statistics.quantiles data 100; Ok (map Some qs)
     else Ok (replicate 99 (@None Q)));
  mean ← statistics.mean data;
  stdev ← (if 1 <? len data then statistics.stdev sqrt data else Ok 0%Q);
  median ← statistics.median data;
  p4 ← py_index percentiles 4;
  p94 ← py_index percentiles 94;
  mn ← py_min data;
  mx ← py_max data;
  Ok {| s_mean := mean;
        s_stdev := stdev;
        s_median := median;
        s_percentile_5 := if truthy p4 then p4 else None;
        s_percentile_95 := if truthy p94 then p94 else None;
        s_min := mn;
        s_max := mx;
        s_count := len data |}.

(** The [confidence] argument is never read by the source. *)
Definition _confidence_interval (data : list Q) : result (Q * Q) :=
  if py_not data || (len data <? 2) then Ok (0, 0)%Q
  else
    mean ← statistics.mean data;
    stdev ← statistics.stdev sqrt data;
    let n := len data in
    let t := t_value n in
    margin ← py_div (t * stdev) (sqrt (QofZ n));
    Ok (mean - margin, mean + margin)%Q.

End Statistics.

(** ** The ranking block of [compare_execution], lines 353-362 *)

Inductive snippet_id : Type := Snippet1 | Snippet2.

Definition snippet_label (s : snippet_id) : string :=
  match s with Snippet1 => "Snippet 1" | Snippet2 => "Snippet 2" end.

(** A ratio: a number or [float('inf')]. *)
Inductive xnum : Type := Fin (q : Q) | PosInf.

Record Verdict : Type := {
  faster : snippet_id;
  slower : snippet_id;
  ratio : xnum;
  percent : Q
}.

Definition guarded_ratio (num den : Q) : result xnum :=
  if Qlt_b 0 den then r ← py_div num den; Ok (Fin r) else Ok PosInf.

Definition guarded_percent (fast slow : Q) : result Q :=
  if Qlt_b 0 slow then q ← py_div fast slow; Ok ((1 - q) * 100)%Q else Ok 0%Q.

Definition rank (mean1 mean2 : Q) : result Verdict :=
  if Qlt_b mean1 mean2 then
    ratio ← guarded_ratio mean2 mean1;
    percent ← guarded_percent mean1 mean2;
    Ok {| faster := Snippet1; slower := Snippet2; ratio := ratio; percent := percent |}
  else
    ratio ← guarded_ratio mean1 mean2;
    percent ← guarded_percent mean2 mean1;
    Ok {| faster := Snippet2; slower := Snippet1; ratio := ratio; percent := percent |}.


(** ** The fragment of Python that the snippets are written in

    [exec(code, globals, locals)] runs a parse tree against two
    dictionaries.  Calls into imported modules and into builtins, other
    than [range] of one integer and [exit()] or [quit()], which raise
    [SystemExit], are answered by the parameter [native];
    every module named by an [import] is taken to be installed. *)

(** Induction on parse trees goes through the lists of their children. *)
Scheme All for list.

(** The standard streams are either the terminal or [os.devnull]. *)
Inductive stream : Type := Console | DevNull.

(** The process-wide state that the comparer and the code under test share:
    the collector switch, the two standard streams, the reading of
    [time.perf_counter], what reached the terminal, and the state of the
    imported libraries (the generator of [random], for one). *)
Record process (Lib : Type) : Type := {
  gc_enabled : bool;
  sys_stdout : stream;
  sys_stderr : stream;
  clock : Q;
  console : list string;
  lib : Lib
}.
Arguments gc_enabled {Lib} p.
Arguments sys_stdout {Lib} p.
Arguments sys_stderr {Lib} p.
Arguments clock {Lib} p.
Arguments console {Lib} p.
Arguments lib {Lib} p.

Module Py.

Inductive expr : Type :=
| EName (x : string)
| EInt (z : Z)
| EFloat (q : Q)
| EAttr (e : expr) (a : string)
| ECall (f : expr) (args : list expr)
| EMul (a b : expr).

Inductive stmt : Type :=
| SImport (m : string)
| SAssign (x : string) (e : expr)
| SAugAdd (x : string) (e : expr)
| SExpr (e : expr)
| SFor (x : string) (it : expr) (body : list stmt)
| SRaise (msg : string)
| SPass.

Definition program : Type := list stmt.

Inductive value : Type :=
| VNone
| VInt (z : Z)
| VFloat (q : Q)
| VModule (m : string)
| VNative (m : option string) (f : string)
| VRange (n : Z).

(** The names that code run by [exec(code, {}, {})] finds without binding
    them: every name of the [builtins] module (functions, exception
    classes, constants and the module's own attributes, as of CPython 3.11
    to 3.13 with [site] loaded), and [__builtins__], which [exec] puts in
    the globals. *)
Definition builtins : list string :=
  [ "abs"; "aiter"; "all"; "anext"; "any"; "ascii"; "bin"; "bool";
    "breakpoint"; "bytearray"; "bytes"; "callable"; "chr"; "classmethod";
    "compile"; "complex"; "delattr"; "dict"; "dir"; "divmod"; "enumerate";
    "eval"; "exec"; "filter"; "float"; "format"; "frozenset"; "getattr";
    "globals"; "hasattr"; "hash"; "help"; "hex"; "id"; "input"; "int";
    "isinstance"; "issubclass"; "iter"; "len"; "list"; "locals"; "map";
    "max"; "memoryview"; "min"; "next"; "object"; "oct"; "open"; "ord";
    "pow"; "print"; "property"; "range"; "repr"; "reversed"; "round";
    "set"; "setattr"; "slice"; "sorted"; "staticmethod"; "str"; "sum";
    "super"; "tuple"; "type"; "vars"; "zip"; "__import__";
    "copyright"; "credits"; "exit"; "license"; "quit";
    "Ellipsis"; "NotImplemented"; "__build_class__"; "__debug__"; "__doc__";
    "__loader__"; "__name__"; "__package__"; "__spec__"; "__builtins__";
    "ArithmeticError"; "AssertionError"; "AttributeError"; "BaseException";
    "BaseExceptionGroup"; "BlockingIOError"; "BrokenPipeError"; "BufferError";
    "BytesWarning"; "ChildProcessError"; "ConnectionAbortedError";
    "ConnectionError"; "ConnectionRefusedError"; "ConnectionResetError";
    "DeprecationWarning"; "EOFError"; "EncodingWarning"; "EnvironmentError";
    "Exception"; "ExceptionGroup"; "FileExistsError"; "FileNotFoundError";
    "FloatingPointError"; "FutureWarning"; "GeneratorExit"; "IOError";
    "ImportError"; "ImportWarning"; "IndentationError"; "IndexError";
    "InterruptedError"; "IsADirectoryError"; "KeyError"; "KeyboardInterrupt";
    "LookupError"; "MemoryError"; "ModuleNotFoundError"; "NameError";
    "NotADirectoryError"; "NotImplementedError"; "OSError"; "OverflowError";
    "PendingDeprecationWarning"; "PermissionError"; "ProcessLookupError";
    "PythonFinalizationError"; "RecursionError"; "ReferenceError";
    "ResourceWarning"; "RuntimeError"; "RuntimeWarning"; "StopAsyncIteration";
    "StopIteration"; "SyntaxError"; "SyntaxWarning"; "SystemError";
    "SystemExit"; "TabError"; "TimeoutError"; "TypeError";
    "UnboundLocalError"; "UnicodeDecodeError"; "UnicodeEncodeError";
    "UnicodeError"; "UnicodeTranslateError"; "UnicodeWarning"; "UserWarning";
    "ValueError"; "Warning"; "ZeroDivisionError"; "_IncompleteInputError" ].

Definition is_builtin (x : string) : bool :=
  existsb (String.eqb x) builtins.

(** Name resolution of code run by [exec]: locals, globals, builtins. *)
Definition lookup_name (g l : gmap string value) (x : string) : result value :=
  match l !! x with
  | Some v => Ok v
  | None =>
      match g !! x with
      | Some v => Ok v
      | None => if is_builtin x then Ok (VNative None x) else Raise (NameError x)
      end
  end.

Definition mul_values (a b : value) : result value :=
  match a, b with
  | VInt x, VInt y => Ok (VInt (x * y))
  | VInt x, VFloat y => Ok (VFloat (QofZ x * y))
  | VFloat x, VInt y => Ok (VFloat (x * QofZ y))
  | VFloat x, VFloat y => Ok (VFloat (x * y))
  | _, _ => Raise (TypeError "unsupported operand type(s) for *")
  end.

Definition add_values (a b : value) : result value :=
  match a, b with
  | VInt x, VInt y => Ok (VInt (x + y))
  | VInt x, VFloat y => Ok (VFloat (QofZ x + y))
  | VFloat x, VInt y => Ok (VFloat (x + QofZ y))
  | VFloat x, VFloat y => Ok (VFloat (x + y))
  | _, _ => Raise (TypeError "unsupported operand type(s) for +=")
  end.


Section Interpreter.
Context {Lib : Type}.
(** [native m f args]: attribute [f] of module [m] called on [args]
    ([m = None]: a builtin). *)
Variable native :
  option string -> string -> list value -> process Lib -> result value * process Lib.

Definition call (f : value) (args : list value) (p : process Lib)
  : result value * process Lib :=
  match f, args with
  | VNative None "range", [VInt n] => (Ok (VRange n), p)
  | VNative None "exit", [] => (Raise SystemExit, p)
  | VNative None "quit", [] => (Raise SystemExit, p)
  | VNative m f, _ => native m f args p
  | _, _ => (Raise (TypeError "object is not callable"), p)
  end.

(** Arguments are evaluated from left to right. *)
Definition eval_args (ev : expr -> process Lib -> result value * process Lib)
  : list expr -> process Lib -> result (list value) * process Lib :=
  fix go (es : list expr) (p : process Lib) :=
    match es with
    | [] => (Ok [], p)
    | e :: es' =>
        match ev e p with
        | (Ok v, p1) =>
            match go es' p1 with
            | (Ok vs, p2) => (Ok (v :: vs), p2)
            | (Raise ex, p2) => (Raise ex, p2)
            end
        | (Raise ex, p1) => (Raise ex, p1)
        end
    end.

Fixpoint eval (g l : gmap string value) (e : expr) (p : process Lib)
  : result value * process Lib :=
  match e with
  | EName x => (lookup_name g l x, p)
  | EInt z => (Ok (VInt z), p)
  | EFloat q => (Ok (VFloat q), p)
  | EAttr e a =>
      match eval g l e p with
      | (Ok (VModule m), p1) => (Ok (VNative (Some m) a), p1)
      | (Ok _, p1) => (Raise (AttributeError a), p1)
      | (Raise ex, p1) => (Raise ex, p1)
      end
  | ECall f args =>
      match eval g l f p with
      | (Ok fv, p1) =>
          match eval_args (eval g l) args p1 with
          | (Ok vs, p2) => call fv vs p2
          | (Raise ex, p2) => (Raise ex, p2)
          end
      | (Raise ex, p1) => (Raise ex, p1)
      end
  | EMul a b =>
      match eval g l a p with
      | (Ok va, p1) =>
          match eval g l b p1 with
          | (Ok vb, p2) => (mul_values va vb, p2)
          | (Raise ex, p2) => (Raise ex, p2)
          end
      | (Raise ex, p1) => (Raise ex, p1)
      end
  end.

(** The outcome of a statement: the result, the locals, the process. *)
Definition outcome : Type := result () * gmap string value * process Lib.

(** A block runs its statements in order and stops at the first raise. *)
Definition run_block (ex : stmt -> gmap string value -> process Lib -> outcome)
  : list stmt -> gmap string value -> process Lib -> outcome :=
  fix go (ss : list stmt) (l : gmap string value) (p : process Lib) :=
    match ss with
    | [] => (Ok (), l, p)
    | s :: ss' =>
        match ex s l p with
        | (Ok _, l1, p1) => go ss' l1 p1
        | (Raise e, l1, p1) => (Raise e, l1, p1)
        end
    end.

(** [for x in range(...)]: [k] rounds are left, the next index is [i]. *)
Definition iterate (body : gmap string value -> process Lib -> outcome) (x : string)
  : nat -> Z -> gmap string value -> process Lib -> outcome :=
  fix go (k : nat) (i : Z) (l : gmap string value) (p : process Lib) :=
    match k with
    | O => (Ok (), l, p)
    | S k' =>
        match body (<[x := VInt i]> l) p with
        | (Ok _, l1, p1) => go k' (i + 1) l1 p1
        | (Raise e, l1, p1) => (Raise e, l1, p1)
        end
    end.

Fixpoint exec_stmt (g : gmap string value) (s : stmt)
         (l : gmap string value) (p : process Lib) : outcome :=
  match s with
  | SImport m => (Ok (), <[m := VModule m]> l, p)
  | SAssign x e =>
      match eval g l e p with
      | (Ok v, p1) => (Ok (), <[x := v]> l, p1)
      | (Raise ex, p1) => (Raise ex, l, p1)
      end
  | SAugAdd x e =>
      match lookup_name g l x with
      | Ok old =>
          match eval g l e p with
          | (Ok v, p1) =>
              match add_values old v with
              | Ok v' => (Ok (), <[x := v']> l, p1)
              | Raise ex => (Raise ex, l, p1)
              end
          | (Raise ex, p1) => (Raise ex, l, p1)
          end
      | Raise ex => (Raise ex, l, p)
      end
  | SExpr e =>
      match eval g l e p with
      | (Ok _, p1) => (Ok (), l, p1)
      | (Raise ex, p1) => (Raise ex, l, p1)
      end
  | SFor x it body =>
      match eval g l it p with
      | (Ok (VRange n), p1) =>
          iterate (run_block (exec_stmt g) body) x (Z.to_nat n) 0 l p1
      | (Ok _, p1) => (Raise (TypeError "object is not iterable"), l, p1)
      | (Raise ex, p1) => (Raise ex, l, p1)
      end
  | SRaise msg => (Raise (RaisedException msg), l, p)
  | SPass => (Ok (), l, p)
  end.

Definition exec_stmts (g : gmap string value) : list stmt -> gmap string value
                                                 -> process Lib -> outcome :=
  run_block (exec_stmt g).

(** [exec(code, globals, locals)]; the caller's dictionaries are
    temporaries, so only the result and the process come back. *)
Definition exec (code : program) (globals locals : gmap string value)
           (p : process Lib) : result () * process Lib :=
  match exec_stmts globals code locals p with
  | (r, _, p') => (r, p')
  end.

End Interpreter.

(** The name that a program evaluates before anything else, when its
    first statement starts by loading one. *)
Fixpoint first_load_expr (e : expr) : option string :=
  match e with
  | EName x => Some x
  | EInt _ | EFloat _ => None
  | EAttr e _ => first_load_expr e
  | ECall f _ => first_load_expr f
  | EMul a _ => first_load_expr a
  end.

Definition first_load (code : program) : option string :=
  match code with
  | SAssign _ e :: _ => first_load_expr e
  | SAugAdd x _ :: _ => Some x
  | SExpr e :: _ => first_load_expr e
  | SFor _ it _ :: _ => first_load_expr it
  | _ => None
  end.

End Py.

(** ** The state of a run *)

Import Py.

(** The three places where the source calls [exec]:
    lines 138 and 139 in [_warmup], line 288 in [_time_single_snippet]. *)
Inductive call_site : Type := WarmupSetup | WarmupSnippet | TimedSnippet.

(** One call of [exec], as observed from outside. *)
Record exec_event : Type := {
  ev_site : call_site;
  ev_code : program;
  ev_globals : gmap string value;
  ev_locals : gmap string value;
  ev_gc : bool;
  ev_outcome : result ()
}.

(** The attributes of a [CodeComparer] object. *)
Record CodeComparer : Type := {
  fixed_seed : Z;
  setup_code : program;
  code_1 : program;
  source_1 : string;
  code_2 : program;
  source_2 : string;
  measurements_1 : list Q;
  measurements_2 : list Q
}.

Definition set_measurements_1 (times : list Q) (c : CodeComparer) : CodeComparer :=
  {| fixed_seed := fixed_seed c; setup_code := setup_code c;
     code_1 := code_1 c; source_1 := source_1 c;
     code_2 := code_2 c; source_2 := source_2 c;
     measurements_1 := times; measurements_2 := measurements_2 c |}.

Definition set_measurements_2 (times : list Q) (c : CodeComparer) : CodeComparer :=
  {| fixed_seed := fixed_seed c; setup_code := setup_code c;
     code_1 := code_1 c; source_1 := source_1 c;
     code_2 := code_2 c; source_2 := source_2 c;
     measurements_1 := measurements_1 c; measurements_2 := times |}.

Definition set_gc {Lib} (b : bool) (p : process Lib) : process Lib :=
  {| gc_enabled := b; sys_stdout := sys_stdout p; sys_stderr := sys_stderr p;
     clock := clock p; console := console p; lib := lib p |}.

Definition set_streams {Lib} (out err : stream) (p : process Lib) : process Lib :=
  {| gc_enabled := gc_enabled p; sys_stdout := out; sys_stderr := err;
     clock := clock p; console := console p; lib := lib p |}.

Definition write_console {Lib} (line : string) (p : process Lib) : process Lib :=
  {| gc_enabled := gc_enabled p; sys_stdout := sys_stdout p;
     sys_stderr := sys_stderr p; clock := clock p;
     console := (console p ++ [line])%list; lib := lib p |}.

Record state (Lib : Type) : Type := {
  self : CodeComparer;
  proc : process Lib;
  trace : list exec_event
}.
Arguments self {Lib} s.
Arguments proc {Lib} s.
Arguments trace {Lib} s.

Definition with_self {Lib} (f : CodeComparer -> CodeComparer) (s : state Lib) : state Lib :=
  {| self := f (self s); proc := proc s; trace := trace s |}.

Definition with_proc {Lib} (f : process Lib -> process Lib) (s : state Lib) : state Lib :=
  {| self := self s; proc := f (proc s); trace := trace s |}.

(** A method of the comparer: it may raise, and the state survives the raise. *)
Definition M (Lib A : Type) : Type := state Lib -> result A * state Lib.

#[global] Instance M_ret {Lib} : MRet (M Lib) := fun _ a s => (Ok a, s).
#[global] Instance M_bind {Lib} : MBind (M Lib) := fun _ _ k c s =>
  match c s with
  | (Ok a, s') => k a s'
  | (Raise e, s') => (Raise e, s')
  end.

Definition gets {Lib A} (f : state Lib -> A) : M Lib A := fun s => (Ok (f s), s).
Definition modify {Lib} (f : state Lib -> state Lib) : M Lib () := fun s => (Ok (), f s).
Definition lift {Lib A} (r : result A) : M Lib A := fun s => (r, s).

(** [try: body; except Exception as e: handler e]: what is not an
    [Exception] passes through. *)
Definition try_except {Lib A} (body : M Lib A) (handler : exn -> M Lib A) : M Lib A :=
  fun s =>
    match body s with
    | (Ok a, s') => (Ok a, s')
    | (Raise e, s') => if is_exception e then handler e s' else (Raise e, s')
    end.

(** [for i in range(n): acc = body i acc], left at the first raise. *)
Fixpoint for_from {Lib A} (k : nat) (i : Z) (acc : A) (body : Z -> A -> M Lib A)
  : M Lib A :=
  match k with
  | O => mret acc
  | S k' => acc' ← body i acc; for_from k' (i + 1) acc' body
  end.

Definition for_range {Lib A} (n : Z) (acc : A) (body : Z -> A -> M Lib A) : M Lib A :=
  for_from (Z.to_nat n) 0 acc body.

(** [print(line)]: the text goes wherever [sys.stdout] points. *)
Definition print {Lib} (line : string) : M Lib () :=
  modify (with_proc (fun p =>
    match sys_stdout p with
    | Console => write_console line p
    | DevNull => p
    end)).

Definition perf_counter {Lib} : M Lib Q := gets (fun s => clock (proc s)).

(** *** [utils.py] *)

Definition suppress_output {Lib A} (body : M Lib A) : M Lib A :=
  fun s =>
    let old_stdout := sys_stdout (proc s) in
    let old_stderr := sys_stderr (proc s) in
    match body (with_proc (set_streams DevNull DevNull) s) with
    | (r, s') => (r, with_proc (set_streams old_stdout old_stderr) s')
    end.

Definition gc_disabled {Lib A} (body : M Lib A) : M Lib A :=
  fun s =>
    let gc_enabled := gc_enabled (proc s) in
    match body (with_proc (set_gc false) s) with
    | (r, s') => (r, if gc_enabled then with_proc (set_gc true) s' else s')
    end.

(** ** [CodeComparer] *)

(** [str(e)] *)
Definition str_exn (e : exn) : string :=
  match e with
  | NameError x => "name '" ++ x ++ "' is not defined"
  | TypeError msg | AttributeError msg | StatisticsError msg
  | ValueError msg | RaisedException msg => msg
  | ZeroDivisionError => "division by zero"
  | IndexError => "list index out of range"
  | SystemExit | KeyboardInterrupt => EmptyString
  end.

(** [sub in s] *)
Definition contains (sub s : string) : bool :=
  match String.index 0 sub s with Some _ => true | None => false end.

(** [random.seed(n)] as a statement. *)
Definition seed_stmt (n : Z) : stmt :=
  SExpr (ECall (EAttr (EName "random") "seed") [EInt n]).

Definition DEFAULT_SETUP_CODE : program :=
  [ SImport "time"; SImport "random" ].

Definition DEFAULT_CODE_1 : program :=
  [ SAssign "sleep_duration"
      (EMul (ECall (EAttr (EName "random") "random") []) (EFloat 0.005));
    SExpr (ECall (EAttr (EName "time") "sleep") [EName "sleep_duration"]) ].

Definition DEFAULT_CODE_2 : program :=
  [ SAssign "iterations" (ECall (EAttr (EName "random") "randint") [EInt 50; EInt 150]);
    SAssign "result" (EInt 0);
    SFor "i" (ECall (EName "range") [EName "iterations"])
      [ SAugAdd "result" (EMul (EName "i") (ECall (EAttr (EName "random") "random") [])) ] ].

(** What [_load_code_from_source] finds: no path, a file that was read, or
    a path that could not be read. *)
Inductive code_source : Type :=
| NoPath
| FileRead (basename : string) (content : program)
| FileUnreadable.

Definition _load_code_from_source (src : code_source) (default_source_name : string)
           (default_code : program) : program * string :=
  match src with
  | FileRead basename content => (content, "File ('" ++ basename ++ "')")
  | FileUnreadable => (default_code, default_source_name ++ " (Fallback)")
  | NoPath => (default_code, default_source_name)
  end.

(** [__init__] *)
Definition init (file_path_1 file_path_2 : code_source) (setup_code : option program)
  : CodeComparer :=
  let fixed_seed := 42 in
  let setup :=
    ([ SImport "random"; seed_stmt fixed_seed ]
       ++ default DEFAULT_SETUP_CODE setup_code)%list in
  let '(c1, s1) := _load_code_from_source file_path_1 "Default Snippet 1" DEFAULT_CODE_1 in
  let '(c2, s2) := _load_code_from_source file_path_2 "Default Snippet 2" DEFAULT_CODE_2 in
  {| fixed_seed := fixed_seed; setup_code := setup;
     code_1 := c1; source_1 := s1; code_2 := c2; source_2 := s2;
     measurements_1 := []; measurements_2 := [] |}.

(** Line 290: [(end - start) / number if number > 0 else 0] *)
Definition elapsed_time (start end_ : Q) (number : Z) : result Q :=
  if 0 <? number then py_div (end_ - start) (QofZ number) else Ok 0%Q.

(** What [compare_execution] hands to the report. *)
Record ComparisonResult : Type := {
  stats1 : DescriptiveStats;
  stats2 : DescriptiveStats;
  ci1 : Q * Q;
  ci2 : Q * Q;
  relative_performance : Verdict;
  total_duration : Q
}.

Section Comparer.
Context {Lib : Type}.
Variable sqrt : Q -> Q.
Variable native :
  option string -> string -> list value -> process Lib -> result value * process Lib.

(** The progress callback acts on the process and may raise. *)
Definition callback : Type := Z -> Q -> process Lib -> result () * process Lib.

Definition call_back (cb : callback) (rep : Z) (elapsed : Q) : M Lib () :=
  fun s =>
    match cb rep elapsed (proc s) with
    | (r, p') => (r, with_proc (fun _ => p') s)
    end.

(** [exec(code, {}, {})] at one of the three call sites; the two
    dictionaries are the ones written at the call. *)
Definition exec_at (site : call_site) (code : program)
           (globals locals : gmap string value) : M Lib () :=
  fun s =>
    match Py.exec native code globals locals (proc s) with
    | (r, p') =>
        (r, {| self := self s; proc := p';
               trace := (trace s ++
                 [ {| ev_site := site; ev_code := code;
                      ev_globals := globals; ev_locals := locals;
                      ev_gc := gc_enabled (proc s); ev_outcome := r |} ])%list |})
    end.

Definition _warmup (code setup_code : program) (runs : Z) : M Lib () :=
  for_range runs () (fun _ _ =>
    suppress_output (
      exec_at WarmupSetup setup_code ∅ ∅ ;;
      exec_at WarmupSnippet code ∅ ∅)).

Definition _reset_state : M Lib () := mret ().

(** The body of the loop at lines 282-293; [times] is the list so far. *)
Definition timed_repetition (code_to_time setup_code : program) (number : Z)
           (on_repeat_end : option callback) (rep : Z) (times : list Q)
  : M Lib (list Q) :=
  seed ← gets (fun s => fixed_seed (self s));
  let local_setup := (setup_code ++ [seed_stmt (seed + rep)])%list in
  _reset_state ;;
  start ← perf_counter;
  suppress_output (
    for_range number () (fun _ _ => exec_at TimedSnippet code_to_time ∅ ∅)) ;;
  end_ ← perf_counter;
  elapsed ← lift (elapsed_time start end_ number);
  let times := (times ++ [elapsed])%list in
  match on_repeat_end with
  | Some cb => call_back cb rep elapsed
  | None => mret ()
  end ;;
  mret times.

Definition _time_single_snippet (snippet_name : string)
           (code_to_time setup_code : program) (repeat number warmup_runs : Z)
           (on_repeat_end : option callback) : M Lib (option (Q * Q)) :=
  print ("Timing " ++ snippet_name ++ " (" ++ pretty repeat ++ " repetitions)...") ;;
  _warmup code_to_time setup_code warmup_runs ;;
  try_except
    (times ← gc_disabled (
       for_range repeat [] (timed_repetition code_to_time setup_code number on_repeat_end));
     (if contains "1" snippet_name
      then modify (with_self (set_measurements_1 times))
      else modify (with_self (set_measurements_2 times))) ;;
     mean_time ← lift (statistics.mean times);
     stdev_time ← lift (if 1 <? len times then statistics.stdev sqrt times else Ok 0%Q);
     mret (Some (mean_time, stdev_time)))
    (fun e =>
       print "--- ERROR during timing ---" ;;
       print ("An error occurred while executing " ++ snippet_name ++ ":") ;;
       print ("Error details: " ++ str_exn e) ;;
       print "Check setup code and snippet syntax/logic." ;;
       print "---------------------------" ;;
       mret None).

(** [compare_execution] up to the verdict.  The formatted report on the
    terminal and the JSON log are written from the record returned here
    and are not modelled. *)
Definition compare_execution (num_repetitions num_executions_per_rep warmup_runs : Z)
           (on_repeat_end : option callback) : M Lib ComparisonResult :=
  print "--- Starting Code Comparison ---" ;;
  print ("Repetitions: " ++ pretty num_repetitions ++ ", Executions per repetition: "
           ++ pretty num_executions_per_rep) ;;
  print ("Warm-up runs: " ++ pretty warmup_runs) ;;
  seed ← gets (fun s => fixed_seed (self s));
  print ("Random seed fixed for determinism: " ++ pretty seed) ;;
  total_start ← perf_counter;
  c ← gets self;
  _ ← _time_single_snippet "Snippet 1" (code_1 c) (setup_code c)
        num_repetitions num_executions_per_rep warmup_runs on_repeat_end;
  _ ← _time_single_snippet "Snippet 2" (code_2 c) (setup_code c)
        num_repetitions num_executions_per_rep warmup_runs on_repeat_end;
  total_end ← perf_counter;
  m1 ← gets (fun s => measurements_1 (self s));
  m2 ← gets (fun s => measurements_2 (self s));
  stats1 ← lift (_detailed_stats sqrt m1);
  stats2 ← lift (_detailed_stats sqrt m2);
  ci1 ← lift (_confidence_interval sqrt m1);
  ci2 ← lift (_confidence_interval sqrt m2);
  verdict ← lift (rank (s_mean stats1) (s_mean stats2));
  mret {| stats1 := stats1; stats2 := stats2; ci1 := ci1; ci2 := ci2;
          relative_performance := verdict;
          total_duration := (total_end - total_start)%Q |}.

End Comparer.

(** ** What the user is shown: durations and the progress bar *)

(** [int(x)] on a float: truncation toward zero. *)
Definition py_int (x : Q) : Z := Z.quot (Qnum x) (Zpos (Qden x)).

(** [x // y] and [x % y] on floats, for a divisor that is not zero. *)
Definition py_floordiv (x y : Q) : Q := QofZ (Qfloor (x / y)).
Definition py_mod (x y : Q) : Q := (x - y * QofZ (Qfloor (x / y)))%Q.

(** [s * n] on a string: empty when [n <= 0]. *)
Definition str_times (s : string) (n : Z) : string :=
  Nat.iter (Z.to_nat n) (String.append s) EmptyString.

(** The carriage return that starts the line of the bar. *)
Definition CR : string :=
  String (Ascii.Ascii true false true true false false false false) EmptyString.

(** [print(line)] seen from the process. *)
Definition print_line {Lib} (line : string) (p : process Lib) : process Lib :=
  match sys_stdout p with
  | Console => write_console line p
  | DevNull => p
  end.

Section Display.
Context {Lib : Type}.
(** The two number formats of the f-strings, parameters of the model:
    [f"{x:.2f}"] and [f"{x:6.2f}"]. *)
Variable format_2f : Q -> string.
Variable format_6_2f : Q -> string.
(** The rounding of the result of one float operation to a double, a
    parameter of the model. *)
Variable fl : Q -> Q.

(** [_format_duration], [comparer.py] lines 219-240. *)
Definition _format_duration (seconds : Q) : string :=
  if Qle_bool 60 seconds then
    let m := py_int (py_floordiv seconds 60) in
    let s := py_mod seconds 60 in
    pretty m ++ "m " ++ format_2f s ++ "s"
  else if Qle_bool 1 seconds then format_2f seconds ++ "s"
  else if Qle_bool (1 # 1000) seconds then format_2f (seconds * 1000) ++ "ms"
  else if Qle_bool (1 # 1000000) seconds then format_2f (seconds * 1000000) ++ "μs"
  else format_2f (seconds * 1000000000) ++ "ns".

(** [Colors.progress_bar], [colors.py] lines 62-69.  The division and the
    two products are float operations, each rounded by [fl].  The two calls
    of [print] are the two texts written; [end] and [flush] are not
    modelled. *)
Definition bar_percent (current total : Z) : result Q :=
  if total =? 0 then Ok 0%Q
  else q ← py_div (QofZ current) (QofZ total); Ok (fl q).

Definition progress_bar (current total bar_length : Z) (prefix suffix : string)
           (p : process Lib) : result () * process Lib :=
  match bar_percent current total with
  | Raise e => (Raise e, p)
  | Ok percent =>
      let filled_length := py_int (fl (QofZ bar_length * percent)) in
      let bar := str_times "█" filled_length
                 ++ str_times "░" (bar_length - filled_length) in
      let percent_str := format_6_2f (fl (percent * 100)) ++ "%" in
      let p1 := print_line (CR ++ prefix ++ "[" ++ bar ++ "] " ++ percent_str
                              ++ " " ++ suffix) p in
      (Ok (), if current =? total then print_line EmptyString p1 else p1)
  end.

(** [progress_callback], [cli.py] lines 101-102; [reps] is [args.reps]. *)
Definition progress_callback (reps : Z) : Z -> Q -> process Lib -> result () * process Lib :=
  fun rep elapsed =>
    progress_bar (rep + 1) reps 32 "Progress:" (pretty (rep + 1) ++ "/" ++ pretty reps).

End Display.

(** ** A concrete square root and concrete libraries, to run the model *)

(** Square root to six decimals, rounded up; exact at 0. *)
Definition approx_sqrt (x : Q) : Q :=
  if Qle_bool x 0 then 0%Q
  else (1 + Z.sqrt (Qnum x * 10 ^ 12 / Zpos (Qden x))) # 1000000.

(** Libraries in which [time.sleep(d)] moves the clock by [d] and every
    other call returns [None]. *)
Definition sleepy_native (m : option string) (f : string) (args : list value)
           (p : process ()) : result value * process () :=
  match m, f, args with
  | Some "time", "sleep", [VFloat d] =>
      (Ok VNone,
       {| gc_enabled := gc_enabled p; sys_stdout := sys_stdout p;
          sys_stderr := sys_stderr p; clock := (clock p + d)%Q;
          console := console p; lib := lib p |})
  | _, _, _ => (Ok VNone, p)
  end.

(** Libraries in which every call takes a millisecond and returns [None]. *)
Definition ticking_native (m : option string) (f : string) (args : list value)
           (p : process ()) : result value * process () :=
  (Ok VNone,
   {| gc_enabled := gc_enabled p; sys_stdout := sys_stdout p;
      sys_stderr := sys_stderr p; clock := (clock p + 0.001)%Q;
      console := console p; lib := lib p |}).

(** Libraries in which [gc.enable()] and [gc.disable()] turn the collector
    switch and every other call returns [None]. *)
Definition gc_native (m : option string) (f : string) (args : list value)
           (p : process ()) : result value * process () :=
  match m, f, args with
  | Some "gc", "enable", [] => (Ok VNone, set_gc true p)
  | Some "gc", "disable", [] => (Ok VNone, set_gc false p)
  | _, _, _ => (Ok VNone, p)
  end.

(** A rounding toward minus infinity to forty binary digits after the
    point: coarser than a double, and like it monotone and exact on the
    integers. *)
Definition chop (x : Q) : Q := Qfloor (x * 1099511627776) # 1099511627776.

Definition fresh_process : process () :=
  {| gc_enabled := true; sys_stdout := Console; sys_stderr := Console;
     clock := 0%Q; console := []; lib := () |}.

Definition start_state (c : CodeComparer) : state () :=
  {| self := c; proc := fresh_process; trace := [] |}.

(** Fixed-point notation with two decimals, rounding half to even, and the
    same padded on the left to six characters. *)
Definition round_half_even (x : Q) : Z :=
  let f := Qfloor x in
  match Qcompare (x - inject_Z f) (1 # 2) with
  | Lt => f
  | Gt => f + 1
  | Eq => if Z.even f then f else f + 1
  end.

Definition decimal_2f (x : Q) : string :=
  let n := round_half_even (Qabs x * 100) in
  (if Qlt_b x 0 then "-" else EmptyString)
  ++ pretty (n / 100) ++ "." ++ (if n mod 100 <? 10 then "0" else EmptyString)
  ++ pretty (n mod 100).

Definition decimal_6_2f (x : Q) : string :=
  let s := decimal_2f x in
  str_times " " (6 - Z.of_nat (String.length s)) ++ s.


(** * Vocabulary of the statements *)

(** C4 as stated, at one series: no fault, [stdev = 0], interval [(0, 0)]. *)
Definition degenerate_fallback (sqrt : Q -> Q) (data : list Q) : Prop :=
  exists st,
    _detailed_stats sqrt data = Ok st /\
    s_stdev st = 0%Q /\
    _confidence_interval sqrt data = Ok (0%Q, 0%Q).

(** The mean of the snippet labelled faster, and of the other one. *)
Definition faster_mean (mean1 mean2 : Q) : Q := if Qlt_b mean1 mean2 then mean1 else mean2.
Definition slower_mean (mean1 mean2 : Q) : Q := if Qlt_b mean1 mean2 then mean2 else mean1.

(** The tie sentence of C5 at one mean: Snippet 2 wins with ratio 1.0 and
    0.0 percent. *)
Definition tie_verdict (m : Q) : Prop :=
  exists v r,
    rank m m = Ok v /\ faster v = Snippet2 /\
    ratio v = Fin r /\ (r == 1)%Q /\ (percent v == 0)%Q.

(** The critical value as the specification words it: the table for n in
    2..10, 2.0 for any other n up to 30, 1.96 above 30. *)
Definition t_spec (n : Z) : Q :=
  match n with
  | 2 => 12.71%Q | 3 => 4.30%Q | 4 => 3.18%Q | 5 => 2.78%Q | 6 => 2.57%Q
  | 7 => 2.45%Q | 8 => 2.36%Q | 9 => 2.31%Q | 10 => 2.26%Q
  | _ => if n <=? 30 then 2.0%Q else 1.96%Q
  end.

(** [ex] keeps the collector switch in [G]. *)
Definition keeps_switch {Lib} (G : bool -> Prop)
           (ex : gmap string value -> process Lib -> @outcome Lib) : Prop :=
  forall l p, G (gc_enabled p) -> G (gc_enabled (ex l p).2).

(** [sound G P c]: started with the collector switch in [G], the method [c]
    ends with the switch in [G], on the normal and on the raising path, and
    every call of [exec] it made satisfies [P]. *)
Definition sound {Lib A} (G : bool -> Prop) (P : exec_event -> Prop) (c : M Lib A) : Prop :=
  forall s, G (gc_enabled (proc s)) ->
    G (gc_enabled (proc (c s).2)) /\
    exists evs, trace (c s).2 = (trace s ++ evs)%list /\ Forall P evs.

(** [keeps f c]: the method [c] leaves the observation [f] of the state as
    it found it, on the normal and on the raising path. *)
Definition keeps {Lib A X} (f : state Lib -> X) (c : M Lib A) : Prop :=
  forall s, f (c s).2 = f s.

(** The two standard streams of the process. *)
Definition streams {Lib} (s : state Lib) : stream * stream :=
  (sys_stdout (proc s), sys_stderr (proc s)).

(** What a comparer was built with: seed, setup, snippets and their labels. *)
Definition configuration (c : CodeComparer)
  : Z * program * program * string * program * string :=
  (fixed_seed c, setup_code c, code_1 c, source_1 c, code_2 c, source_2 c).

(** The series that [_time_single_snippet] writes for a name, and the other. *)
Definition series_of (snippet_name : string) (c : CodeComparer) : list Q :=
  if contains "1" snippet_name then measurements_1 c else measurements_2 c.
Definition other_series (snippet_name : string) (c : CodeComparer) : list Q :=
  if contains "1" snippet_name then measurements_2 c else measurements_1 c.

(** What the run has handed to [exec] since the state [s0]: the events
    [evs], their call sites being [sites], every one of them returned. *)
Definition executed {Lib} (s0 s : state Lib) (sites : list call_site) : Prop :=
  exists evs,
    trace s = (trace s0 ++ evs)%list /\
    map ev_site evs = sites /\
    Forall (fun ev => ev_outcome ev = Ok ()) evs.

(** The event of a call [exec(code, {}, {})]. *)
Definition event (site : call_site) (code : program) (gc : bool) (r : result ())
  : exec_event :=
  {| ev_site := site; ev_code := code; ev_globals := ∅; ev_locals := ∅;
     ev_gc := gc; ev_outcome := r |}.

(** The comparer built without any file. *)
Definition default_comparer : CodeComparer := init NoPath NoPath None.

(** A comparer whose first snippet is [raise Exception("boom")]. *)
Definition faulty_comparer : CodeComparer :=
  init (FileRead "a.py" [SRaise "boom"]) (FileRead "b.py" [SPass]) None.

(** A snippet that runs in empty namespaces: it imports [time] itself and
    sleeps half a second. *)
Definition nap : program :=
  [ SImport "time";
    SExpr (ECall (EAttr (EName "time") "sleep") [EFloat 0.5]) ].

(** A comparer of [nap] against [pass]. *)
Definition napping_comparer : CodeComparer :=
  init (FileRead "nap.py" nap) (FileRead "pass.py" [SPass]) None.

(** The names that an expression, a statement, a program loads. *)
Fixpoint names_of_expr (e : expr) : list string :=
  match e with
  | EName x => [x]
  | EInt _ | EFloat _ => []
  | EAttr e _ => names_of_expr e
  | ECall f args => (names_of_expr f ++ flat_map names_of_expr args)%list
  | EMul a b => (names_of_expr a ++ names_of_expr b)%list
  end.

Fixpoint names_of_stmt (s : stmt) : list string :=
  match s with
  | SImport _ | SRaise _ | SPass => []
  | SAssign _ e | SExpr e => names_of_expr e
  | SAugAdd x e => x :: names_of_expr e
  | SFor _ it body => (names_of_expr it ++ flat_map names_of_stmt body)%list
  end.

Definition references (code : program) (x : string) : bool :=
  existsb (String.eqb x) (flat_map names_of_stmt code).

(** The last clause of C2 as stated, at one snippet and one name: the
    snippet references the name, which is not a builtin and which the
    snippet finds bound nowhere, and its execution in empty namespaces
    raises [NameError]. *)
Definition reference_raises {Lib}
           (native : option string -> string -> list value -> process Lib
                     -> result value * process Lib)
           (code : program) (x : string) (p : process Lib) : Prop :=
  references code x = true -> is_builtin x = false ->
  (Py.exec native code ∅ ∅ p).1 = Raise (NameError x).

(** A snippet that references [random] in a loop of no round. *)
Definition unreached_reference : program :=
  [ SFor "i" (ECall (EName "range") [EInt 0])
      [ SExpr (ECall (EAttr (EName "random") "random") []) ] ].

(** C7 as stated, of a run from [s] to [s']: the collector switch is as it
    was, and every execution of the measured loop saw the collector off. *)
Definition collector_claim {Lib} (s s' : state Lib) : Prop :=
  gc_enabled (proc s') = gc_enabled (proc s) /\
  Forall (fun ev => ev_site ev = TimedSnippet -> ev_gc ev = false)
         (skipn (length (trace s)) (trace s')).

(** Two snippets that turn the collector switch themselves. *)
Definition switch_off : program :=
  [ SImport "gc"; SExpr (ECall (EAttr (EName "gc") "disable") []) ].
Definition switch_on : program :=
  [ SImport "gc"; SExpr (ECall (EAttr (EName "gc") "enable") []) ].

(** A comparer whose first snippet is [exit()]. *)
Definition quitting_comparer : CodeComparer :=
  init (FileRead "quit.py" [SExpr (ECall (EName "exit") [])])
       (FileRead "pass.py" [SPass]) None.

(** The timing run of the first snippet of a comparer, from its start state. *)
Definition time_first (native : option string -> string -> list value -> process ()
                                -> result value * process ())
           (c : CodeComparer) (repeat number warmup : Z)
           (on_repeat_end : option (@callback ()))
  : result (option (Q * Q)) * state () :=
  _time_single_snippet approx_sqrt native "Snippet 1" (code_1 c) (setup_code c)
    repeat number warmup on_repeat_end (start_state c).

Definition run_compare (reps number warmup : Z) (s : state ())
  : result ComparisonResult * state () :=
  compare_execution approx_sqrt sleepy_native reps number warmup None s.

(** * Properties *)

(** ** Lists, sorting and the library functions *)

(** One step of the [result] monad. *)
Ltac rstep := cbn [mbind result_bind mret result_ret].

Lemma py_index_lt {A} (l : list A) (i : nat) :
  (i < length l)%nat -> exists a, py_index l i = Ok a /\ nth_error l i = Some a.
Proof.
  intros Hi. unfold py_index.
  destruct (nth_error l i) as [a|] eqn:E.
  - exists a. split; reflexivity.
  - apply nth_error_None in E. lia.
Qed.

Lemma insert_sorted_length x l : length (insert_sorted x l) = S (length l).
Proof.
  induction l as [|y ys IH]; simpl; [reflexivity|].
  destruct (Qle_bool x y); simpl; [reflexivity|]. now rewrite IH.
Qed.

Lemma sorted_length l : length (sorted l) = length l.
Proof.
  induction l as [|x xs IH]; simpl; [reflexivity|].
  now rewrite insert_sorted_length, IH.
Qed.

Lemma mean_nonempty data :
  data <> [] -> statistics.mean data = Ok (fsum data / QofZ (len data))%Q.
Proof. destruct data; [congruence | reflexivity]. Qed.

Lemma median_nonempty data :
  data <> [] -> exists m, statistics.median data = Ok m.
Proof.
  intros Hne. unfold statistics.median. cbv zeta.
  assert (Hlen : (0 < length (sorted data))%nat).
  { rewrite sorted_length. destruct data; [congruence | simpl; lia]. }
  destruct (Nat.eqb_spec (length (sorted data)) 0) as [E|_]; [lia|].
  destruct (Nat.eqb_spec (length (sorted data) mod 2) 1) as [Hodd|Heven].
  - destruct (py_index_lt (sorted data) (length (sorted data) / 2)) as (a & Ha & _).
    + apply Nat.div_lt; lia.
    + rewrite Ha. eauto.
  - assert (Hdiv : (length (sorted data) / 2 < length (sorted data))%nat)
      by (apply Nat.div_lt; lia).
    destruct (py_index_lt (sorted data) (length (sorted data) / 2 - 1)) as (a & Ha & _);
      [lia|].
    destruct (py_index_lt (sorted data) (length (sorted data) / 2)) as (b & Hb & _);
      [lia|].
    rewrite Ha. rstep. rewrite Hb. rstep. eauto.
Qed.

Lemma quantiles_100 data :
  2 <= len data ->
  exists qs, statistics.quantiles data 100 = Ok qs /\ length qs = 99%nat.
Proof.
  intros Hlen. unfold statistics.quantiles.
  change (100 <? 1) with false. cbv iota zeta.
  unfold len in *. rewrite sorted_length.
  destruct (Z.ltb_spec (Z.of_nat (length data)) 2) as [?|_]; [lia|].
  eexists. split; [reflexivity|].
  now rewrite !length_map, length_seq.
Qed.

Lemma min_nonempty data : data <> [] -> exists m, py_min data = Ok m.
Proof. destruct data; [congruence | simpl; eauto]. Qed.

Lemma max_nonempty data : data <> [] -> exists m, py_max data = Ok m.
Proof. destruct data; [congruence | simpl; eauto]. Qed.

Lemma len_nonempty {A} (l : list A) : 1 <= len l -> l <> [].
Proof. destruct l; unfold len; simpl; [lia | congruence]. Qed.

(** What [_detailed_stats] returns on twenty samples or more. *)
Lemma _detailed_stats_large sqrt data :
  20 <= len data ->
  exists qs p4 p94 st,
    statistics.quantiles data 100 = Ok qs /\
    nth_error qs 4 = Some p4 /\ nth_error qs 94 = Some p94 /\
    _detailed_stats sqrt data = Ok st /\
    s_count st = len data /\
    s_percentile_5 st = (if Qeq_bool p4 0 then None else Some p4) /\
    s_percentile_95 st = (if Qeq_bool p94 0 then None else Some p94) /\
    statistics.median data = Ok (s_median st) /\
    py_min data = Ok (s_min st) /\ py_max data = Ok (s_max st).
Proof.
  intros Hlen.
  assert (Hne : data <> []) by (apply len_nonempty; lia).
  destruct (quantiles_100 data) as (qs & Hqs & Hlq); [lia|].
  destruct (median_nonempty data Hne) as (med & Hmed).
  destruct (min_nonempty data Hne) as (mn & Hmn).
  destruct (max_nonempty data Hne) as (mx & Hmx).
  destruct (py_index_lt (map Some qs) 4) as (o4 & Ho4 & Hn4);
    [rewrite length_map; lia|].
  destruct (py_index_lt (map Some qs) 94) as (o94 & Ho94 & Hn94);
    [rewrite length_map; lia|].
  rewrite nth_error_map in Hn4, Hn94.
  destruct (nth_error qs 4) as [p4|] eqn:E4; [|discriminate].
  destruct (nth_error qs 94) as [p94|] eqn:E94; [|discriminate].
  simpl in Hn4, Hn94. injection Hn4 as <-. injection Hn94 as <-.
  exists qs, p4, p94. eexists.
  split; [exact Hqs|]. split; [exact E4|]. split; [exact E94|].
  unfold _detailed_stats.
  destruct (Z.leb_spec 20 (len data)) as [_|?]; [|lia].
  rewrite Hqs. rstep. rewrite (mean_nonempty data Hne). rstep.
  destruct (Z.ltb_spec 1 (len data)) as [_|?]; [|lia].
  unfold statistics.stdev.
  destruct (Z.ltb_spec (len data) 2) as [?|_]; [lia|].
  rstep. rewrite Hmed. rstep. rewrite Ho4. rstep. rewrite Ho94. rstep.
  rewrite Hmn. rstep. rewrite Hmx. rstep.
  split; [reflexivity|]. cbn [s_count s_percentile_5 s_percentile_95 truthy].
  split; [reflexivity|].
  split; [destruct (Qeq_bool _ 0); reflexivity|].
  split; [destruct (Qeq_bool _ 0); reflexivity|].
  cbn [s_median s_min s_max]. repeat split; assumption.
Qed.

(** ** Order on the rationals, as the code tests it *)

Lemma Qlt_b_lt (a b : Q) : Qlt_b a b = true <-> (a < b)%Q.
Proof.
  unfold Qlt_b. rewrite negb_true_iff. split.
  - intros H. apply Qnot_le_lt. intros Hle.
    apply Qle_bool_iff in Hle. congruence.
  - intros H. destruct (Qle_bool b a) eqn:E; [|reflexivity].
    apply Qle_bool_iff in E. exfalso. exact (Qlt_not_le _ _ H E).
Qed.

Lemma Qlt_b_ge (a b : Q) : Qlt_b a b = false <-> (b <= a)%Q.
Proof.
  unfold Qlt_b. rewrite negb_false_iff. apply Qle_bool_iff.
Qed.

Lemma py_div_pos (a b : Q) : (0 < b)%Q -> py_div a b = Ok (a / b)%Q.
Proof.
  intros Hb. unfold py_div.
  destruct (Qeq_bool b 0) eqn:E; [|reflexivity].
  apply Qeq_bool_iff in E. rewrite E in Hb. exfalso. exact (Qlt_irrefl _ Hb).
Qed.

Lemma py_div_nonzero (a b : Q) : ~ (b == 0)%Q -> py_div a b = Ok (a / b)%Q.
Proof.
  intros Hb. unfold py_div.
  destruct (Qeq_bool b 0) eqn:E; [|reflexivity].
  apply Qeq_bool_iff in E. contradiction.
Qed.

(** ** C4: fewer than two samples *)

(** C4, the empty series (zero repetitions): [_detailed_stats] faults on
    it, [statistics.mean] raising before any fallback value is built, while
    [_confidence_interval] does return [(0, 0)]; a comparison of zero
    repetitions ends in that fault. *)
Theorem C4_empty_series_faults :
  ~ degenerate_fallback approx_sqrt [] /\
  _detailed_stats approx_sqrt [] =
    Raise (StatisticsError "mean requires at least one data point") /\
  _confidence_interval approx_sqrt [] = Ok (0%Q, 0%Q) /\
  (run_compare 0 1 0 (start_state default_comparer)).1 =
    Raise (StatisticsError "mean requires at least one data point").
Proof.
  split; [|split; [|split]]; try (vm_compute; reflexivity).
  intros (st & Hst & _). vm_compute in Hst. discriminate.
Qed.

(** What does hold below two samples: the confidence interval is [(0, 0)];
    a series of exactly one sample is described without fault, with
    [stdev = 0] and mean, median, minimum and maximum all equal to the
    sample; the empty series makes [_detailed_stats] raise. *)
Lemma fewer_than_two_samples (sqrt : Q -> Q) (data : list Q) :
  len data < 2 ->
  _confidence_interval sqrt data = Ok (0%Q, 0%Q) /\
  (forall x, data = [x] ->
     exists st, _detailed_stats sqrt data = Ok st /\
       s_stdev st = 0%Q /\ s_count st = 1 /\
       (s_mean st == x)%Q /\ s_median st = x /\ s_min st = x /\ s_max st = x /\
       s_percentile_5 st = None /\ s_percentile_95 st = None) /\
  (data = [] ->
     _detailed_stats sqrt data =
       Raise (StatisticsError "mean requires at least one data point")).
Proof.
  intros Hlen. split; [|split].
  - unfold _confidence_interval.
    destruct (Z.ltb_spec (len data) 2) as [_|?]; [|lia].
    now rewrite orb_true_r.
  - intros x ->. eexists. split; [reflexivity|]. cbn.
    repeat split; try reflexivity.
    change (QofZ (len [x])) with 1%Q. field.
  - intros ->. reflexivity.
Qed.

Lemma one_sample_example :
  len [0.25%Q] < 2 /\
  _confidence_interval approx_sqrt [0.25%Q] = Ok (0%Q, 0%Q) /\
  exists st, _detailed_stats approx_sqrt [0.25%Q] = Ok st /\ s_stdev st = 0%Q.
Proof.
  assert (H : len [0.25%Q] < 2) by (unfold len; simpl; lia).
  destruct (fewer_than_two_samples approx_sqrt [0.25%Q] H) as (Hci & Hone & _).
  destruct (Hone 0.25%Q eq_refl) as (st & Hst & Hsd & _).
  split; [exact H|]. split; [exact Hci|].
  exists st. split; [exact Hst | exact Hsd].
Qed.


(** ** C5: the ranking verdict *)

(** C5, a tie at zero (both series all zero, as with zero executions per
    repetition): the guard [mean > 0] sends the ratio to infinity, not 1. *)
Lemma C5_tie_at_zero : ~ tie_verdict 0 /\
  rank 0 0 = Ok {| faster := Snippet2; slower := Snippet1; ratio := PosInf; percent := 0 |}.
Proof.
  split; [|reflexivity].
  intros (v & r & Hv & _ & Hr & _). vm_compute in Hv.
  injection Hv as <-. discriminate.
Qed.

(** C5, as the code ranks: for non-negative means the snippet with the strictly
    smaller mean is labelled faster, and Snippet 2 otherwise; the ratio is
    slower/faster, at least 1, when the faster mean is positive and
    infinity when it is 0; the percentage is (1 - faster/slower) * 100 when
    the slower mean is positive and 0 when it is 0; a tie at a positive
    mean gives Snippet 2, ratio 1, percentage 0. *)
Theorem C5_ranking_verdict (mean1 mean2 : Q) :
  (0 <= mean1)%Q -> (0 <= mean2)%Q ->
  let f := faster_mean mean1 mean2 in
  let s := slower_mean mean1 mean2 in
  exists v,
    rank mean1 mean2 = Ok v /\
    ((mean1 < mean2)%Q -> faster v = Snippet1 /\ slower v = Snippet2) /\
    ((mean2 <= mean1)%Q -> faster v = Snippet2 /\ slower v = Snippet1) /\
    ((0 < f)%Q -> exists r, ratio v = Fin r /\ (r == s / f)%Q /\ (1 <= r)%Q) /\
    ((f == 0)%Q -> ratio v = PosInf) /\
    ((0 < s)%Q -> (percent v == (1 - f / s) * 100)%Q) /\
    ((s == 0)%Q -> percent v = 0%Q) /\
    ((mean1 == mean2)%Q -> (0 < mean1)%Q ->
       faster v = Snippet2 /\
       exists r, ratio v = Fin r /\ (r == 1)%Q /\ (percent v == 0)%Q).
Proof.
  intros H1 H2 f s. subst f s. unfold faster_mean, slower_mean, rank.
  unfold guarded_ratio, guarded_percent.
  destruct (Qlt_b mean1 mean2) eqn:Hlt;
    [apply Qlt_b_lt in Hlt | apply Qlt_b_ge in Hlt];
    (destruct (Qlt_b 0 mean1) eqn:Hp1;
       [apply Qlt_b_lt in Hp1; rewrite ?(py_div_pos mean2 mean1 Hp1)
       | apply Qlt_b_ge in Hp1]);
    (destruct (Qlt_b 0 mean2) eqn:Hp2;
       [apply Qlt_b_lt in Hp2; rewrite ?(py_div_pos mean1 mean2 Hp2)
       | apply Qlt_b_ge in Hp2]);
    rstep; try (exfalso; lra);
    (eexists; split; [reflexivity|]);
    cbn [faster slower ratio percent];
    repeat apply conj;
    try solve [ intros; exfalso; lra
              | intros; split; reflexivity
              | intros; reflexivity ].
  - intros _. eexists. split; [reflexivity|]. split; [reflexivity|].
    apply Qle_shift_div_l; [exact Hp1|]. lra.
  - intros _. eexists. split; [reflexivity|]. split; [reflexivity|].
    apply Qle_shift_div_l; [exact Hp2|]. lra.
  - intros Htie _. split; [reflexivity|].
    eexists. split; [reflexivity|]. split.
    + rewrite Htie. field. lra.
    + rewrite Htie. field. lra.
Qed.

Lemma C5_ranking_verdict_witness :
  exists v, rank 10 20 = Ok v /\ faster v = Snippet1 /\ slower v = Snippet2 /\
    (exists r, ratio v = Fin r /\ (r == 2.0)%Q) /\ (percent v == 50.0)%Q.
Proof.
  assert (H1 : (0 <= 10)%Q) by (vm_compute; discriminate).
  assert (H2 : (0 <= 20)%Q) by (vm_compute; discriminate).
  destruct (C5_ranking_verdict 10 20 H1 H2)
    as (v & Hv & Hlt & _ & Hratio & _ & Hpercent & _).
  exists v. split; [exact Hv|].
  destruct Hlt as [Hf Hs]; [reflexivity|].
  split; [exact Hf|]. split; [exact Hs|]. split.
  - destruct Hratio as (r & Hr & Hr2 & _); [reflexivity|].
    exists r. split; [exact Hr|]. rewrite Hr2. reflexivity.
  - rewrite Hpercent; reflexivity.
Defined.

(** ** C6: the confidence interval for two samples or more *)

Lemma t_table_outside (n : Z) : n < 2 \/ 10 < n -> t_table !! n = None.
Proof.
  intros Hn. unfold t_table.
  rewrite !lookup_insert_ne by lia. apply lookup_singleton_ne. lia.
Qed.

Lemma t_spec_outside (n : Z) :
  n < 2 \/ 10 < n -> t_spec n = if n <=? 30 then 2.0%Q else 1.96%Q.
Proof.
  intros Hn. unfold t_spec.
  destruct n as [|p|p]; try reflexivity.
  do 4 (try (destruct p as [p|p|]; try reflexivity; try lia)).
Qed.

Lemma t_value_spec (n : Z) : t_value n = t_spec n.
Proof.
  unfold t_value.
  destruct (Z.ltb_spec 30 n) as [Hbig|Hsmall].
  - rewrite t_spec_outside by lia.
    destruct (Z.leb_spec n 30) as [?|_]; [lia | reflexivity].
  - destruct (Z_le_gt_dec 2 n) as [Hlo|Hlo]; [destruct (Z_le_gt_dec n 10) as [Hhi|Hhi]|].
    + assert (Hcases : n = 2 \/ n = 3 \/ n = 4 \/ n = 5 \/ n = 6 \/ n = 7 \/
                       n = 8 \/ n = 9 \/ n = 10) by lia.
      repeat (destruct Hcases as [->|Hcases]; [vm_compute; reflexivity|]).
      subst n. vm_compute. reflexivity.
    + rewrite t_table_outside, t_spec_outside by lia. cbn [default].
      destruct (Z.leb_spec n 30) as [_|?]; [reflexivity | lia].
    + rewrite t_table_outside, t_spec_outside by lia. cbn [default].
      destruct (Z.leb_spec n 30) as [_|?]; [reflexivity | lia].
Qed.

(** C6: with two samples or more the interval is
    [(mean - margin, mean + margin)], [margin = t(n) * stdev / sqrt(n)],
    [t] being the table of the specification.  The square root is a
    parameter; it is asked not to vanish at [n]. *)
Theorem C6_confidence_interval (sqrt : Q -> Q) (data : list Q) :
  let n := len data in
  2 <= n ->
  ~ (sqrt (QofZ n) == 0)%Q ->
  exists mean stdev,
    statistics.mean data = Ok mean /\
    statistics.stdev sqrt data = Ok stdev /\
    let margin := (t_spec n * stdev / sqrt (QofZ n))%Q in
    _confidence_interval sqrt data = Ok (mean - margin, mean + margin)%Q.
Proof.
  intros n Hn Hsqrt. subst n.
  assert (Hne : data <> []) by (apply len_nonempty; lia).
  exists (fsum data / QofZ (len data))%Q.
  exists (sqrt (statistics.ss data / QofZ (len data - 1))%Q).
  split; [now apply mean_nonempty|].
  assert (Hsd : statistics.stdev sqrt data
                = Ok (sqrt (statistics.ss data / QofZ (len data - 1))%Q)).
  { unfold statistics.stdev.
    destruct (Z.ltb_spec (len data) 2) as [?|_]; [lia | reflexivity]. }
  split; [exact Hsd|].
  cbv zeta. unfold _confidence_interval.
  destruct data as [|x xs]; [congruence|]. cbn [py_not orb].
  destruct (Z.ltb_spec (len (x :: xs)) 2) as [?|_]; [lia|].
  rewrite (mean_nonempty (x :: xs) Hne), Hsd. rstep.
  rewrite py_div_nonzero by exact Hsqrt. rstep.
  now rewrite t_value_spec.
Qed.

Lemma C6_confidence_interval_witness :
  exists lo hi,
    _confidence_interval approx_sqrt [1%Q; 3%Q] = Ok (lo, hi) /\
    (lo == 2 - 12.71 * 1.414214 / 1.414214)%Q /\
    (hi == 2 + 12.71 * 1.414214 / 1.414214)%Q.
Proof.
  assert (Hn : 2 <= len [1%Q; 3%Q]) by (vm_compute; discriminate).
  assert (Hs : ~ (approx_sqrt (QofZ (len [1%Q; 3%Q])) == 0)%Q)
    by (vm_compute; discriminate).
  destruct (C6_confidence_interval approx_sqrt [1%Q; 3%Q] Hn Hs)
    as (mean & stdev & Hmean & Hstdev & Hci).
  injection Hmean as <-. injection Hstdev as <-.
  eexists. eexists. split; [exact Hci|].
  split; vm_compute; reflexivity.
Defined.

(** ** The percentile chain, when both percentiles are present *)

Lemma insert_sorted_In (x y : Q) (l : list Q) :
  In y (insert_sorted x l) <-> y = x \/ In y l.
Proof.
  induction l as [|z zs IH]; cbn [insert_sorted In].
  - intuition congruence.
  - destruct (Qle_bool x z); cbn [In]; [intuition congruence|].
    rewrite IH. intuition congruence.
Qed.

Lemma sorted_In (y : Q) (l : list Q) : In y (sorted l) <-> In y l.
Proof.
  induction l as [|x xs IH]; cbn [sorted In]; [tauto|].
  rewrite insert_sorted_In, IH. intuition congruence.
Qed.

Lemma insert_sorted_ordered (x : Q) (l : list Q) :
  StronglySorted Qle l -> StronglySorted Qle (insert_sorted x l).
Proof.
  induction 1 as [|z zs Hzs IH Hall]; cbn [insert_sorted].
  - constructor; constructor.
  - destruct (Qle_bool x z) eqn:E.
    + apply Qle_bool_iff in E. constructor.
      * now constructor.
      * constructor; [exact E|].
        rewrite List.Forall_forall in Hall |- *. intros w Hw.
        specialize (Hall w Hw). lra.
    + assert (Hzx : (z <= x)%Q).
      { apply Qlt_le_weak, Qnot_le_lt. intros Hle.
        apply Qle_bool_iff in Hle. congruence. }
      constructor; [exact IH|].
      apply List.Forall_forall. intros w Hw. apply insert_sorted_In in Hw.
      destruct Hw as [->|Hw]; [exact Hzx|].
      rewrite List.Forall_forall in Hall. now apply Hall.
Qed.

Lemma sorted_ordered (l : list Q) : StronglySorted Qle (sorted l).
Proof.
  induction l as [|x xs IH]; cbn [sorted]; [constructor|].
  now apply insert_sorted_ordered.
Qed.

Lemma ordered_nth (l : list Q) :
  StronglySorted Qle l ->
  forall i j, (i <= j < length l)%nat -> (nth i l 0 <= nth j l 0)%Q.
Proof.
  induction 1 as [|z zs Hzs IH Hall]; intros i j Hij; cbn [length] in Hij; [lia|].
  destruct i as [|i], j as [|j]; cbn [nth]; try lia.
  - apply Qle_refl.
  - rewrite List.Forall_forall in Hall. apply Hall, nth_In. lia.
  - apply IH. lia.
Qed.

Lemma py_min_lower (data : list Q) (m : Q) :
  py_min data = Ok m -> forall x, In x data -> (m <= x)%Q.
Proof.
  destruct data as [|y ys]; [discriminate|]. cbn [py_min]. intros [= <-].
  assert (Hfold : forall l a,
             (fold_left (fun m y => if Qlt_b y m then y else m) l a <= a)%Q /\
             forall x, In x l ->
               (fold_left (fun m y => if Qlt_b y m then y else m) l a <= x)%Q).
  { induction l as [|z zs IH]; intros a; cbn [fold_left In].
    - split; [apply Qle_refl | tauto].
    - destruct (Qlt_b z a) eqn:E.
      + apply Qlt_b_lt in E. destruct (IH z) as [H1 H2]. split; [lra|].
        intros x [->|Hx]; [exact H1 | now apply H2].
      + apply Qlt_b_ge in E. destruct (IH a) as [H1 H2]. split; [exact H1|].
        intros x [->|Hx]; [lra | now apply H2]. }
  intros x [<-|Hx]; [apply (proj1 (Hfold ys y)) | apply (proj2 (Hfold ys y)), Hx].
Qed.

Lemma py_max_upper (data : list Q) (m : Q) :
  py_max data = Ok m -> forall x, In x data -> (x <= m)%Q.
Proof.
  destruct data as [|y ys]; [discriminate|]. cbn [py_max]. intros [= <-].
  assert (Hfold : forall l a,
             (a <= fold_left (fun m y => if Qlt_b m y then y else m) l a)%Q /\
             forall x, In x l ->
               (x <= fold_left (fun m y => if Qlt_b m y then y else m) l a)%Q).
  { induction l as [|z zs IH]; intros a; cbn [fold_left In].
    - split; [apply Qle_refl | tauto].
    - destruct (Qlt_b a z) eqn:E.
      + apply Qlt_b_lt in E. destruct (IH z) as [H1 H2]. split; [lra|].
        intros x [->|Hx]; [exact H1 | now apply H2].
      + apply Qlt_b_ge in E. destruct (IH a) as [H1 H2]. split; [exact H1|].
        intros x [->|Hx]; [lra | now apply H2]. }
  intros x [<-|Hx]; [apply (proj1 (Hfold ys y)) | apply (proj2 (Hfold ys y)), Hx].
Qed.

(** An interpolation between two ordered values stays between them. *)
Lemma interpolation_between (a b : Q) (n delta : Z) :
  (a <= b)%Q -> 0 <= delta <= n -> 0 < n ->
  (a <= (a * QofZ (n - delta) + b * QofZ delta) / QofZ n <= b)%Q.
Proof.
  intros Hab Hdelta Hn. unfold QofZ.
  assert (Hnq : (0 < inject_Z n)%Q) by (change 0%Q with (inject_Z 0); now rewrite <- Zlt_Qlt).
  assert (Hdq : (0 <= inject_Z delta)%Q)
    by (change 0%Q with (inject_Z 0); rewrite <- Zle_Qle; lia).
  assert (Hrq : (0 <= inject_Z (n - delta))%Q)
    by (change 0%Q with (inject_Z 0); rewrite <- Zle_Qle; lia).
  assert (Hsum : (inject_Z (n - delta) + inject_Z delta == inject_Z n)%Q).
  { rewrite <- inject_Z_plus. now replace (n - delta + delta) with n by lia. }
  split.
  - apply Qle_shift_div_l; [exact Hnq|].
    rewrite <- Hsum. rewrite Qmult_plus_distr_r.
    apply Qplus_le_compat; [apply Qle_refl|].
    apply Qmult_le_compat_r; assumption.
  - apply Qle_shift_div_r; [exact Hnq|].
    rewrite <- Hsum. rewrite Qmult_plus_distr_r.
    apply Qplus_le_compat; [|apply Qle_refl].
    apply Qmult_le_compat_r; assumption.
Qed.

Lemma quantile_point_between (sd : list Q) (n i : Z) :
  StronglySorted Qle sd -> 0 < n ->
  let j := i * (len sd + 1) / n in
  1 <= j <= len sd - 1 ->
  (nth (Z.to_nat (j - 1)) sd 0 <= statistics.quantile_point sd n i
     <= nth (Z.to_nat j) sd 0)%Q.
Proof.
  intros Hsd Hn j Hj. unfold statistics.quantile_point. fold j.
  destruct (Z.ltb_spec j 1) as [?|_]; [lia|].
  destruct (Z.ltb_spec (len sd - 1) j) as [?|_]; [lia|].
  apply interpolation_between.
  - apply ordered_nth; [exact Hsd|]. unfold len in Hj. lia.
  - subst j. pose proof (Z.mul_div_le (i * (len sd + 1)) n Hn).
    pose proof (Z.mul_succ_div_gt (i * (len sd + 1)) n Hn). lia.
  - exact Hn.
Qed.

Lemma quantiles_entry (data qs : list Q) (k : nat) (q : Q) :
  statistics.quantiles data 100 = Ok qs -> (k < 99)%nat ->
  nth_error qs k = Some q ->
  q = statistics.quantile_point (sorted data) 100 (Z.of_nat (S k)).
Proof.
  unfold statistics.quantiles. change (100 <? 1) with false. cbv iota zeta.
  destruct (len (sorted data) <? 2); [discriminate|].
  intros Hqs Hk Hq.
  apply (f_equal (fun r => match r with Ok l => l | Raise _ => [] end)) in Hqs.
  cbv beta iota in Hqs. subst qs.
  rewrite !nth_error_map in Hq.
  change (Z.to_nat 100 - 1)%nat with 99%nat in Hq.
  assert (Hseq : nth_error (seq 1 99) k = Some (S k)).
  { rewrite nth_error_nth' with (d := O) by (rewrite length_seq; exact Hk).
    now rewrite seq_nth. }
  rewrite Hseq in Hq. cbn [option_map] in Hq. congruence.
Qed.

Lemma median_between (data : list Q) (med : Q) :
  statistics.median data = Ok med ->
  let sd := sorted data in
  let n := length sd in
  (0 < n)%nat /\
  (nth ((n - 1) / 2) sd 0 <= med <= nth (n / 2) sd 0)%Q.
Proof.
  unfold statistics.median. cbv zeta.
  pose proof (sorted_ordered data) as Hsd.
  set (sd := sorted data) in *. set (n := length sd).
  destruct (Nat.eqb_spec n 0) as [?|Hn]; [discriminate|].
  assert (Hhalf : (n / 2 < n)%nat) by (apply Nat.div_lt; lia).
  destruct (Nat.eqb_spec (n mod 2) 1) as [Hodd|Heven].
  - unfold py_index.
    destruct (nth_error sd (n / 2)) as [a|] eqn:E; [|discriminate].
    intros [= <-]. split; [lia|].
    apply (nth_error_nth _ _ 0%Q) in E.
    assert (Hidx : ((n - 1) / 2 = n / 2)%nat).
    { pose proof (Nat.div_mod_eq n 2). pose proof (Nat.div_mod_eq (n - 1) 2).
      pose proof (Nat.mod_upper_bound (n - 1) 2). lia. }
    rewrite Hidx, E. split; apply Qle_refl.
  - unfold py_index.
    destruct (nth_error sd (n / 2 - 1)) as [a|] eqn:Ea; [|discriminate]. rstep.
    destruct (nth_error sd (n / 2)) as [b|] eqn:Eb; [|discriminate]. rstep.
    intros [= <-]. split; [lia|].
    apply (nth_error_nth _ _ 0%Q) in Ea, Eb.
    assert (Hidx : ((n - 1) / 2 = n / 2 - 1)%nat).
    { pose proof (Nat.div_mod_eq n 2). pose proof (Nat.div_mod_eq (n - 1) 2).
      pose proof (Nat.mod_upper_bound (n - 1) 2).
      pose proof (Nat.mod_upper_bound n 2). lia. }
    rewrite Hidx, Ea, Eb.
    assert (Hab : (a <= b)%Q).
    { rewrite <- Ea, <- Eb. apply ordered_nth; [exact Hsd|]. fold n. lia. }
    split.
    + apply Qle_shift_div_l; [reflexivity|]. lra.
    + apply Qle_shift_div_r; [reflexivity|]. lra.
Qed.

(** Below twenty samples both percentile fields are absent. *)
Lemma _detailed_stats_small (sqrt : Q -> Q) (data : list Q) (st : DescriptiveStats) :
  len data < 20 -> _detailed_stats sqrt data = Ok st ->
  s_percentile_5 st = None /\ s_percentile_95 st = None.
Proof.
  intros Hlen. unfold _detailed_stats.
  destruct (Z.leb_spec 20 (len data)) as [?|_]; [lia|]. rstep.
  destruct (statistics.mean data); rstep; [|discriminate].
  destruct (if 1 <? len data then statistics.stdev sqrt data else Ok 0%Q);
    rstep; [|discriminate].
  destruct (statistics.median data); rstep; [|discriminate].
  change (py_index (replicate 99 (@None Q)) 4) with (Ok (@None Q)).
  change (py_index (replicate 99 (@None Q)) 94) with (Ok (@None Q)). rstep.
  destruct (py_min data); rstep; [|discriminate].
  destruct (py_max data); rstep; [|discriminate].
  intros [= <-]. split; reflexivity.
Qed.

(** Whenever [_detailed_stats] reports both percentiles, they sit in the
    chain min <= percentile_5 <= median <= percentile_95 <= max. *)
Lemma percentile_chain_when_present (sqrt : Q -> Q) (data : list Q)
      (st : DescriptiveStats) (p5 p95 : Q) :
  _detailed_stats sqrt data = Ok st ->
  s_percentile_5 st = Some p5 -> s_percentile_95 st = Some p95 ->
  (s_min st <= p5)%Q /\ (p5 <= s_median st)%Q /\
  (s_median st <= p95)%Q /\ (p95 <= s_max st)%Q.
Proof.
  intros Hst H5 H95.
  destruct (Z_lt_ge_dec (len data) 20) as [Hsmall|Hlarge].
  { destruct (_detailed_stats_small sqrt data st Hsmall Hst) as [E _]. congruence. }
  assert (Hlen : 20 <= len data) by lia.
  destruct (_detailed_stats_large sqrt data Hlen)
    as (qs & p4 & p94 & st' & Hqs & E4 & E94 & Hst' & _ & Hp5 & Hp95 & Hmed & Hmin & Hmax).
  assert (st' = st) by congruence. subst st'.
  assert (p4 = p5) by (rewrite Hp5 in H5; destruct (Qeq_bool p4 0); congruence).
  assert (p94 = p95) by (rewrite Hp95 in H95; destruct (Qeq_bool p94 0); congruence).
  subst p4 p94.
  apply (quantiles_entry data qs 4 p5 Hqs) in E4; [|lia].
  apply (quantiles_entry data qs 94 p95 Hqs) in E94; [|lia].
  pose proof (sorted_ordered data) as Hsd.
  pose proof (sorted_length data) as Hsl.
  destruct (median_between data (s_median st) Hmed) as (_ & Hm1 & Hm2).
  set (sd := sorted data) in *. set (n := length sd) in *.
  assert (Hn : len sd = Z.of_nat n) by reflexivity.
  assert (Hn20 : (20 <= n)%nat) by (unfold len in Hlen; lia).
  pose proof (quantile_point_between sd 100 (Z.of_nat 5) Hsd eq_refl) as Hq5.
  pose proof (quantile_point_between sd 100 (Z.of_nat 95) Hsd eq_refl) as Hq95.
  cbv zeta in Hq5, Hq95. rewrite Hn in Hq5, Hq95.
  rewrite <- E4 in Hq5. rewrite <- E94 in Hq95.
  set (j5 := Z.of_nat 5 * (Z.of_nat n + 1) / 100) in *.
  set (j95 := Z.of_nat 95 * (Z.of_nat n + 1) / 100) in *.
  assert (Hj5 : 1 <= j5 <= (Z.of_nat n - 1) / 2).
  { subst j5. split.
    - apply Z.div_le_lower_bound; lia.
    - apply Z.div_le_lower_bound; [lia|].
      pose proof (Z.mul_div_le (Z.of_nat 5 * (Z.of_nat n + 1)) 100 eq_refl). lia. }
  assert (Hj95 : Z.of_nat n / 2 + 1 <= j95 <= Z.of_nat n - 1).
  { subst j95. split.
    - apply Z.div_le_lower_bound; [lia|].
      pose proof (Z.mul_div_le (Z.of_nat n) 2 eq_refl). lia.
    - apply Z.lt_succ_r. apply Z.div_lt_upper_bound; lia. }
  assert (Hhalf1 : Z.of_nat ((n - 1) / 2) = (Z.of_nat n - 1) / 2).
  { rewrite Nat2Z.inj_div, Nat2Z.inj_sub by lia. reflexivity. }
  assert (Hhalf2 : Z.of_nat (n / 2) = Z.of_nat n / 2).
  { now rewrite Nat2Z.inj_div. }
  assert (Hdiv : (Z.of_nat n - 1) / 2 < Z.of_nat n).
  { apply Z.div_lt_upper_bound; lia. }
  assert (Hmin5 : (s_min st <= nth (Z.to_nat (j5 - 1)) sd 0)%Q).
  { apply (py_min_lower data _ Hmin). apply sorted_In. fold sd.
    apply nth_In. fold n. lia. }
  assert (Hmax95 : (nth (Z.to_nat j95) sd 0 <= s_max st)%Q).
  { apply (py_max_upper data _ Hmax). apply sorted_In. fold sd.
    apply nth_In. fold n. lia. }
  assert (H5med : (nth (Z.to_nat j5) sd 0 <= nth ((n - 1) / 2) sd 0)%Q).
  { apply ordered_nth; [exact Hsd|]. fold n. lia. }
  assert (Hmed95 : (nth (n / 2) sd 0 <= nth (Z.to_nat (j95 - 1)) sd 0)%Q).
  { apply ordered_nth; [exact Hsd|]. fold n. lia. }
  destruct Hq5 as [Hq5a Hq5b]; [lia|].
  destruct Hq95 as [Hq95a Hq95b]; [lia|].
  repeat split; lra.
Qed.

(** ** C8 and C9: percentiles *)

(** C8, twenty samples that are all zero, as twenty repetitions of zero
    executions produce: the count is 20, the 100-quantiles are computed and
    are all 0, and both percentile fields come back absent, so the chain
    min <= percentile_5 <= median <= percentile_95 <= max has nothing to
    compare.  Whenever both fields are present the chain does hold
    ([percentile_chain_when_present]). *)
Theorem C8_percentiles_absent_at_count_20 :
  (exists st,
     _detailed_stats approx_sqrt (replicate 20 0%Q) = Ok st /\
     s_count st = 20 /\
     s_percentile_5 st = None /\ s_percentile_95 st = None /\
     statistics.quantiles (replicate 20 0%Q) 100 = Ok (replicate 99 (0 # 100)%Q)) /\
  (exists res,
     (run_compare 20 0 0 (start_state default_comparer)).1 = Ok res /\
     s_count (stats1 res) = 20 /\
     s_percentile_5 (stats1 res) = None /\ s_percentile_95 (stats1 res) = None).
Proof.
  split.
  - eexists. split; [vm_compute; reflexivity|].
    repeat split; vm_compute; reflexivity.
  - eexists. split; [vm_compute; reflexivity|].
    repeat split; reflexivity.
Qed.

(** C9: with twenty samples or more the statistics are returned, and a
    computed 5th (95th) percentile equal to zero is reported as absent;
    any other value is reported as it is. *)
Theorem C9_zero_percentile_reported_absent (sqrt : Q -> Q) (data : list Q) :
  20 <= len data ->
  exists qs p4 p94 st,
    statistics.quantiles data 100 = Ok qs /\
    nth_error qs 4 = Some p4 /\ nth_error qs 94 = Some p94 /\
    _detailed_stats sqrt data = Ok st /\
    s_count st = len data /\
    ((p4 == 0)%Q -> s_percentile_5 st = None) /\
    ((p94 == 0)%Q -> s_percentile_95 st = None) /\
    (~ (p4 == 0)%Q -> s_percentile_5 st = Some p4) /\
    (~ (p94 == 0)%Q -> s_percentile_95 st = Some p94).
Proof.
  intros Hlen.
  destruct (_detailed_stats_large sqrt data Hlen)
    as (qs & p4 & p94 & st & Hqs & H4 & H94 & Hst & Hcount & Hp5 & Hp95 & _).
  exists qs, p4, p94, st.
  repeat (split; [assumption|]).
  rewrite Hp5, Hp95.
  repeat split; intros Hz.
  - apply Qeq_bool_iff in Hz. now rewrite Hz.
  - apply Qeq_bool_iff in Hz. now rewrite Hz.
  - destruct (Qeq_bool p4 0) eqn:E; [|reflexivity].
    apply Qeq_bool_iff in E. contradiction.
  - destruct (Qeq_bool p94 0) eqn:E; [|reflexivity].
    apply Qeq_bool_iff in E. contradiction.
Qed.

Lemma C9_zero_percentile_reported_absent_witness :
  exists st,
    _detailed_stats approx_sqrt (replicate 19 0%Q ++ [7%Q])%list = Ok st /\
    s_count st = 20 /\ s_percentile_5 st = None /\ s_percentile_95 st = Some 6.65%Q.
Proof.
  assert (Hlen : 20 <= len (replicate 19 0%Q ++ [7%Q])%list)
    by (vm_compute; discriminate).
  destruct (C9_zero_percentile_reported_absent approx_sqrt _ Hlen)
    as (qs & p4 & p94 & st & Hqs & H4 & H94 & Hst & Hcount & Hz5 & _ & _ & Hn95).
  vm_compute in Hqs. injection Hqs as <-.
  vm_compute in H4. injection H4 as <-.
  vm_compute in H94. injection H94 as <-.
  exists st. split; [exact Hst|]. split; [exact Hcount|].
  split.
  - apply Hz5. reflexivity.
  - rewrite Hn95 by (vm_compute; discriminate). reflexivity.
Defined.

(** ** C10: the elapsed time of one repetition *)

Lemma elapsed_time_total (start end_ : Q) (number : Z) :
  exists elapsed,
    elapsed_time start end_ number = Ok elapsed /\
    (0 < number -> elapsed = ((end_ - start) / QofZ number)%Q) /\
    (number <= 0 -> elapsed = 0%Q).
Proof.
  unfold elapsed_time.
  destruct (Z.ltb_spec 0 number) as [Hpos|Hle].
  - rewrite py_div_pos.
    + eexists. split; [reflexivity|]. split; [reflexivity | lia].
    + unfold QofZ. change 0%Q with (inject_Z 0). now rewrite <- Zlt_Qlt.
  - eexists. split; [reflexivity|]. split; [lia | reflexivity].
Qed.

(** One step of a method. *)
Ltac mstep :=
  unfold _reset_state, perf_counter;
  unfold mbind, M_bind, mret, M_ret;
  unfold gets, lift, modify;
  cbn beta iota.

(** C10: when the [number] executions of a repetition go through, the
    sample appended is [(end - start) / number] for [number > 0] and
    exactly 0 for [number = 0], [start] and [end] being the two clock
    readings around the executions; computing it never raises, so no
    division by zero happens for any [number >= 0]. *)
Theorem C10_elapsed_per_execution {Lib : Type}
    (native : option string -> string -> list value -> process Lib
              -> result value * process Lib)
    (code_to_time setup_code : program) (number : Z)
    (on_repeat_end : option (@callback Lib)) (rep : Z) (times : list Q)
    (s s1 : state Lib) :
  0 <= number ->
  suppress_output
    (for_range number () (fun _ _ => exec_at native TimedSnippet code_to_time ∅ ∅)) s
    = (Ok (), s1) ->
  let start := clock (proc s) in
  let end_ := clock (proc s1) in
  exists elapsed,
    elapsed_time start end_ number = Ok elapsed /\
    (0 < number -> elapsed = ((end_ - start) / QofZ number)%Q) /\
    (number = 0 -> elapsed = 0%Q) /\
    timed_repetition native code_to_time setup_code number on_repeat_end rep times s
    = (match on_repeat_end with
       | Some cb => call_back cb rep elapsed
       | None => mret ()
       end ;; mret (times ++ [elapsed])%list) s1.
Proof.
  intros Hnum Hrun start end_.
  destruct (elapsed_time_total start end_ number) as (elapsed & He & Hpos & Hzero).
  exists elapsed. split; [exact He|]. split; [exact Hpos|].
  split; [intros ->; apply Hzero; lia|].
  unfold timed_repetition. mstep. rewrite Hrun. mstep.
  fold start. fold end_. rewrite He. reflexivity.
Qed.

Lemma C10_elapsed_per_execution_witness :
  let sleep_code :=
    [ SImport "time"; SExpr (ECall (EAttr (EName "time") "sleep") [EFloat 0.003]) ] in
  exists elapsed,
    (timed_repetition sleepy_native sleep_code [] 3 None 0 []
       (start_state (init NoPath NoPath None))).1 = Ok [elapsed] /\
    (elapsed == 0.003)%Q.
Proof.
  intros sleep_code.
  set (s := start_state (init NoPath NoPath None)).
  set (run := suppress_output
       (for_range 3 () (fun _ _ => exec_at sleepy_native TimedSnippet sleep_code ∅ ∅))).
  assert (Hnum : 0 <= 3) by lia.
  assert (Hrun : run s = (Ok (), (run s).2)) by (vm_compute; reflexivity).
  destruct (C10_elapsed_per_execution sleepy_native sleep_code [] 3 None 0 []
              s (run s).2 Hnum Hrun) as (elapsed & _ & Hpos & _ & Hrep).
  exists elapsed. split.
  - rewrite Hrep. reflexivity.
  - rewrite Hpos by lia. vm_compute. reflexivity.
Defined.

(** ** What [exec] does with names and with the collector switch *)

Section ExecFacts.
Context {Lib : Type}.
Variable native :
  option string -> string -> list value -> process Lib -> result value * process Lib.

Lemma lookup_unbound (x : string) :
  is_builtin x = false -> lookup_name ∅ ∅ x = Raise (NameError x).
Proof.
  intros Hb. unfold lookup_name. rewrite !lookup_empty. now rewrite Hb.
Qed.

Lemma eval_first_load (e : expr) (x : string) (p : process Lib) :
  first_load_expr e = Some x -> is_builtin x = false ->
  eval native ∅ ∅ e p = (Raise (NameError x), p).
Proof.
  intros Hfirst Hb. revert Hfirst.
  induction e as [y|z|q|e IH a|f IH args _|a IHa b _]; cbn [first_load_expr eval];
    intros Hfirst; try discriminate.
  - injection Hfirst as ->. now rewrite lookup_unbound.
  - now rewrite (IH Hfirst).
  - now rewrite (IH Hfirst).
  - now rewrite (IHa Hfirst).
Qed.

(** A program that starts by loading a name which is not a builtin raises
    [NameError] in empty namespaces, and leaves the process as it was. *)
Lemma exec_first_load (code : program) (x : string) (p : process Lib) :
  first_load code = Some x -> is_builtin x = false ->
  Py.exec native code ∅ ∅ p = (Raise (NameError x), p).
Proof.
  intros Hfirst Hb. unfold Py.exec, exec_stmts.
  destruct code as [|s rest]; [discriminate|].
  destruct s as [m|y e|y e|e|y it body|msg|]; cbn [first_load] in Hfirst;
    try discriminate; cbn [run_block exec_stmt].
  - now rewrite (eval_first_load e x p Hfirst Hb).
  - injection Hfirst as ->. now rewrite lookup_unbound.
  - now rewrite (eval_first_load e x p Hfirst Hb).
  - now rewrite (eval_first_load it x p Hfirst Hb).
Qed.

(** A property [G] of the collector switch that the libraries keep. *)
Variable G : bool -> Prop.
Hypothesis native_keeps :
  forall m f args p, G (gc_enabled p) -> G (gc_enabled (native m f args p).2).

Lemma call_keeps (f : value) (args : list value) (p : process Lib) :
  G (gc_enabled p) -> G (gc_enabled (call native f args p).2).
Proof.
  intros Hp. unfold call.
  repeat case_match; solve [exact Hp | now apply native_keeps].
Qed.

Lemma eval_args_keeps (ev : expr -> process Lib -> result value * process Lib)
      (es : list expr) :
  list_all expr (fun e => forall p, G (gc_enabled p) -> G (gc_enabled (ev e p).2)) es ->
  forall p, G (gc_enabled p) -> G (gc_enabled (eval_args ev es p).2).
Proof.
  induction 1 as [|e He es _ IH]; intros p Hp; cbn [eval_args]; [exact Hp|].
  specialize (He p Hp).
  destruct (ev e p) as [[v|ex] p1]; [|exact He].
  specialize (IH p1 He).
  destruct (eval_args ev es p1) as [[vs|ex] p2]; exact IH.
Qed.

Lemma eval_keeps (g l : gmap string value) (e : expr) :
  forall p, G (gc_enabled p) -> G (gc_enabled (eval native g l e p).2).
Proof.
  induction e as [y|z|q|e IH a|f IHf args IHargs|a IHa b IHb];
    intros p Hp; cbn [eval]; try exact Hp.
  - specialize (IH p Hp).
    destruct (eval native g l e p) as [[[]|ex] p1]; exact IH.
  - specialize (IHf p Hp).
    destruct (eval native g l f p) as [[fv|ex] p1]; [|exact IHf].
    pose proof (eval_args_keeps (eval native g l) args IHargs p1 IHf) as Hargs.
    destruct (eval_args (eval native g l) args p1) as [[vs|ex] p2]; [|exact Hargs].
    now apply call_keeps.
  - specialize (IHa p Hp).
    destruct (eval native g l a p) as [[va|ex] p1]; [|exact IHa].
    specialize (IHb p1 IHa).
    destruct (eval native g l b p1) as [[vb|ex] p2]; exact IHb.
Qed.

Lemma run_block_keeps (ex : stmt -> gmap string value -> process Lib -> @outcome Lib)
      (ss : list stmt) :
  list_all stmt (fun s => keeps_switch G (ex s)) ss -> keeps_switch G (run_block ex ss).
Proof.
  induction 1 as [|s Hs ss _ IH]; intros l p Hp; cbn [run_block]; [exact Hp|].
  specialize (Hs l p Hp).
  destruct (ex s l p) as [[[u|e] l1] p1]; [|exact Hs].
  now apply IH.
Qed.

Lemma iterate_keeps (body : gmap string value -> process Lib -> @outcome Lib)
      (x : string) (k : nat) :
  keeps_switch G body -> forall i, keeps_switch G (iterate body x k i).
Proof.
  intros Hbody. induction k as [|k IH]; intros i l p Hp; cbn [iterate]; [exact Hp|].
  specialize (Hbody (<[x := VInt i]> l) p Hp).
  destruct (body (<[x := VInt i]> l) p) as [[[u|e] l1] p1]; [|exact Hbody].
  now apply IH.
Qed.

Lemma exec_stmt_keeps (g : gmap string value) (s : stmt) : keeps_switch G (exec_stmt native g s).
Proof.
  induction s as [m|y e|y e|e|y it body IH|msg|]; intros l p Hp; cbn [exec_stmt];
    try exact Hp.
  - pose proof (eval_keeps g l e p Hp) as He.
    destruct (eval native g l e p) as [[v|ex] p1]; exact He.
  - destruct (lookup_name g l y) as [old|ex]; [|exact Hp].
    pose proof (eval_keeps g l e p Hp) as He.
    destruct (eval native g l e p) as [[v|ex] p1]; [|exact He].
    destruct (add_values old v); exact He.
  - pose proof (eval_keeps g l e p Hp) as He.
    destruct (eval native g l e p) as [[v|ex] p1]; exact He.
  - pose proof (eval_keeps g l it p Hp) as He.
    destruct (eval native g l it p) as [[[]|ex] p1]; try exact He.
    apply iterate_keeps; [|exact He].
    now apply run_block_keeps.
Qed.

Lemma exec_keeps (code : program) (g l : gmap string value) (p : process Lib) :
  G (gc_enabled p) -> G (gc_enabled (Py.exec native code g l p).2).
Proof.
  intros Hp. unfold Py.exec, exec_stmts.
  assert (H : keeps_switch G (run_block (exec_stmt native g) code)).
  { apply run_block_keeps. induction code; constructor; auto using exec_stmt_keeps. }
  specialize (H l p Hp).
  destruct (run_block (exec_stmt native g) code l p) as [[r l1] p1]. exact H.
Qed.

End ExecFacts.

(** ** What a method does to the collector switch and to the trace *)

Section Runs.
Context {Lib : Type}.
Variable G : bool -> Prop.
Variable P : exec_event -> Prop.

Lemma sound_same {A} (c : M Lib A) :
  (forall s, gc_enabled (proc (c s).2) = gc_enabled (proc s) /\ trace (c s).2 = trace s) ->
  @sound Lib _ G P c.
Proof.
  intros H s Hs. destruct (H s) as [Hgc Htr]. rewrite Hgc, Htr. split; [exact Hs|].
  exists []. split; [now rewrite app_nil_r | constructor].
Qed.

Lemma sound_ret {A} (a : A) : @sound Lib _ G P (mret a).
Proof. apply sound_same. intros s. split; reflexivity. Qed.

Lemma sound_gets {A} (f : state Lib -> A) : @sound Lib _ G P (gets f).
Proof. apply sound_same. intros s. split; reflexivity. Qed.

Lemma sound_lift {A} (r : result A) : @sound Lib _ G P (lift r).
Proof. apply sound_same. intros s. split; reflexivity. Qed.

Lemma sound_modify_self (f : CodeComparer -> CodeComparer) : @sound Lib _ G P (modify (with_self f)).
Proof. apply sound_same. intros s. split; reflexivity. Qed.

Lemma sound_print (line : string) : @sound Lib _ G P (print line).
Proof.
  apply sound_same. intros s. unfold print, modify, with_proc. cbn.
  destruct (sys_stdout (proc s)); split; reflexivity.
Qed.

Lemma sound_bind {A B} (c : M Lib A) (k : A -> M Lib B) :
  @sound Lib _ G P c -> (forall a, @sound Lib _ G P (k a)) -> @sound Lib _ G P (c ≫= k).
Proof.
  intros Hc Hk s Hs. unfold mbind, M_bind.
  destruct (Hc s Hs) as (Hg1 & evs1 & Ht1 & Hp1).
  destruct (c s) as [[a|e] s1]; cbn [snd] in *.
  - destruct (Hk a s1 Hg1) as (Hg2 & evs2 & Ht2 & Hp2).
    split; [exact Hg2|]. exists (evs1 ++ evs2)%list. split.
    + now rewrite Ht2, Ht1, app_assoc.
    + apply Forall_app. now split.
  - split; [exact Hg1|]. exists evs1. now split.
Qed.

Lemma sound_try_except {A} (body : M Lib A) (handler : exn -> M Lib A) :
  @sound Lib _ G P body -> (forall e, @sound Lib _ G P (handler e)) -> @sound Lib _ G P (try_except body handler).
Proof.
  intros Hb Hh s Hs. unfold try_except.
  destruct (Hb s Hs) as (Hg1 & evs1 & Ht1 & Hp1).
  destruct (body s) as [[a|e] s1]; cbn [snd] in *.
  - split; [exact Hg1|]. exists evs1. now split.
  - destruct (is_exception e); [|split; [exact Hg1|]; exists evs1; now split].
    destruct (Hh e s1 Hg1) as (Hg2 & evs2 & Ht2 & Hp2).
    split; [exact Hg2|]. exists (evs1 ++ evs2)%list. split.
    + now rewrite Ht2, Ht1, app_assoc.
    + apply Forall_app. now split.
Qed.

Lemma sound_for_from {A} (body : Z -> A -> M Lib A) (k : nat) :
  (forall i acc, @sound Lib _ G P (body i acc)) -> forall i acc, @sound Lib _ G P (for_from k i acc body).
Proof.
  intros Hbody. induction k as [|k IH]; intros i acc; cbn [for_from].
  - apply sound_ret.
  - apply sound_bind; [apply Hbody | intros acc'; apply IH].
Qed.

Lemma sound_for_range {A} (body : Z -> A -> M Lib A) (n : Z) (acc : A) :
  (forall i acc, @sound Lib _ G P (body i acc)) -> @sound Lib _ G P (for_range n acc body).
Proof. intros Hbody. now apply sound_for_from. Qed.

Lemma sound_suppress_output {A} (body : M Lib A) : @sound Lib _ G P body -> @sound Lib _ G P (suppress_output body).
Proof.
  intros Hb s Hs. unfold suppress_output.
  destruct (Hb (with_proc (set_streams DevNull DevNull) s) Hs) as (Hg1 & evs1 & Ht1 & Hp1).
  destruct (body (with_proc (set_streams DevNull DevNull) s)) as [r s1]; cbn [snd] in *.
  split; [exact Hg1|]. exists evs1. now split.
Qed.

Lemma sound_call_back (cb : @callback Lib) (rep : Z) (elapsed : Q) :
  (forall p, G (gc_enabled p) -> G (gc_enabled (cb rep elapsed p).2)) ->
  @sound Lib _ G P (call_back cb rep elapsed).
Proof.
  intros Hcb s Hs. unfold call_back. specialize (Hcb (proc s) Hs).
  destruct (cb rep elapsed (proc s)) as [r p1]; cbn [snd] in *.
  split; [exact Hcb|]. exists []. split; [now rewrite app_nil_r | constructor].
Qed.

Variable native :
  option string -> string -> list value -> process Lib -> result value * process Lib.
Hypothesis native_keeps :
  forall m f args p, G (gc_enabled p) -> G (gc_enabled (native m f args p).2).

Lemma sound_exec_at (site : call_site) (code : program) (g l : gmap string value) :
  (forall p, G (gc_enabled p) ->
     P {| ev_site := site; ev_code := code; ev_globals := g; ev_locals := l;
          ev_gc := gc_enabled p; ev_outcome := (Py.exec native code g l p).1 |}) ->
  @sound Lib _ G P (exec_at native site code g l).
Proof.
  intros Hev s Hs. unfold exec_at.
  pose proof (exec_keeps native G native_keeps code g l (proc s) Hs) as Hg.
  specialize (Hev (proc s) Hs).
  destruct (Py.exec native code g l (proc s)) as [r p1]; cbn [fst snd] in *.
  split; [exact Hg|]. eexists. split; [reflexivity|].
  constructor; [exact Hev | constructor].
Qed.

End Runs.

(** ** The timing run of one snippet *)

Section TimingRun.
Context {Lib : Type}.
Variable sqrt : Q -> Q.
Variable native :
  option string -> string -> list value -> process Lib -> result value * process Lib.
(** [Gout] holds of the switch around the run, [Gin] inside [gc_disabled]. *)
Variables Gout Gin : bool -> Prop.
Variable P : exec_event -> Prop.
Variables code_to_time setup_code : program.
Variable on_repeat_end : option (@callback Lib).

Hypothesis native_keeps_out :
  forall m f args p, Gout (gc_enabled p) -> Gout (gc_enabled (native m f args p).2).
Hypothesis native_keeps_in :
  forall m f args p, Gin (gc_enabled p) -> Gin (gc_enabled (native m f args p).2).
Hypothesis callback_keeps_in :
  forall cb rep elapsed p, on_repeat_end = Some cb ->
    Gin (gc_enabled p) -> Gin (gc_enabled (cb rep elapsed p).2).
Hypothesis enter : Gin false.
Hypothesis leave : forall b b', Gout b -> Gin b' -> Gout (if b then true else b').

Hypothesis warmup_setup_event : forall p, Gout (gc_enabled p) ->
  P (event WarmupSetup setup_code (gc_enabled p) (Py.exec native setup_code ∅ ∅ p).1).
Hypothesis warmup_snippet_event : forall p, Gout (gc_enabled p) ->
  P (event WarmupSnippet code_to_time (gc_enabled p) (Py.exec native code_to_time ∅ ∅ p).1).
Hypothesis timed_event : forall p, Gin (gc_enabled p) ->
  P (event TimedSnippet code_to_time (gc_enabled p) (Py.exec native code_to_time ∅ ∅ p).1).

Lemma sound_warmup (runs : Z) : sound Gout P (_warmup native code_to_time setup_code runs).
Proof.
  unfold _warmup. apply sound_for_range. intros _ _.
  apply sound_suppress_output, sound_bind.
  - apply sound_exec_at; [exact native_keeps_out | exact warmup_setup_event].
  - intros _. apply sound_exec_at; [exact native_keeps_out | exact warmup_snippet_event].
Qed.

Lemma sound_timed_repetition (number rep : Z) (times : list Q) :
  sound Gin P (timed_repetition native code_to_time setup_code number on_repeat_end rep times).
Proof.
  unfold timed_repetition.
  apply sound_bind; [apply sound_gets | intros seed].
  apply sound_bind; [apply sound_ret | intros _].
  apply sound_bind; [apply sound_gets | intros start].
  apply sound_bind.
  { apply sound_suppress_output, sound_for_range. intros _ _.
    apply sound_exec_at; [exact native_keeps_in | exact timed_event]. }
  intros _.
  apply sound_bind; [apply sound_gets | intros end_].
  apply sound_bind; [apply sound_lift | intros elapsed].
  apply sound_bind; [|intros _; apply sound_ret].
  destruct on_repeat_end as [cb|] eqn:Ecb; [|apply sound_ret].
  apply sound_call_back. intros p. now apply callback_keeps_in.
Qed.

Lemma sound_gc_disabled {A} (body : M Lib A) :
  sound Gin P body -> sound Gout P (gc_disabled body).
Proof.
  intros Hb s Hs. unfold gc_disabled.
  destruct (Hb (with_proc (set_gc false) s) enter) as (Hg1 & evs1 & Ht1 & Hp1).
  destruct (body (with_proc (set_gc false) s)) as [r s1]; cbn [snd] in *.
  split.
  - pose proof (leave _ _ Hs Hg1) as Hl.
    destruct (gc_enabled (proc s)); [exact Hl | exact Hl].
  - exists evs1. split; [|exact Hp1].
    destruct (gc_enabled (proc s)); exact Ht1.
Qed.

Lemma sound_time_single_snippet (snippet_name : string) (repeat number warmup_runs : Z) :
  sound Gout P
    (_time_single_snippet sqrt native snippet_name code_to_time setup_code
       repeat number warmup_runs on_repeat_end).
Proof.
  unfold _time_single_snippet.
  apply sound_bind; [apply sound_print | intros _].
  apply sound_bind; [apply sound_warmup | intros _].
  apply sound_try_except.
  - apply sound_bind.
    { apply sound_gc_disabled, sound_for_range. intros rep times.
      apply sound_timed_repetition. }
    intros times.
    apply sound_bind.
    { destruct (contains "1" snippet_name); apply sound_modify_self. }
    intros _.
    apply sound_bind; [apply sound_lift | intros mean_time].
    apply sound_bind; [apply sound_lift | intros stdev_time].
    apply sound_ret.
  - intros e. repeat (apply sound_bind; [apply sound_print | intros _]).
    apply sound_ret.
Qed.

End TimingRun.

(** ** C1: the seed of a repetition *)

(** C1: every program that a timing run hands to [exec] is either the
    setup code as it was passed in, run in warm-up, or the snippet.  The
    text [local_setup], which carries [fixed_seed + rep], is built in each
    repetition and never executed; no setup code at all runs inside the
    measured loop. *)
Theorem C1_seeded_setup_never_executed {Lib : Type} (sqrt : Q -> Q)
    (native : option string -> string -> list value -> process Lib
              -> result value * process Lib)
    (snippet_name : string) (code_to_time setup_code : program)
    (repeat number warmup_runs : Z) (on_repeat_end : option (@callback Lib))
    (s : state Lib) :
  exists evs,
    trace (_time_single_snippet sqrt native snippet_name code_to_time setup_code
             repeat number warmup_runs on_repeat_end s).2 = (trace s ++ evs)%list /\
    Forall (fun ev =>
              (ev_site ev = WarmupSetup /\ ev_code ev = setup_code) \/
              (ev_site ev = WarmupSnippet /\ ev_code ev = code_to_time) \/
              (ev_site ev = TimedSnippet /\ ev_code ev = code_to_time)) evs.
Proof.
  refine (proj2 (sound_time_single_snippet sqrt native (fun _ => True) (fun _ => True) _
                   code_to_time setup_code on_repeat_end _ _ _ _ _ _ _ _
                   snippet_name repeat number warmup_runs s I)); auto.
Qed.

(** C1 on a run of three repetitions of two executions after one warm-up:
    the seeds 42, 43, 44 reach nothing; [exec] sees the setup once and the
    snippet seven times. *)
Lemma C1_three_repetitions :
  let c := init (FileRead "a.py" [SPass]) NoPath None in
  map (fun ev => (ev_site ev, ev_code ev))
      (trace (_time_single_snippet approx_sqrt sleepy_native "Snippet 1" (code_1 c)
                (setup_code c) 3 2 1 None (start_state c)).2)
  = (WarmupSetup, [SImport "random"; seed_stmt 42; SImport "time"; SImport "random"])
      :: replicate 1 (WarmupSnippet, [SPass]) ++ replicate 6 (TimedSnippet, [SPass]).
Proof. vm_compute. reflexivity. Qed.

(** ** C2: the namespaces of [exec] *)




(** ** C7: the collector switch *)

(** C7, snippets that turn the switch themselves.  [gc.disable()] in the
    warm-up, which runs before [gc_disabled] is entered, leaves the
    collector off after a run that found it on; [gc.enable()] in a run that
    found the collector off leaves it on, and all executions of the
    measured loop but the first see the collector on. *)
Lemma C7_switch_turned_by_snippet :
  let off := init (FileRead "off.py" switch_off) NoPath None in
  let on := init (FileRead "on.py" switch_on) NoPath None in
  let started_off := with_proc (set_gc false) (start_state on) in
  let run_on := _time_single_snippet approx_sqrt gc_native "Snippet 1" (code_1 on)
                  (setup_code on) 3 2 0 None started_off in
  (~ collector_claim (start_state off) (time_first gc_native off 3 2 1 None).2 /\
   gc_enabled (proc (start_state off)) = true /\
   gc_enabled (proc (time_first gc_native off 3 2 1 None).2) = false) /\
  (~ collector_claim started_off run_on.2 /\
   gc_enabled (proc started_off) = false /\
   gc_enabled (proc run_on.2) = true /\
   map (fun ev => (ev_site ev, ev_gc ev)) (trace run_on.2)
   = (TimedSnippet, false) :: replicate 5 (TimedSnippet, true)).
Proof.
  intros off on started_off run_on. split.
  - split; [|split; vm_compute; reflexivity].
    intros [H _]. vm_compute in H. discriminate.
  - split; [|repeat split; vm_compute; reflexivity].
    intros [H _]. vm_compute in H. discriminate.
Qed.

(** C7, as the code behaves: as long as neither the libraries called by
    the snippet nor the progress callback turn the collector switch
    themselves, a timing run leaves the switch as it found it, whether the
    run returns or a snippet raises, and every execution inside the
    measured loop happens with the collector off. *)
Theorem C7_collector_state_restored {Lib : Type} (sqrt : Q -> Q)
    (native : option string -> string -> list value -> process Lib
              -> result value * process Lib)
    (snippet_name : string) (code_to_time setup_code : program)
    (repeat number warmup_runs : Z) (on_repeat_end : option (@callback Lib))
    (s : state Lib) :
  (forall m f args p, gc_enabled (native m f args p).2 = gc_enabled p) ->
  (forall cb rep elapsed p, on_repeat_end = Some cb ->
     gc_enabled (cb rep elapsed p).2 = gc_enabled p) ->
  let s' := (_time_single_snippet sqrt native snippet_name code_to_time setup_code
               repeat number warmup_runs on_repeat_end s).2 in
  gc_enabled (proc s') = gc_enabled (proc s) /\
  exists evs,
    trace s' = (trace s ++ evs)%list /\
    Forall (fun ev => ev_site ev <> TimedSnippet \/ ev_gc ev = false) evs.
Proof.
  intros Hnative Hcb s'. subst s'.
  destruct (sound_time_single_snippet sqrt native
              (fun b => b = gc_enabled (proc s)) (fun b => b = false)
              (fun ev => ev_site ev <> TimedSnippet \/ ev_gc ev = false)
              code_to_time setup_code on_repeat_end) with
    (snippet_name := snippet_name) (repeat := repeat) (number := number)
    (warmup_runs := warmup_runs) (s := s) as (Hgc & Hevs).
  - intros m f args p Hp. now rewrite Hnative.
  - intros m f args p Hp. now rewrite Hnative.
  - intros cb rep elapsed p Hsome Hp. now rewrite (Hcb cb rep elapsed p Hsome).
  - reflexivity.
  - intros b b' -> ->. now destruct (gc_enabled (proc s)).
  - intros p _. left. discriminate.
  - intros p _. left. discriminate.
  - intros p Hp. right. exact Hp.
  - reflexivity.
  - split; [exact Hgc | exact Hevs].
Qed.

Lemma sleepy_native_keeps_switch m f args (p : process ()) :
  gc_enabled (sleepy_native m f args p).2 = gc_enabled p.
Proof. unfold sleepy_native. repeat case_match; reflexivity. Qed.

Lemma C7_collector_state_restored_witness :
  let c := init (FileRead "a.py" [SRaise "boom"]) NoPath None in
  let run := _time_single_snippet approx_sqrt sleepy_native "Snippet 1" (code_1 c)
               (setup_code c) 3 2 0 None (start_state c) in
  run.1 = Ok None /\
  gc_enabled (proc run.2) = true /\
  map (fun ev => (ev_site ev, ev_gc ev, ev_outcome ev)) (trace run.2)
  = [ (TimedSnippet, false, Raise (RaisedException "boom")) ].
Proof.
  intros c run.
  assert (Hcb : forall (cb : @callback ()) rep elapsed p,
             @None (@callback ()) = Some cb ->
             gc_enabled (cb rep elapsed p).2 = gc_enabled p) by discriminate.
  destruct (C7_collector_state_restored approx_sqrt sleepy_native "Snippet 1" (code_1 c)
              (setup_code c) 3 2 0 None (start_state c)
              sleepy_native_keeps_switch Hcb) as (Hgc & _).
  split; [vm_compute; reflexivity|].
  split; [exact Hgc|].
  vm_compute. reflexivity.
Defined.

(** ** C3: a snippet that raises *)

(** Out of the box: the comparison of the two built-in snippets, with the
    default five warm-up runs, ends in the [NameError] of the first one. *)
Lemma default_comparison_raises :
  (run_compare 20000 3 5 (start_state default_comparer)).1 = Raise (NameError "random").
Proof. vm_compute. reflexivity. Qed.

(** C3: with the default five warm-up runs the fault of the snippet leaves
    [compare_execution] as the raised exception itself, and nothing naming
    the snippet is printed; with no warm-up the fault is caught and
    reported, the second snippet is timed all the same, and the comparison
    then ends in a [StatisticsError] raised by the mean of an empty list;
    and after an earlier run on the same comparer the measurements of that
    run are still there, so that a verdict comes back although Snippet 1
    has just raised. *)
Theorem C3_fault_not_turned_into_failure :
  let s0 := start_state faulty_comparer in
  let stale := (run_compare 1 0 0 s0).2 in
  ((run_compare 3 1 5 s0).1 = Raise (RaisedException "boom") /\
   console (proc (run_compare 3 1 5 s0).2) =
     [ "--- Starting Code Comparison ---";
       "Repetitions: 3, Executions per repetition: 1";
       "Warm-up runs: 5";
       "Random seed fixed for determinism: 42";
       "Timing Snippet 1 (3 repetitions)..." ]) /\
  ((run_compare 3 1 0 s0).1 =
     Raise (StatisticsError "mean requires at least one data point") /\
   console (proc (run_compare 3 1 0 s0).2) =
     [ "--- Starting Code Comparison ---";
       "Repetitions: 3, Executions per repetition: 1";
       "Warm-up runs: 0";
       "Random seed fixed for determinism: 42";
       "Timing Snippet 1 (3 repetitions)...";
       "--- ERROR during timing ---";
       "An error occurred while executing Snippet 1:";
       "Error details: boom";
       "Check setup code and snippet syntax/logic.";
       "---------------------------";
       "Timing Snippet 2 (3 repetitions)..." ] /\
   measurements_2 (self (run_compare 3 1 0 s0).2) = [0%Q; 0%Q; 0%Q]) /\
  (measurements_1 (self stale) = [0%Q] /\
   (exists res,
      (run_compare 1 1 0 stale).1 = Ok res /\
      s_count (stats1 res) = 1 /\
      relative_performance res =
        {| faster := Snippet2; slower := Snippet1; ratio := PosInf; percent := 0 |}) /\
   map (fun ev => (ev_code ev, ev_outcome ev))
       (skipn (length (trace stale)) (trace (run_compare 1 1 0 stale).2))
   = [ ([SRaise "boom"], Raise (RaisedException "boom")); ([SPass], Ok ()) ]).
Proof.
  intros s0 stale. split; [|split].
  - split; vm_compute; reflexivity.
  - repeat split; vm_compute; reflexivity.
  - split; [vm_compute; reflexivity|]. split.
    + eexists. split; [vm_compute; reflexivity|]. split; reflexivity.
    + vm_compute. reflexivity.
Qed.


(** * Further properties of the code *)

(** ** [utils.py]: the two context managers *)

(** Whatever the body does, and whether it returns or raises,
    [suppress_output] runs it with both standard streams on the null
    device and leaves both streams exactly as they were on entry. *)
Lemma suppress_output_restores_streams {Lib A : Type} (body : M Lib A)
    (s : state Lib) :
  let inside := with_proc (set_streams DevNull DevNull) s in
  let s' := (suppress_output body s).2 in
  sys_stdout (proc inside) = DevNull /\ sys_stderr (proc inside) = DevNull /\
  (suppress_output body s).1 = (body inside).1 /\
  sys_stdout (proc s') = sys_stdout (proc s) /\
  sys_stderr (proc s') = sys_stderr (proc s).
Proof.
  unfold suppress_output. cbv zeta.
  destruct (body (with_proc (set_streams DevNull DevNull) s)) as [r s1].
  repeat split; reflexivity.
Qed.

(** [gc_disabled] runs its body with the collector off.  If the
    collector was on at entry it is on at exit, whatever the body did to
    the switch and whether it returned or raised; if it was off at entry
    nothing is restored, the switch is left as the body left it. *)
Lemma gc_disabled_switch {Lib A : Type} (body : M Lib A) (s : state Lib) :
  let inside := with_proc (set_gc false) s in
  let s' := (gc_disabled body s).2 in
  gc_enabled (proc inside) = false /\
  (gc_disabled body s).1 = (body inside).1 /\
  gc_enabled (proc s') =
    (if gc_enabled (proc s) then true else gc_enabled (proc (body inside).2)).
Proof.
  unfold gc_disabled. cbv zeta.
  destruct (body (with_proc (set_gc false) s)) as [r s1].
  split; [reflexivity|]. split; [reflexivity|].
  cbn [snd]. destruct (gc_enabled (proc s)); reflexivity.
Qed.

(** ** Observations that the methods keep *)

Section Keeps.
Context {Lib X : Type}.
Variable f : state Lib -> X.

Lemma keeps_ret {A} (a : A) : keeps f (mret a : M Lib A).
Proof. intros s. reflexivity. Qed.

Lemma keeps_gets {A} (g : state Lib -> A) : keeps f (gets g).
Proof. intros s. reflexivity. Qed.

Lemma keeps_lift {A} (r : result A) : keeps f (lift r : M Lib A).
Proof. intros s. reflexivity. Qed.

Lemma keeps_modify (h : state Lib -> state Lib) :
  (forall s, f (h s) = f s) -> keeps f (modify h).
Proof. intros Hh s. apply Hh. Qed.

Lemma keeps_bind {A B} (c : M Lib A) (k : A -> M Lib B) :
  keeps f c -> (forall a, keeps f (k a)) -> keeps f (c ≫= k).
Proof.
  intros Hc Hk s. unfold mbind, M_bind. specialize (Hc s).
  destruct (c s) as [[a|e] s1]; cbn [snd] in *; [|exact Hc].
  now rewrite (Hk a s1).
Qed.

Lemma keeps_try_except {A} (body : M Lib A) (handler : exn -> M Lib A) :
  keeps f body -> (forall e, keeps f (handler e)) -> keeps f (try_except body handler).
Proof.
  intros Hb Hh s. unfold try_except. specialize (Hb s).
  destruct (body s) as [[a|e] s1]; cbn [snd] in *; [exact Hb|].
  destruct (is_exception e); [|exact Hb].
  now rewrite (Hh e s1).
Qed.

Lemma keeps_for_from {A} (body : Z -> A -> M Lib A) (k : nat) :
  (forall i acc, keeps f (body i acc)) -> forall i acc, keeps f (for_from k i acc body).
Proof.
  intros Hbody. induction k as [|k IH]; intros i acc; cbn [for_from].
  - apply keeps_ret.
  - apply keeps_bind; [apply Hbody | intros acc'; apply IH].
Qed.

Lemma keeps_for_range {A} (body : Z -> A -> M Lib A) (n : Z) (acc : A) :
  (forall i acc, keeps f (body i acc)) -> keeps f (for_range n acc body).
Proof. intros Hbody. now apply keeps_for_from. Qed.

End Keeps.

(** The streams: [suppress_output] puts them back whatever ran inside. *)
Section KeepsStreams.
Context {Lib : Type}.

Lemma streams_print (line : string) : keeps (@streams Lib) (print line).
Proof.
  intros s. unfold print, modify, streams, with_proc. cbn.
  destruct (sys_stdout (proc s)) eqn:E; cbn; rewrite ?E; reflexivity.
Qed.

Lemma streams_suppress_output {A} (body : M Lib A) :
  keeps (@streams Lib) (suppress_output body).
Proof.
  intros s. unfold streams.
  destruct (suppress_output_restores_streams body s) as (_ & _ & _ & Hout & Herr).
  now rewrite Hout, Herr.
Qed.

Lemma streams_gc_disabled {A} (body : M Lib A) :
  keeps (@streams Lib) body -> keeps (@streams Lib) (gc_disabled body).
Proof.
  intros Hb s. unfold gc_disabled. specialize (Hb (with_proc (set_gc false) s)).
  destruct (body (with_proc (set_gc false) s)) as [r s1]; cbn [snd] in *.
  destruct (gc_enabled (proc s)); exact Hb.
Qed.

Lemma streams_modify_self (h : CodeComparer -> CodeComparer) :
  keeps (@streams Lib) (modify (with_self h)).
Proof. intros s. reflexivity. Qed.

End KeepsStreams.

(** The attributes of the comparer: only [modify] touches them. *)
Section KeepsSelf.
Context {Lib X : Type}.
Variable g : CodeComparer -> X.
Let f (s : state Lib) : X := g (self s).

Lemma self_print (line : string) : keeps f (print line).
Proof. intros s. reflexivity. Qed.

Lemma self_exec_at native (site : call_site) (code : program)
      (globals locals : gmap string value) :
  keeps f (exec_at native site code globals locals).
Proof.
  intros s. unfold exec_at.
  destruct (Py.exec native code globals locals (proc s)) as [r p1]. reflexivity.
Qed.

Lemma self_call_back (cb : @callback Lib) (rep : Z) (elapsed : Q) :
  keeps f (call_back cb rep elapsed).
Proof.
  intros s. unfold call_back. destruct (cb rep elapsed (proc s)) as [r p1]. reflexivity.
Qed.

Lemma self_suppress_output {A} (body : M Lib A) :
  keeps f body -> keeps f (suppress_output body).
Proof.
  intros Hb s. unfold suppress_output.
  specialize (Hb (with_proc (set_streams DevNull DevNull) s)).
  destruct (body (with_proc (set_streams DevNull DevNull) s)) as [r s1]. exact Hb.
Qed.

Lemma self_gc_disabled {A} (body : M Lib A) :
  keeps f body -> keeps f (gc_disabled body).
Proof.
  intros Hb s. unfold gc_disabled. specialize (Hb (with_proc (set_gc false) s)).
  destruct (body (with_proc (set_gc false) s)) as [r s1]; cbn [snd] in *.
  destruct (gc_enabled (proc s)); exact Hb.
Qed.

Lemma self_warmup native (code setup : program) (runs : Z) :
  keeps f (_warmup native code setup runs).
Proof.
  unfold _warmup. apply keeps_for_range. intros _ _.
  apply self_suppress_output, keeps_bind; [|intros _]; apply self_exec_at.
Qed.

Lemma self_timed_repetition native (code setup : program) (number : Z)
      (on_repeat_end : option (@callback Lib)) (rep : Z) (times : list Q) :
  keeps f (timed_repetition native code setup number on_repeat_end rep times).
Proof.
  unfold timed_repetition.
  apply keeps_bind; [apply keeps_gets | intros seed].
  apply keeps_bind; [apply keeps_ret | intros _].
  apply keeps_bind; [apply keeps_gets | intros start].
  apply keeps_bind.
  { apply self_suppress_output, keeps_for_range. intros _ _. apply self_exec_at. }
  intros _.
  apply keeps_bind; [apply keeps_gets | intros end_].
  apply keeps_bind; [apply keeps_lift | intros elapsed].
  apply keeps_bind; [|intros _; apply keeps_ret].
  destruct on_repeat_end as [cb|]; [apply self_call_back | apply keeps_ret].
Qed.

Lemma self_measured_loop native (code setup : program) (repeat number : Z)
      (on_repeat_end : option (@callback Lib)) :
  keeps f (gc_disabled (for_range repeat [] (timed_repetition native code setup number
                                                on_repeat_end))).
Proof.
  apply self_gc_disabled, keeps_for_range. intros rep times. apply self_timed_repetition.
Qed.

End KeepsSelf.

(** ** Running a method step by step *)

Lemma M_bind_ok {Lib A B} (c : M Lib A) (k : A -> M Lib B) (s s2 : state Lib) (b : B) :
  (c ≫= k) s = (Ok b, s2) ->
  exists a s1, c s = (Ok a, s1) /\ k a s1 = (Ok b, s2).
Proof.
  unfold mbind, M_bind. destruct (c s) as [[a|e] s1]; [|discriminate].
  intros H. now exists a, s1.
Qed.

(** A loop that returns has kept every invariant that its rounds keep. *)
Lemma for_from_invariant {Lib A} (I : nat -> A -> state Lib -> Prop)
      (body : Z -> A -> M Lib A) :
  (forall j i a s a' s', I j a s -> body i a s = (Ok a', s') -> I (S j) a' s') ->
  forall k j i acc s acc' s',
    I j acc s -> for_from k i acc body s = (Ok acc', s') -> I (k + j)%nat acc' s'.
Proof.
  intros Hstep. induction k as [|k IH]; intros j i acc s acc' s' HI Hrun.
  - cbn in Hrun. injection Hrun as <- <-. exact HI.
  - cbn [for_from] in Hrun. apply M_bind_ok in Hrun as (a & s1 & Hbody & Hrest).
    replace (S k + j)%nat with (k + S j)%nat by lia.
    eapply IH; [|exact Hrest]. eapply Hstep; eassumption.
Qed.

Lemma for_range_invariant {Lib A} (I : nat -> A -> state Lib -> Prop)
      (body : Z -> A -> M Lib A) (n : Z) (acc acc' : A) (s s' : state Lib) :
  (forall j i a s a' s', I j a s -> body i a s = (Ok a', s') -> I (S j) a' s') ->
  I O acc s -> for_range n acc body s = (Ok acc', s') -> I (Z.to_nat n) acc' s'.
Proof.
  intros Hstep HI Hrun. unfold for_range in Hrun.
  replace (Z.to_nat n) with (Z.to_nat n + 0)%nat by lia.
  eapply for_from_invariant; eassumption.
Qed.

(** A loop of no round does nothing. *)
Lemma for_range_none {Lib A} (body : Z -> A -> M Lib A) (n : Z) (acc : A) (s : state Lib) :
  n <= 0 -> for_range n acc body s = (Ok acc, s).
Proof.
  intros Hn. unfold for_range. replace (Z.to_nat n) with O by lia. reflexivity.
Qed.

Lemma executed_refl {Lib} (s : state Lib) : executed s s [].
Proof. exists []. rewrite app_nil_r. repeat split. constructor. Qed.

Lemma executed_trans {Lib} (s0 s1 s2 : state Lib) (l1 l2 : list call_site) :
  executed s0 s1 l1 -> executed s1 s2 l2 -> executed s0 s2 (l1 ++ l2)%list.
Proof.
  intros (e1 & H1 & M1 & F1) (e2 & H2 & M2 & F2).
  exists (e1 ++ e2)%list. rewrite H2, H1, app_assoc, map_app, M1, M2.
  repeat split. apply Forall_app. now split.
Qed.

Lemma executed_same_trace {Lib} (s0 s1 s2 : state Lib) (l : list call_site) :
  trace s2 = trace s1 -> executed s0 s1 l -> executed s0 s2 l.
Proof. intros Ht (e1 & H1 & M1 & F1). exists e1. now rewrite Ht. Qed.

Lemma exec_at_ok {Lib} native (site : call_site) (code : program)
      (g l : gmap string value) (s s' : state Lib) :
  exec_at native site code g l s = (Ok (), s') ->
  executed s s' [site] /\ self s' = self s.
Proof.
  unfold exec_at. destruct (Py.exec native code g l (proc s)) as [r p1].
  intros [= -> <-]. split; [|reflexivity].
  eexists. split; [reflexivity|]. split; [reflexivity|].
  constructor; [reflexivity | constructor].
Qed.

Lemma suppress_output_ok {Lib A} (body : M Lib A) (s s' : state Lib) (a : A) :
  suppress_output body s = (Ok a, s') ->
  exists s1, body (with_proc (set_streams DevNull DevNull) s) = (Ok a, s1) /\
             trace s' = trace s1 /\ self s' = self s1.
Proof.
  unfold suppress_output.
  destruct (body (with_proc (set_streams DevNull DevNull) s)) as [r s1].
  intros [= -> <-]. now exists s1.
Qed.

Lemma concat_replicate_end {A} (l : list A) (j : nat) :
  (concat (replicate j l) ++ l)%list = concat (replicate (S j) l).
Proof.
  induction j as [|j IH]; cbn [replicate concat].
  - now rewrite app_nil_r.
  - cbn [replicate concat] in IH. now rewrite <- app_assoc, IH.
Qed.

Lemma replicate_end {A} (x : A) (j k : nat) :
  (replicate j x ++ replicate k x)%list = replicate (k + j) x.
Proof.
  induction j as [|j IH]; cbn [replicate app].
  - now rewrite Nat.add_0_r.
  - rewrite IH. now replace (k + S j)%nat with (S (k + j)) by lia.
Qed.

Section RunsThatReturn.
Context {Lib : Type}.
Variable native :
  option string -> string -> list value -> process Lib -> result value * process Lib.

(** A warm-up that returns has executed setup and snippet in turn, [runs]
    times over. *)
Lemma warmup_ok (code setup : program) (runs : Z) (s s' : state Lib) :
  _warmup native code setup runs s = (Ok (), s') ->
  executed s s' (concat (replicate (Z.to_nat runs) [WarmupSetup; WarmupSnippet])).
Proof.
  unfold _warmup. intros Hrun.
  apply (for_range_invariant
           (fun j _ st => executed s st (concat (replicate j [WarmupSetup; WarmupSnippet]))))
    in Hrun; [exact Hrun | | apply executed_refl].
  clear. intros j _ [] s1 [] s2 HI Hbody.
  apply suppress_output_ok in Hbody as (s3 & Hbody & Htrace & _).
  apply M_bind_ok in Hbody as ([] & s4 & Hsetup & Hcode).
  apply exec_at_ok in Hsetup as [Hsetup _]. apply exec_at_ok in Hcode as [Hcode _].
  rewrite <- concat_replicate_end.
  apply (executed_same_trace _ s3); [exact Htrace|].
  eapply executed_trans; [exact HI|].
  exact (executed_trans _ _ _ _ _ Hsetup Hcode).
Qed.

(** The executions of one repetition. *)
Lemma timed_executions_ok (code : program) (number : Z) (s s' : state Lib) :
  suppress_output
    (for_range number () (fun _ _ => exec_at native TimedSnippet code ∅ ∅)) s
    = (Ok (), s') ->
  executed s s' (replicate (Z.to_nat number) TimedSnippet) /\ self s' = self s.
Proof.
  intros Hrun. apply suppress_output_ok in Hrun as (s1 & Hrun & Htrace & Hself).
  apply (for_range_invariant
           (fun j _ st => executed s st (replicate j TimedSnippet) /\ self st = self s))
    in Hrun.
  - destruct Hrun as [Hex Hs]. split; [|congruence].
    now apply (executed_same_trace _ s1).
  - clear. intros j _ [] s1 [] s2 [HI Hs] Hbody.
    apply exec_at_ok in Hbody as [Hbody Hs2]. split; [|congruence].
    replace (S j) with (1 + j)%nat by lia. rewrite <- replicate_end.
    exact (executed_trans _ _ _ _ _ HI Hbody).
  - split; [exact (executed_refl s) | reflexivity].
Qed.

(** A repetition that returns has run the snippet [number] times and has
    appended one sample, which is 0 when [number] is not positive. *)
Lemma timed_repetition_ok (code setup : program) (number : Z)
      (on_repeat_end : option (@callback Lib)) (rep : Z) (times times' : list Q)
      (s s' : state Lib) :
  timed_repetition native code setup number on_repeat_end rep times s = (Ok times', s') ->
  exists elapsed,
    times' = (times ++ [elapsed])%list /\
    executed s s' (replicate (Z.to_nat number) TimedSnippet) /\
    self s' = self s /\
    (number <= 0 -> elapsed = 0%Q).
Proof.
  unfold timed_repetition. intros Hrun.
  apply M_bind_ok in Hrun as (seed & s1 & Hseed & Hrun). injection Hseed as _ <-.
  apply M_bind_ok in Hrun as ([] & s1 & Hreset & Hrun). injection Hreset as <-.
  apply M_bind_ok in Hrun as (start & s1 & Hstart & Hrun). injection Hstart as _ <-.
  apply M_bind_ok in Hrun as ([] & s1 & Hexec & Hrun).
  apply timed_executions_ok in Hexec as [Hexec Hself].
  apply M_bind_ok in Hrun as (end_ & s2 & Hend & Hrun). injection Hend as _ <-.
  apply M_bind_ok in Hrun as (elapsed & s2 & Hel & Hrun).
  unfold lift in Hel. injection Hel as Hel <-.
  apply M_bind_ok in Hrun as ([] & s2 & Hcb & Hrun). injection Hrun as <- <-.
  exists elapsed. split; [reflexivity|].
  assert (Hcb' : trace s2 = trace s1 /\ self s2 = self s1).
  { destruct on_repeat_end as [cb|].
    - unfold call_back in Hcb. destruct (cb rep elapsed (proc s1)) as [r p1].
      injection Hcb as _ <-. split; reflexivity.
    - injection Hcb as <-. split; reflexivity. }
  destruct Hcb' as [Htrace Hself2].
  split; [now apply (executed_same_trace _ s1)|]. split; [congruence|].
  intros Hnum. destruct (elapsed_time_total start end_ number) as (e & He & _ & Hzero).
  rewrite He in Hel. injection Hel as <-. now apply Hzero.
Qed.

(** A measured loop that returns has run [repeat] repetitions. *)
Lemma measured_loop_ok (code setup : program) (repeat number : Z)
      (on_repeat_end : option (@callback Lib)) (times : list Q) (s s' : state Lib) :
  gc_disabled (for_range repeat [] (timed_repetition native code setup number
                                       on_repeat_end)) s = (Ok times, s') ->
  length times = Z.to_nat repeat /\
  executed s s' (replicate (Z.to_nat number * Z.to_nat repeat) TimedSnippet) /\
  self s' = self s /\
  (number <= 0 -> times = replicate (Z.to_nat repeat) 0%Q).
Proof.
  unfold gc_disabled.
  destruct (for_range repeat [] (timed_repetition native code setup number on_repeat_end)
              (with_proc (set_gc false) s)) as [r s1] eqn:Hloop.
  intros [= -> Hs'].
  apply (for_range_invariant
           (fun j acc st =>
              length acc = j /\
              executed s st (replicate (Z.to_nat number * j) TimedSnippet) /\
              self st = self s /\
              (number <= 0 -> acc = replicate j 0%Q))) in Hloop.
  - destruct Hloop as (Hlen & Hex & Hself & Hzero).
    assert (Hsame : trace s' = trace s1 /\ self s' = self s1)
      by (subst s'; destruct (gc_enabled (proc s)); split; reflexivity).
    destruct Hsame as [Ht Hs]. split; [exact Hlen|].
    split; [now apply (executed_same_trace _ s1)|]. split; [congruence | exact Hzero].
  - clear. intros j i a s1 a' s2 (Hlen & Hex & Hself & Hzero) Hbody.
    apply timed_repetition_ok in Hbody as (elapsed & -> & Hrep & Hself2 & Hel).
    split; [rewrite length_app; cbn; lia|].
    split.
    { replace (Z.to_nat number * S j)%nat with (Z.to_nat number + Z.to_nat number * j)%nat
        by lia.
      rewrite <- replicate_end. exact (executed_trans _ _ _ _ _ Hex Hrep). }
    split; [congruence|].
    intros Hnum. rewrite (Hzero Hnum), (Hel Hnum).
    replace (S j) with (1 + j)%nat by lia. now rewrite <- replicate_end.
  - split; [reflexivity|]. split; [|split; [reflexivity | reflexivity]].
    rewrite Nat.mul_0_r. exact (executed_refl s).
Qed.

End RunsThatReturn.

Lemma M_bind_run {Lib A B} (c : M Lib A) (k : A -> M Lib B) (s : state Lib) :
  (c ≫= k) s = match c s with
               | (Ok a, s1) => k a s1
               | (Raise e, s1) => (Raise e, s1)
               end.
Proof. reflexivity. Qed.

Lemma print_run {Lib} (line : string) (s : state Lib) :
  exists s1, print line s = (Ok (), s1) /\ trace s1 = trace s /\ self s1 = self s /\
             gc_enabled (proc s1) = gc_enabled (proc s).
Proof.
  eexists. split; [reflexivity|]. unfold with_proc. cbn.
  destruct (sys_stdout (proc s)); repeat split; reflexivity.
Qed.

Lemma stdev_guarded_ok (sqrt : Q -> Q) (times : list Q) :
  exists sd, (if 1 <? len times then statistics.stdev sqrt times else Ok 0%Q) = Ok sd.
Proof.
  destruct (Z.ltb_spec 1 (len times)) as [H|H]; [|eauto].
  unfold statistics.stdev.
  destruct (Z.ltb_spec (len times) 2) as [?|_]; [lia | eauto].
Qed.

Section TimingRunFacts.
Context {Lib : Type}.
Variable sqrt : Q -> Q.
Variable native :
  option string -> string -> list value -> process Lib -> result value * process Lib.

(** How a timing run ends: as its warm-up raised; or, the measured loop
    having returned its samples, with a result that is a pair exactly when
    their mean exists; or, the loop having raised, with no result when the
    exception is an [Exception], and as the loop raised when it is not. *)
Lemma tss_split (snippet_name : string) (code setup : program)
      (repeat number warmup_runs : Z) (on_repeat_end : option (@callback Lib))
      (s : state Lib) :
  exists line s0,
    print line s = (Ok (), s0) /\
    match _warmup native code setup warmup_runs s0 with
    | (Raise e, s1) =>
        _time_single_snippet sqrt native snippet_name code setup repeat number
          warmup_runs on_repeat_end s = (Raise e, s1)
    | (Ok _, s1) =>
        match gc_disabled (for_range repeat [] (timed_repetition native code setup
                                                  number on_repeat_end)) s1 with
        | (Ok times, s2) =>
            exists r s',
              _time_single_snippet sqrt native snippet_name code setup repeat number
                warmup_runs on_repeat_end s = (Ok r, s') /\
              trace s' = trace s2 /\
              self s' = (if contains "1" snippet_name
                         then set_measurements_1 times
                         else set_measurements_2 times) (self s2) /\
              (forall m sd, r = Some (m, sd) ->
                 s' = with_self (if contains "1" snippet_name
                                 then set_measurements_1 times
                                 else set_measurements_2 times) s2 /\
                 statistics.mean times = Ok m /\
                 (if 1 <? len times then statistics.stdev sqrt times else Ok 0%Q)
                 = Ok sd) /\
              (forall m sd,
                 statistics.mean times = Ok m ->
                 (if 1 <? len times then statistics.stdev sqrt times else Ok 0%Q)
                 = Ok sd ->
                 r = Some (m, sd))
        | (Raise e, s2) =>
            if is_exception e
            then exists s',
                   _time_single_snippet sqrt native snippet_name code setup repeat
                     number warmup_runs on_repeat_end s = (Ok None, s') /\
                   trace s' = trace s2 /\ self s' = self s2
            else _time_single_snippet sqrt native snippet_name code setup repeat
                   number warmup_runs on_repeat_end s = (Raise e, s2)
        end
    end.
Proof.
  set (line := "Timing " ++ snippet_name ++ " (" ++ pretty repeat ++ " repetitions)...").
  exists line, (print line s).2. split; [reflexivity|].
  unfold _time_single_snippet. fold line. rewrite M_bind_run.
  change (print line s) with (Ok (), (print line s).2).
  cbv iota beta. rewrite M_bind_run.
  destruct (_warmup native code setup warmup_runs _) as [[[]|e] s1]; [|reflexivity].
  unfold try_except. rewrite M_bind_run.
  destruct (gc_disabled _ s1) as [[times|e] s2] eqn:Hloop.
  - rewrite M_bind_run.
    assert (Hmod : exists s3,
               (if contains "1" snippet_name
                then modify (with_self (set_measurements_1 times))
                else modify (with_self (set_measurements_2 times))) s2 = (Ok (), s3) /\
               s3 = with_self (if contains "1" snippet_name
                               then set_measurements_1 times
                               else set_measurements_2 times) s2).
    { destruct (contains "1" snippet_name); eexists; split; reflexivity. }
    destruct Hmod as (s3 & -> & Hs3). rewrite M_bind_run. unfold lift at 1.
    destruct (statistics.mean times) as [m|e] eqn:Hmean.
    + rewrite M_bind_run. unfold lift at 1.
      destruct (stdev_guarded_ok sqrt times) as (sd & Hsd). rewrite Hsd.
      eexists. eexists. split; [reflexivity|]. subst s3.
      split; [reflexivity|]. split; [reflexivity|]. split.
      * intros m' sd' [= <- <-]. auto.
      * intros m' sd' [= <-] [= <-]. reflexivity.
    + assert (He : is_exception e = true).
      { destruct times; [injection Hmean as <-; reflexivity | discriminate]. }
      cbv iota beta. rewrite He.
      eexists. eexists. split; [reflexivity|]. subst s3.
      split; [reflexivity|]. split; [reflexivity|]. split; [discriminate|].
      intros m' sd'. discriminate.
  - destruct (is_exception e).
    + eexists. split; [reflexivity|]. split; reflexivity.
    + reflexivity.
Qed.

(** A warm-up that raises: the last call of [exec] is the one that raised. *)
Lemma warmup_raise (code setup : program) (runs : Z) (e : exn) (s s' : state Lib) :
  _warmup native code setup runs s = (Raise e, s') ->
  0 < runs /\
  exists evs ev,
    trace s' = (trace s ++ evs ++ [ev])%list /\
    ev_site ev <> TimedSnippet /\ ev_outcome ev = Raise e.
Proof.
  unfold _warmup, for_range. intros Hrun.
  split; [destruct (Z.to_nat runs) eqn:E; [discriminate | lia]|].
  revert s Hrun. generalize 0 at 1. induction (Z.to_nat runs) as [|k IH]; intros i s Hrun.
  - discriminate.
  - cbn [for_from] in Hrun. rewrite M_bind_run in Hrun.
    destruct (suppress_output _ s) as [[[]|e1] s1] eqn:Hbody.
    + destruct (sound_suppress_output (fun _ => True) (fun _ => True)
                  (exec_at native WarmupSetup setup ∅ ∅ ;;
                   exec_at native WarmupSnippet code ∅ ∅)) with (s := s)
        as (_ & evs1 & Ht1 & _); [|exact I|].
      { apply sound_bind; [|intros _]; apply sound_exec_at; auto. }
      rewrite Hbody in Ht1. cbn [snd] in Ht1.
      destruct (IH _ _ Hrun) as (evs & ev & Ht & Hsite & Hout).
      exists (evs1 ++ evs)%list, ev. rewrite Ht, Ht1, <- !app_assoc. auto.
    + injection Hrun as <- <-. revert Hbody.
      unfold suppress_output. rewrite M_bind_run. unfold exec_at.
      destruct (Py.exec native setup ∅ ∅ _) as [[[]|e2] p1].
      * cbn [proc]. destruct (Py.exec native code ∅ ∅ p1) as [[[]|e3] p2];
          [discriminate|].
        intros [= <- <-]. eexists [_], _. cbn [trace with_proc].
        split; [now rewrite <- app_assoc|]. split; [discriminate | reflexivity].
      * intros [= <- <-]. exists [].
        eexists. cbn [trace with_proc app].
        split; [reflexivity|]. split; [discriminate | reflexivity].
Qed.

End TimingRunFacts.

(** ** [_time_single_snippet]: what comes back, and what it leaves behind *)


Lemma tss_returns_pair {Lib : Type} (sqrt : Q -> Q)
    (native : option string -> string -> list value -> process Lib
              -> result value * process Lib)
    (snippet_name : string) (code setup : program)
    (repeat number warmup_runs : Z) (on_repeat_end : option (@callback Lib))
    (s s' : state Lib) (m sd : Q) :
  _time_single_snippet sqrt native snippet_name code setup repeat number warmup_runs
    on_repeat_end s = (Ok (Some (m, sd)), s') ->
  exists s1 s2 times,
    executed s s1 (concat (replicate (Z.to_nat warmup_runs) [WarmupSetup; WarmupSnippet])) /\
    self s1 = self s /\
    executed s1 s2 (replicate (Z.to_nat number * Z.to_nat repeat) TimedSnippet) /\
    self s2 = self s1 /\
    length times = Z.to_nat repeat /\
    (number <= 0 -> times = replicate (Z.to_nat repeat) 0%Q) /\
    s' = with_self (if contains "1" snippet_name
                    then set_measurements_1 times
                    else set_measurements_2 times) s2 /\
    statistics.mean times = Ok m /\
    (if 1 <? len times then statistics.stdev sqrt times else Ok 0%Q) = Ok sd.
Proof.
  intros Hrun.
  destruct (tss_split sqrt native snippet_name code setup repeat number warmup_runs
              on_repeat_end s) as (line & s0 & Hprint & Hsplit).
  destruct (print_run line s) as (s0' & Hprint' & Htrace & Hself & _).
  assert (s0' = s0) by congruence. subst s0'.
  destruct (_warmup native code setup warmup_runs s0) as [[[]|e] s1] eqn:Hw;
    [|congruence].
  destruct (gc_disabled _ s1) as [[times|e] s2] eqn:Hloop.
  2:{ destruct (is_exception e); [destruct Hsplit as (s'' & Hrun' & _)|]; congruence. }
  destruct Hsplit as (r & s'' & Hrun' & _ & _ & Hpair & _).
  rewrite Hrun in Hrun'. injection Hrun' as <- <-.
  destruct (Hpair m sd eq_refl) as (Hs' & Hmean & Hsd).
  pose proof (self_warmup (fun c => c) native code setup warmup_runs s0) as Hself1.
  rewrite Hw in Hself1. cbn [snd] in Hself1.
  apply warmup_ok in Hw. apply measured_loop_ok in Hloop as (Hlen & Hex & Hself2 & Hzero).
  exists s1, s2, times. repeat split; try assumption; try congruence.
  destruct Hw as (evs & Ht & Hm & Hf). exists evs. now rewrite Ht, Htrace.
Qed.

(** X2: when a timing run returns a mean and a deviation, at least one
    repetition was asked for, the series stored under the snippet's name
    has exactly [repeat] samples, the mean returned is the mean of that
    series, and the series of the other snippet and the configuration of
    the comparer are untouched.  The series goes to [measurements_1]
    exactly when the name contains the character 1. *)
Theorem X2_series_of_a_returned_run {Lib : Type} (sqrt : Q -> Q)
    (native : option string -> string -> list value -> process Lib
              -> result value * process Lib)
    (snippet_name : string) (code_to_time setup_code : program)
    (repeat number warmup_runs : Z) (on_repeat_end : option (@callback Lib))
    (s s' : state Lib) (m sd : Q) :
  _time_single_snippet sqrt native snippet_name code_to_time setup_code repeat number
    warmup_runs on_repeat_end s = (Ok (Some (m, sd)), s') ->
  1 <= repeat /\
  len (series_of snippet_name (self s')) = repeat /\
  statistics.mean (series_of snippet_name (self s')) = Ok m /\
  (if 1 <? repeat
   then statistics.stdev sqrt (series_of snippet_name (self s')) = Ok sd
   else sd = 0%Q) /\
  other_series snippet_name (self s') = other_series snippet_name (self s) /\
  configuration (self s') = configuration (self s).
Proof.
  intros Hrun.
  apply tss_returns_pair in Hrun
    as (s1 & s2 & times & _ & Hs1 & _ & Hs2 & Hlen & _ & -> & Hmean & Hsd).
  assert (Hne : times <> []) by (intros ->; discriminate).
  assert (Hrep : 1 <= repeat) by (destruct times; [congruence | cbn in Hlen; lia]).
  assert (Hl : len times = repeat) by (unfold len; lia).
  assert (Hseries : series_of snippet_name
                      (self (with_self (if contains "1" snippet_name
                                        then set_measurements_1 times
                                        else set_measurements_2 times) s2)) = times)
    by (unfold series_of; destruct (contains "1" snippet_name); reflexivity).
  rewrite Hseries, Hl. rewrite Hl in Hsd.
  split; [exact Hrep|]. split; [reflexivity|]. split; [exact Hmean|].
  split; [destruct (1 <? repeat); congruence|].
  rewrite <- Hs1, <- Hs2.
  unfold other_series, configuration.
  destruct (contains "1" snippet_name); split; reflexivity.
Qed.

(** X3: a timing run that returns a mean and a deviation has executed the
    setup [warmup_runs] times, each time followed by the snippet, and then
    the snippet alone [repeat * number] times; every one of these
    executions returned. *)
Theorem X3_executions_of_a_returned_run {Lib : Type} (sqrt : Q -> Q)
    (native : option string -> string -> list value -> process Lib
              -> result value * process Lib)
    (snippet_name : string) (code_to_time setup_code : program)
    (repeat number warmup_runs : Z) (on_repeat_end : option (@callback Lib))
    (s s' : state Lib) (m sd : Q) :
  _time_single_snippet sqrt native snippet_name code_to_time setup_code repeat number
    warmup_runs on_repeat_end s = (Ok (Some (m, sd)), s') ->
  executed s s'
    (concat (replicate (Z.to_nat warmup_runs) [WarmupSetup; WarmupSnippet])
     ++ replicate (Z.to_nat number * Z.to_nat repeat) TimedSnippet)%list.
Proof.
  intros Hrun.
  apply tss_returns_pair in Hrun
    as (s1 & s2 & times & Hw & _ & Hloop & _ & _ & _ & -> & _).
  apply (executed_same_trace _ s2); [reflexivity|].
  exact (executed_trans _ _ _ _ _ Hw Hloop).
Qed.

Lemma warmup_none {Lib} native (code setup : program) (runs : Z) (s : state Lib) :
  runs <= 0 -> _warmup native code setup runs s = (Ok (), s).
Proof. intros H. unfold _warmup. now apply for_range_none. Qed.

Lemma measured_loop_none {Lib A} (body : Z -> list A -> M Lib (list A)) (repeat : Z)
      (s : state Lib) :
  repeat <= 0 ->
  gc_disabled (for_range repeat [] body) s =
    (Ok [], if gc_enabled (proc s)
            then with_proc (set_gc true) (with_proc (set_gc false) s)
            else with_proc (set_gc false) s).
Proof. intros H. unfold gc_disabled. now rewrite for_range_none. Qed.

(** X4: asked for no repetition (and no warm-up), a timing run executes
    nothing, yet reports a timing error: of the six texts it prints, the
    fourth says that the mean needs at least one data point.  It returns no
    result and leaves the snippet's series empty, whatever was stored there
    before. *)
Theorem X4_no_repetition {Lib : Type} (sqrt : Q -> Q)
    (native : option string -> string -> list value -> process Lib
              -> result value * process Lib)
    (snippet_name : string) (code_to_time setup_code : program)
    (repeat number warmup_runs : Z) (on_repeat_end : option (@callback Lib))
    (s : state Lib) :
  repeat <= 0 -> warmup_runs <= 0 ->
  let run := _time_single_snippet sqrt native snippet_name code_to_time setup_code
               repeat number warmup_runs on_repeat_end s in
  run.1 = Ok None /\
  trace run.2 = trace s /\
  series_of snippet_name (self run.2) = [] /\
  other_series snippet_name (self run.2) = other_series snippet_name (self s) /\
  (sys_stdout (proc s) = Console ->
   exists announce banner subject advice rule,
     console (proc run.2) =
       (console (proc s) ++
        [ announce; banner; subject;
          "Error details: mean requires at least one data point";
          advice; rule ])%list).
Proof.
  intros Hrep Hwarm run. subst run.
  set (line := "Timing " ++ snippet_name ++ " (" ++ pretty repeat ++ " repetitions)...").
  unfold _time_single_snippet. fold line. rewrite M_bind_run.
  change (print line s) with (Ok (), (print line s).2). cbv iota beta.
  rewrite M_bind_run, warmup_none by exact Hwarm.
  cbv iota beta. unfold try_except.
  rewrite M_bind_run, measured_loop_none by exact Hrep.
  cbv iota beta. rewrite M_bind_run.
  unfold series_of, other_series. subst line.
  destruct s as [c [gc out err clk con lb] tr].
  destruct (contains "1" snippet_name), gc, out;
    unfold mbind, M_bind, lift, modify, print, mret, M_ret; cbn;
    repeat split; try reflexivity; try discriminate;
    intros _; do 5 eexists; rewrite <- ?app_assoc; reflexivity.
Qed.

(** The trace: only [exec_at] writes it. *)
Section KeepsTrace.
Context {Lib : Type}.

Lemma trace_print (line : string) : keeps (@trace Lib) (print line).
Proof. intros s. reflexivity. Qed.

Lemma trace_call_back (cb : @callback Lib) (rep : Z) (elapsed : Q) :
  keeps (@trace Lib) (call_back cb rep elapsed).
Proof.
  intros s. unfold call_back. destruct (cb rep elapsed (proc s)) as [r p1]. reflexivity.
Qed.

Lemma trace_gc_disabled {A} (body : M Lib A) :
  keeps (@trace Lib) body -> keeps (@trace Lib) (gc_disabled body).
Proof.
  intros Hb s. unfold gc_disabled. specialize (Hb (with_proc (set_gc false) s)).
  destruct (body (with_proc (set_gc false) s)) as [r s1]; cbn [snd] in *.
  destruct (gc_enabled (proc s)); exact Hb.
Qed.

Lemma trace_no_execution native (code setup : program) (number : Z)
      (on_repeat_end : option (@callback Lib)) (rep : Z) (times : list Q) :
  number <= 0 ->
  keeps (@trace Lib) (timed_repetition native code setup number on_repeat_end rep times).
Proof.
  intros Hnum. unfold timed_repetition.
  apply keeps_bind; [apply keeps_gets | intros seed].
  apply keeps_bind; [apply keeps_ret | intros _].
  apply keeps_bind; [apply keeps_gets | intros start].
  apply keeps_bind.
  { intros s. unfold suppress_output. now rewrite for_range_none. }
  intros _.
  apply keeps_bind; [apply keeps_gets | intros end_].
  apply keeps_bind; [apply keeps_lift | intros elapsed].
  apply keeps_bind; [|intros _; apply keeps_ret].
  destruct on_repeat_end as [cb|]; [apply trace_call_back | apply keeps_ret].
Qed.

End KeepsTrace.

Lemma fsum_replicate_zero (n : nat) : (fsum (replicate n 0%Q) == 0)%Q.
Proof.
  induction n as [|n IH]; cbn [replicate fsum fold_right]; [reflexivity|].
  fold (fsum (replicate n 0%Q)). rewrite IH. reflexivity.
Qed.

(** Without executions and without callback a repetition appends 0. *)
Lemma timed_repetition_idle {Lib} native (code setup : program) (number rep : Z)
      (times : list Q) (s : state Lib) :
  number <= 0 ->
  (timed_repetition native code setup number None rep times s).1
  = Ok (times ++ [0%Q])%list.
Proof.
  intros Hnum. unfold timed_repetition.
  rewrite M_bind_run. unfold gets at 1. cbv iota beta.
  rewrite M_bind_run. unfold _reset_state at 1, mret at 1, M_ret at 1. cbv iota beta.
  rewrite M_bind_run. unfold perf_counter at 1, gets at 1. cbv iota beta.
  rewrite M_bind_run. unfold suppress_output. rewrite for_range_none by exact Hnum.
  cbv iota beta.
  rewrite M_bind_run. unfold perf_counter at 1, gets at 1. cbv iota beta.
  rewrite M_bind_run. unfold lift at 1.
  destruct (elapsed_time_total (clock (proc s))
              (clock (proc (with_proc (set_streams (sys_stdout (proc s))
                                         (sys_stderr (proc s)))
                              (with_proc (set_streams DevNull DevNull) s)))) number)
    as (e & He & _ & Hzero).
  rewrite He. cbv iota beta. rewrite (Hzero Hnum). reflexivity.
Qed.

Lemma for_from_result {Lib A} (body : Z -> A -> M Lib A) (h : A -> A) (k : nat) :
  (forall i acc s, (body i acc s).1 = Ok (h acc)) ->
  forall i acc s, (for_from k i acc body s).1 = Ok (Nat.iter k h acc).
Proof.
  intros Hbody. induction k as [|k IH]; intros i acc s; cbn [for_from]; [reflexivity|].
  rewrite M_bind_run. specialize (Hbody i acc s).
  destruct (body i acc s) as [[a|e] s1]; cbn [fst] in Hbody; [|discriminate].
  injection Hbody as ->. rewrite IH. now rewrite Nat.iter_succ_r.
Qed.

Lemma iter_append_zero (k : nat) (acc : list Q) :
  Nat.iter k (fun l => (l ++ [0%Q])%list) acc = (acc ++ replicate k 0%Q)%list.
Proof.
  revert acc. induction k as [|k IH]; intros acc.
  - cbn. now rewrite app_nil_r.
  - rewrite Nat.iter_succ_r, IH. cbn [replicate]. now rewrite <- app_assoc.
Qed.

(** X5: asked for no execution per repetition (and no warm-up), a timing
    run never calls [exec]; when it returns a mean, the series stored is
    [repeat] zeros and the mean is 0; and it does return one as soon as one
    repetition is asked for and no callback is given. *)
Theorem X5_no_execution {Lib : Type} (sqrt : Q -> Q)
    (native : option string -> string -> list value -> process Lib
              -> result value * process Lib)
    (snippet_name : string) (code_to_time setup_code : program)
    (repeat number warmup_runs : Z) (on_repeat_end : option (@callback Lib))
    (s : state Lib) :
  number <= 0 -> warmup_runs <= 0 ->
  let run := _time_single_snippet sqrt native snippet_name code_to_time setup_code
               repeat number warmup_runs on_repeat_end s in
  trace run.2 = trace s /\
  (forall m sd, run.1 = Ok (Some (m, sd)) ->
     series_of snippet_name (self run.2) = replicate (Z.to_nat repeat) 0%Q /\
     (m == 0)%Q) /\
  (on_repeat_end = None -> 1 <= repeat -> exists m sd, run.1 = Ok (Some (m, sd))).
Proof.
  intros Hnum Hwarm run. subst run. split; [|split].
  - assert (H : keeps (@trace Lib)
                  (_time_single_snippet sqrt native snippet_name code_to_time setup_code
                     repeat number warmup_runs on_repeat_end)); [|apply H].
    unfold _time_single_snippet.
    apply keeps_bind; [apply trace_print | intros _].
    apply keeps_bind; [intros s0; now rewrite warmup_none | intros _].
    apply keeps_try_except.
    + apply keeps_bind.
      { apply trace_gc_disabled, keeps_for_range. intros rep times.
        now apply trace_no_execution. }
      intros times. apply keeps_bind.
      { destruct (contains "1" snippet_name); intros s0; reflexivity. }
      intros _. apply keeps_bind; [apply keeps_lift | intros m].
      apply keeps_bind; [apply keeps_lift | intros sd]. apply keeps_ret.
    + intros e. repeat (apply keeps_bind; [apply trace_print | intros _]).
      apply keeps_ret.
  - intros m sd Hrun.
    destruct (_time_single_snippet sqrt native snippet_name code_to_time setup_code
                repeat number warmup_runs on_repeat_end s) as [r s'] eqn:E.
    cbn [fst snd] in *. subst r.
    apply tss_returns_pair in E
      as (s1 & s2 & times & _ & _ & _ & _ & _ & Hzero & -> & Hmean & _).
    rewrite (Hzero Hnum) in *.
    split; [unfold series_of; destruct (contains "1" snippet_name); reflexivity|].
    destruct (Z.to_nat repeat) as [|r]; [discriminate|].
    injection Hmean as <-. rewrite fsum_replicate_zero. reflexivity.
  - intros -> Hrep.
    destruct (tss_split sqrt native snippet_name code_to_time setup_code repeat number
                warmup_runs None s) as (line & s0 & _ & Hsplit).
    rewrite warmup_none in Hsplit by exact Hwarm.
    destruct (gc_disabled (for_range repeat [] (timed_repetition native code_to_time
                                                   setup_code number None)) s0)
      as [rl s2] eqn:Hloop.
    assert (Hrl : rl = Ok (replicate (Z.to_nat repeat) 0%Q)).
    { pose proof (f_equal fst Hloop) as H1. cbn [fst] in H1. rewrite <- H1.
      unfold gc_disabled, for_range.
      pose proof (for_from_result
                    (timed_repetition native code_to_time setup_code number None)
                    (fun l => (l ++ [0%Q])%list) (Z.to_nat repeat)
                    (fun i acc st => timed_repetition_idle native code_to_time setup_code
                                       number i acc st Hnum)
                    0 [] (with_proc (set_gc false) s0)) as H2.
      rewrite iter_append_zero in H2. cbn [app] in H2.
      destruct (for_from _ _ _ _ _) as [r1 s3]. exact H2. }
    subst rl. destruct Hsplit as (r & s' & -> & _ & _ & _ & Hsome). cbn [fst].
    destruct (stdev_guarded_ok sqrt (replicate (Z.to_nat repeat) 0%Q)) as (sd & Hsd).
    assert (Hmean : exists m, statistics.mean (replicate (Z.to_nat repeat) 0%Q) = Ok m).
    { destruct (Z.to_nat repeat) as [|r'] eqn:E; [lia|]. cbn. eauto. }
    destruct Hmean as (m & Hmean).
    exists m, sd. f_equal. exact (Hsome _ _ Hmean Hsd).
Qed.

(** ** [_detailed_stats]: which series are described, and how *)

Lemma _detailed_stats_fields (sqrt : Q -> Q) (data : list Q) (st : DescriptiveStats) :
  _detailed_stats sqrt data = Ok st ->
  statistics.mean data = Ok (s_mean st) /\
  (if 1 <? len data then statistics.stdev sqrt data else Ok 0%Q) = Ok (s_stdev st) /\
  statistics.median data = Ok (s_median st) /\
  py_min data = Ok (s_min st) /\
  py_max data = Ok (s_max st) /\
  s_count st = len data.
Proof.
  unfold _detailed_stats.
  destruct (if 20 <=? len data then _ else _) as [pcs|]; rstep; [|discriminate].
  destruct (statistics.mean data) as [m|]; rstep; [|discriminate].
  destruct (if 1 <? len data then statistics.stdev sqrt data else Ok 0%Q) as [sd|];
    rstep; [|discriminate].
  destruct (statistics.median data) as [md|]; rstep; [|discriminate].
  destruct (py_index pcs 4) as [p4|]; rstep; [|discriminate].
  destruct (py_index pcs 94) as [p94|]; rstep; [|discriminate].
  destruct (py_min data) as [mn|]; rstep; [|discriminate].
  destruct (py_max data) as [mx|]; rstep; [|discriminate].
  intros [= <-]. cbn. repeat split; reflexivity.
Qed.

Lemma _detailed_stats_nonempty (sqrt : Q -> Q) (data : list Q) :
  data <> [] -> exists st, _detailed_stats sqrt data = Ok st.
Proof.
  intros Hne.
  destruct (Z_lt_ge_dec (len data) 20) as [Hsmall|Hlarge].
  - destruct (median_nonempty data Hne) as (med & Hmed).
    destruct (min_nonempty data Hne) as (mn & Hmn).
    destruct (max_nonempty data Hne) as (mx & Hmx).
    destruct (stdev_guarded_ok sqrt data) as (sd & Hsd).
    unfold _detailed_stats.
    destruct (Z.leb_spec 20 (len data)) as [?|_]; [lia|]. rstep.
    rewrite (mean_nonempty data Hne). rstep. rewrite Hsd. rstep. rewrite Hmed. rstep.
    change (py_index (replicate 99 (@None Q)) 4) with (Ok (@None Q)).
    change (py_index (replicate 99 (@None Q)) 94) with (Ok (@None Q)). rstep.
    rewrite Hmn. rstep. rewrite Hmx. rstep. eauto.
  - destruct (_detailed_stats_large sqrt data) as (_ & _ & _ & st & _ & _ & _ & Hst & _);
      [lia | eauto].
Qed.

Lemma QofZ_len_cons {A} (x : A) (l : list A) :
  (QofZ (len (x :: l)) == 1 + QofZ (len l))%Q.
Proof.
  unfold QofZ, len. cbn [length]. rewrite Nat2Z.inj_succ, <- Z.add_1_l.
  now rewrite inject_Z_plus.
Qed.

Lemma QofZ_len_pos {A} (l : list A) : l <> [] -> (0 < QofZ (len l))%Q.
Proof.
  intros Hne. unfold QofZ, len. change 0%Q with (inject_Z 0). rewrite <- Zlt_Qlt.
  destruct l; [congruence | cbn [length]; lia].
Qed.

Lemma fsum_lower (a : Q) (l : list Q) :
  (forall x, In x l -> (a <= x)%Q) -> (a * QofZ (len l) <= fsum l)%Q.
Proof.
  induction l as [|y ys IH]; intros Hall.
  - change (a * 0 <= 0)%Q. lra.
  - rewrite QofZ_len_cons. change (fsum (y :: ys)) with (y + fsum ys)%Q.
    pose proof (Hall y (or_introl eq_refl)).
    pose proof (IH (fun x Hx => Hall x (or_intror Hx))). lra.
Qed.

Lemma fsum_upper (b : Q) (l : list Q) :
  (forall x, In x l -> (x <= b)%Q) -> (fsum l <= b * QofZ (len l))%Q.
Proof.
  induction l as [|y ys IH]; intros Hall.
  - change (0 <= b * 0)%Q. lra.
  - rewrite QofZ_len_cons. change (fsum (y :: ys)) with (y + fsum ys)%Q.
    pose proof (Hall y (or_introl eq_refl)).
    pose proof (IH (fun x Hx => Hall x (or_intror Hx))). lra.
Qed.

Lemma py_min_In (data : list Q) (m : Q) : py_min data = Ok m -> In m data.
Proof.
  destruct data as [|y ys]; [discriminate|]. cbn [py_min]. intros [= <-].
  revert y. induction ys as [|z zs IH]; intros y; cbn [fold_left].
  - now left.
  - destruct (Qlt_b z y).
    + destruct (IH z) as [<-|H]; [right; now left | right; now right].
    + destruct (IH y) as [<-|H]; [now left | right; now right].
Qed.

Lemma py_max_In (data : list Q) (m : Q) : py_max data = Ok m -> In m data.
Proof.
  destruct data as [|y ys]; [discriminate|]. cbn [py_max]. intros [= <-].
  revert y. induction ys as [|z zs IH]; intros y; cbn [fold_left].
  - now left.
  - destruct (Qlt_b y z).
    + destruct (IH z) as [<-|H]; [right; now left | right; now right].
    + destruct (IH y) as [<-|H]; [now left | right; now right].
Qed.

(** The median sits between two samples. *)
Lemma median_samples (data : list Q) (med : Q) :
  statistics.median data = Ok med ->
  exists lo hi, In lo data /\ In hi data /\ (lo <= med <= hi)%Q.
Proof.
  intros Hmed. destruct (median_between data med Hmed) as (Hn & Hbounds).
  cbv zeta in Hn, Hbounds.
  exists (nth ((length (sorted data) - 1) / 2) (sorted data) 0%Q),
         (nth (length (sorted data) / 2) (sorted data) 0%Q).
  split; [|split; [|exact Hbounds]]; apply sorted_In, nth_In.
  - assert ((length (sorted data) - 1) / 2 <= length (sorted data) - 1)%nat
      by (apply Nat.Div0.div_le_upper_bound; lia).
    lia.
  - apply Nat.div_lt; lia.
Qed.

(** X6: [_detailed_stats] describes exactly the non-empty series.  The
    count it reports is the number of samples, the minimum and the maximum
    are samples, and both the mean and the median lie between them. *)
Theorem X6_described_series (sqrt : Q -> Q) (data : list Q) :
  ((exists st, _detailed_stats sqrt data = Ok st) <-> data <> []) /\
  forall st, _detailed_stats sqrt data = Ok st ->
    s_count st = len data /\ 1 <= s_count st /\
    In (s_min st) data /\ In (s_max st) data /\
    (s_min st <= s_mean st <= s_max st)%Q /\
    (s_min st <= s_median st <= s_max st)%Q.
Proof.
  split.
  - split; [|apply _detailed_stats_nonempty].
    intros (st & Hst) ->. discriminate.
  - intros st Hst.
    assert (Hne : data <> []) by (intros ->; discriminate).
    apply _detailed_stats_fields in Hst as (Hmean & _ & Hmed & Hmin & Hmax & Hcount).
    pose proof (py_min_lower data _ Hmin) as Hlo.
    pose proof (py_max_upper data _ Hmax) as Hhi.
    pose proof (QofZ_len_pos data Hne) as Hpos.
    split; [exact Hcount|].
    split; [rewrite Hcount; destruct data; [congruence | unfold len; cbn; lia]|].
    split; [now apply py_min_In|]. split; [now apply py_max_In|]. split.
    + rewrite (mean_nonempty data Hne) in Hmean. injection Hmean as Hmean.
      rewrite <- Hmean. split.
      * apply Qle_shift_div_l; [exact Hpos | now apply fsum_lower].
      * apply Qle_shift_div_r; [exact Hpos | now apply fsum_upper].
    + destruct (median_samples data _ Hmed) as (lo & hi & Hlo' & Hhi' & Hb).
      pose proof (Hlo lo Hlo'). pose proof (Hhi hi Hhi'). lra.
Qed.

(** ** [_detailed_stats]: the two percentile fields *)

(** X7: a percentile field is present only in a description of twenty
    samples or more; it is then the 5th (the 95th) of the 99 cut points
    that [statistics.quantiles] returns for the series, and it is not
    zero.  Below twenty samples both fields are absent. *)
Theorem X7_percentile_fields (sqrt : Q -> Q) (data : list Q) (st : DescriptiveStats) :
  _detailed_stats sqrt data = Ok st ->
  (len data < 20 -> s_percentile_5 st = None /\ s_percentile_95 st = None) /\
  (forall p, s_percentile_5 st = Some p ->
     20 <= s_count st /\ ~ (p == 0)%Q /\
     exists qs, statistics.quantiles data 100 = Ok qs /\ nth_error qs 4 = Some p) /\
  (forall p, s_percentile_95 st = Some p ->
     20 <= s_count st /\ ~ (p == 0)%Q /\
     exists qs, statistics.quantiles data 100 = Ok qs /\ nth_error qs 94 = Some p).
Proof.
  intros Hst.
  destruct (Z_lt_ge_dec (len data) 20) as [Hsmall|Hlarge].
  { destruct (_detailed_stats_small sqrt data st Hsmall Hst) as [E5 E95].
    rewrite E5, E95. repeat split; discriminate. }
  assert (Hlen : 20 <= len data) by lia.
  destruct (_detailed_stats_large sqrt data Hlen)
    as (qs & p4 & p94 & st' & Hqs & E4 & E94 & Hst' & Hcount & Hp5 & Hp95 & _).
  assert (st' = st) by congruence. subst st'.
  rewrite Hp5, Hp95, Hcount. split; [lia|]. split.
  - intros p. destruct (Qeq_bool p4 0) eqn:E; [discriminate|]. intros [= <-].
    split; [exact Hlen|]. split; [|eauto].
    intros Hz. apply Qeq_bool_iff in Hz. congruence.
  - intros p. destruct (Qeq_bool p94 0) eqn:E; [discriminate|]. intros [= <-].
    split; [exact Hlen|]. split; [|eauto].
    intros Hz. apply Qeq_bool_iff in Hz. congruence.
Qed.

(** ** [_confidence_interval]: the critical value and the interval *)

Lemma t_value_large (n : Z) : 30 < n -> t_value n = 1.96%Q.
Proof.
  intros Hn. unfold t_value. destruct (Z.ltb_spec 30 n) as [_|?]; [reflexivity | lia].
Qed.

Lemma t_value_middle (n : Z) : 10 < n <= 30 -> t_value n = 2.0%Q.
Proof.
  intros Hn. unfold t_value. destruct (Z.ltb_spec 30 n) as [?|_]; [lia|].
  now rewrite t_table_outside by lia.
Qed.

(** X8: from two samples on, the critical value never grows with the
    number of samples, and it stays between 1.96 and 12.71. *)
Theorem X8_critical_value_decreases (n m : Z) :
  2 <= n -> n <= m ->
  (t_value m <= t_value n)%Q /\ (1.96 <= t_value n <= 12.71)%Q.
Proof.
  intros Hn Hnm.
  destruct (Z_lt_ge_dec 30 n) as [Hbig|Hle30].
  { rewrite (t_value_large n), (t_value_large m) by lia.
    repeat split; vm_compute; discriminate. }
  destruct (Z_lt_ge_dec 10 n) as [Hmid|Hle10].
  { rewrite (t_value_middle n) by lia.
    destruct (Z_lt_ge_dec 30 m) as [Hmbig|Hmle30];
      [rewrite (t_value_large m) by lia | rewrite (t_value_middle m) by lia];
      repeat split; vm_compute; discriminate. }
  assert (Hcases : n = 2 \/ n = 3 \/ n = 4 \/ n = 5 \/ n = 6 \/ n = 7 \/
                   n = 8 \/ n = 9 \/ n = 10) by lia.
  destruct (Z_lt_ge_dec 30 m) as [Hmbig|Hmle30].
  { rewrite (t_value_large m) by lia.
    repeat (destruct Hcases as [->|Hcases]; [repeat split; vm_compute; discriminate|]).
    subst n. repeat split; vm_compute; discriminate. }
  destruct (Z_lt_ge_dec 10 m) as [Hmmid|Hmle10].
  { rewrite (t_value_middle m) by lia.
    repeat (destruct Hcases as [->|Hcases]; [repeat split; vm_compute; discriminate|]).
    subst n. repeat split; vm_compute; discriminate. }
  assert (Hm : m = 2 \/ m = 3 \/ m = 4 \/ m = 5 \/ m = 6 \/ m = 7 \/
               m = 8 \/ m = 9 \/ m = 10) by lia.
  repeat (destruct Hcases as [Hc|Hcases]);
    repeat (destruct Hm as [Hm'|Hm]); subst;
    try lia; repeat split; vm_compute; discriminate.
Qed.

Lemma t_value_pos (n : Z) : (0 < t_value n)%Q.
Proof.
  destruct (Z_lt_ge_dec 30 n) as [Hbig|Hle30];
    [rewrite t_value_large by lia; reflexivity|].
  destruct (Z_lt_ge_dec 10 n) as [Hmid|Hle10];
    [rewrite t_value_middle by lia; reflexivity|].
  destruct (Z_lt_ge_dec n 2) as [Hlow|Hge2].
  { unfold t_value. destruct (Z.ltb_spec 30 n) as [?|_]; [lia|].
    rewrite t_table_outside by lia. reflexivity. }
  assert (Hcases : n = 2 \/ n = 3 \/ n = 4 \/ n = 5 \/ n = 6 \/ n = 7 \/
                   n = 8 \/ n = 9 \/ n = 10) by lia.
  repeat (destruct Hcases as [->|Hcases]; [reflexivity|]).
  subst n. reflexivity.
Qed.

(** X9: [_confidence_interval] can only fail by dividing by a square root
    that is zero, which takes a series of two samples or more; and, the
    square root being non-negative, an interval returned for such a series
    is centred on the mean and contains it. *)
Theorem X9_interval_around_mean (sqrt : Q -> Q) (data : list Q) :
  (forall e, _confidence_interval sqrt data = Raise e ->
     e = ZeroDivisionError /\ 2 <= len data /\ (sqrt (QofZ (len data)) == 0)%Q) /\
  ((forall x, (0 <= sqrt x)%Q) ->
   forall lo hi, _confidence_interval sqrt data = Ok (lo, hi) -> 2 <= len data ->
     exists m, statistics.mean data = Ok m /\
       (lo <= m <= hi)%Q /\ (hi - m == m - lo)%Q).
Proof.
  destruct (Z_lt_ge_dec (len data) 2) as [Hsmall|Hlarge].
  { destruct (fewer_than_two_samples sqrt data Hsmall) as (Hci & _).
    rewrite Hci. split; [discriminate | intros; lia]. }
  assert (Hne : data <> []) by (apply len_nonempty; lia).
  assert (Hci : _confidence_interval sqrt data =
                (margin ← py_div (t_value (len data)
                                  * sqrt (statistics.ss data / QofZ (len data - 1)))%Q
                                 (sqrt (QofZ (len data)));
                 Ok (fsum data / QofZ (len data) - margin,
                     fsum data / QofZ (len data) + margin)%Q)).
  { unfold _confidence_interval.
    destruct data as [|x xs]; [congruence|]. cbn [py_not orb].
    destruct (Z.ltb_spec (len (x :: xs)) 2) as [?|_]; [lia|].
    rewrite (mean_nonempty (x :: xs) Hne). rstep. unfold statistics.stdev.
    destruct (Z.ltb_spec (len (x :: xs)) 2) as [?|_]; [lia|]. reflexivity. }
  rewrite Hci. unfold py_div.
  destruct (Qeq_bool (sqrt (QofZ (len data))) 0) eqn:E; rstep.
  - apply Qeq_bool_iff in E. split; [|discriminate].
    intros e [= <-]. repeat split; [lia | exact E].
  - split; [discriminate|]. intros Hsqrt lo hi [= <- <-] _.
    exists (fsum data / QofZ (len data))%Q. split; [now apply mean_nonempty|].
    assert (Hn : (0 < sqrt (QofZ (len data)))%Q).
    { pose proof (Hsqrt (QofZ (len data))) as H0.
      destruct (Qlt_le_dec 0 (sqrt (QofZ (len data)))) as [H|H]; [exact H|].
      assert (Hz : (sqrt (QofZ (len data)) == 0)%Q) by lra.
      apply Qeq_bool_iff in Hz. congruence. }
    assert (Hmargin : (0 <= t_value (len data)
                            * sqrt (statistics.ss data / QofZ (len data - 1))
                            / sqrt (QofZ (len data)))%Q).
    { apply Qle_shift_div_l; [exact Hn|]. rewrite Qmult_0_l.
      apply Qmult_le_0_compat; [apply Qlt_le_weak, t_value_pos | apply Hsqrt]. }
    split; [split; lra | ring].
Qed.

(** ** The ranking block: it always gives a verdict *)

Lemma guarded_ratio_ok (num den : Q) : exists r, guarded_ratio num den = Ok r.
Proof.
  unfold guarded_ratio. destruct (Qlt_b 0 den) eqn:E; [|eauto].
  apply Qlt_b_lt in E. rewrite (py_div_pos num den E). rstep. eauto.
Qed.

Lemma guarded_percent_ok (fast slow : Q) :
  exists p, guarded_percent fast slow = Ok p /\
            ((0 <= fast)%Q -> (fast <= slow)%Q -> (0 <= p <= 100)%Q).
Proof.
  unfold guarded_percent. destruct (Qlt_b 0 slow) eqn:E.
  - apply Qlt_b_lt in E. rewrite (py_div_pos fast slow E). rstep.
    eexists. split; [reflexivity|]. intros H0 Hle.
    assert (H1 : (0 <= fast / slow)%Q)
      by (apply Qle_shift_div_l; [exact E | lra]).
    assert (H2 : (fast / slow <= 1)%Q)
      by (apply Qle_shift_div_r; [exact E | lra]).
    split; lra.
  - exists 0%Q. split; [reflexivity|]. intros _ _. split; lra.
Qed.

(** X10: the ranking block never raises, whatever the two means, and the
    two labels it gives differ.  When the means differ, giving them in the
    other order only exchanges the labels: ratio and percentage are the
    same.  For non-negative means the percentage lies between 0 and 100. *)
Theorem X10_rank_gives_a_verdict (mean1 mean2 : Q) :
  (exists v, rank mean1 mean2 = Ok v /\ faster v <> slower v /\
     ((0 <= mean1)%Q -> (0 <= mean2)%Q -> (0 <= percent v <= 100)%Q)) /\
  ((mean1 < mean2)%Q ->
     exists r p,
       rank mean1 mean2 =
         Ok {| faster := Snippet1; slower := Snippet2; ratio := r; percent := p |} /\
       rank mean2 mean1 =
         Ok {| faster := Snippet2; slower := Snippet1; ratio := r; percent := p |}).
Proof.
  split.
  - unfold rank. destruct (Qlt_b mean1 mean2) eqn:E;
      [apply Qlt_b_lt in E | apply Qlt_b_ge in E].
    + destruct (guarded_ratio_ok mean2 mean1) as (r & ->).
      destruct (guarded_percent_ok mean1 mean2) as (p & -> & Hp). rstep.
      eexists. split; [reflexivity|]. split; [discriminate|].
      cbn [percent]. intros H1 _. apply Hp; lra.
    + destruct (guarded_ratio_ok mean1 mean2) as (r & ->).
      destruct (guarded_percent_ok mean2 mean1) as (p & -> & Hp). rstep.
      eexists. split; [reflexivity|]. split; [discriminate|].
      cbn [percent]. intros _ H2. apply Hp; lra.
  - intros Hlt. unfold rank.
    assert (E1 : Qlt_b mean1 mean2 = true) by now apply Qlt_b_lt.
    assert (E2 : Qlt_b mean2 mean1 = false) by (apply Qlt_b_ge; lra).
    rewrite E1, E2.
    destruct (guarded_ratio_ok mean2 mean1) as (r & ->).
    destruct (guarded_percent_ok mean1 mean2) as (p & -> & _). rstep.
    exists r, p. split; reflexivity.
Qed.

(** ** A timing run that fails *)

(** A loop that raises: its rounds returned up to the one that raised. *)
Lemma for_from_raise {Lib A} (R : state Lib -> state Lib -> Prop)
      (Q : exn -> state Lib -> state Lib -> Prop) (body : Z -> A -> M Lib A) :
  (forall s, R s s) ->
  (forall s1 s2 s3, R s1 s2 -> R s2 s3 -> R s1 s3) ->
  (forall i a s a' s', body i a s = (Ok a', s') -> R s s') ->
  (forall i a s e s', body i a s = (Raise e, s') -> Q e s s') ->
  forall k i acc s e s',
    for_from k i acc body s = (Raise e, s') -> exists s1, R s s1 /\ Q e s1 s'.
Proof.
  intros Hrefl Htrans Hok Hraise.
  induction k as [|k IH]; intros i acc s e s' Hrun; [discriminate|].
  cbn [for_from] in Hrun. rewrite M_bind_run in Hrun.
  destruct (body i acc s) as [[a|e1] s1] eqn:Hbody.
  - destruct (IH _ _ _ _ _ Hrun) as (s2 & HR & HQ).
    exists s2. split; [|exact HQ]. eapply Htrans; [|exact HR]. eapply Hok, Hbody.
  - injection Hrun as <- <-. exists s. split; [apply Hrefl | eapply Hraise, Hbody].
Qed.

Section RunsThatFail.
Context {Lib : Type}.
Variable native :
  option string -> string -> list value -> process Lib -> result value * process Lib.

Lemma timed_executions_raise (code : program) (number : Z) (e : exn) (s s' : state Lib) :
  suppress_output
    (for_range number () (fun _ _ => exec_at native TimedSnippet code ∅ ∅)) s
    = (Raise e, s') ->
  exists evs ev,
    trace s' = (trace s ++ evs ++ [ev])%list /\
    ev_site ev = TimedSnippet /\ ev_outcome ev = Raise e.
Proof.
  unfold suppress_output.
  destruct (for_range number () _ (with_proc (set_streams DevNull DevNull) s))
    as [r s1] eqn:Hloop.
  intros [= -> <-]. unfold for_range in Hloop.
  apply (for_from_raise
           (fun a b => exists evs, trace b = (trace a ++ evs)%list)
           (fun e a b => exists ev, trace b = (trace a ++ [ev])%list /\
                                    ev_site ev = TimedSnippet /\ ev_outcome ev = Raise e))
    in Hloop.
  - destruct Hloop as (s2 & (evs & Ht) & ev & Ht' & Hsite & Hout).
    exists evs, ev. cbn [trace with_proc] in *.
    rewrite Ht', Ht, <- app_assoc. auto.
  - intros a. exists []. now rewrite app_nil_r.
  - intros a b c (e1 & H1) (e2 & H2). exists (e1 ++ e2)%list.
    now rewrite H2, H1, app_assoc.
  - intros i [] a [] b Hbody. apply exec_at_ok in Hbody as [(evs & Ht & _) _]. eauto.
  - intros i [] a e1 b. unfold exec_at.
    destruct (Py.exec native code ∅ ∅ (proc a)) as [r p1]. intros [= -> <-].
    eexists. cbn [trace]. split; [reflexivity|]. split; reflexivity.
Qed.

Lemma timed_repetition_raise (code setup : program) (number rep : Z) (times : list Q)
      (e : exn) (s s' : state Lib) :
  timed_repetition native code setup number None rep times s = (Raise e, s') ->
  exists evs ev,
    trace s' = (trace s ++ evs ++ [ev])%list /\
    ev_site ev = TimedSnippet /\ ev_outcome ev = Raise e.
Proof.
  unfold timed_repetition.
  rewrite M_bind_run. unfold gets at 1. cbv iota beta.
  rewrite M_bind_run. unfold _reset_state at 1, mret at 1, M_ret at 1. cbv iota beta.
  rewrite M_bind_run. unfold perf_counter at 1, gets at 1. cbv iota beta.
  rewrite M_bind_run.
  destruct (suppress_output _ s) as [[[]|e1] s1] eqn:Hexec.
  - rewrite M_bind_run. unfold perf_counter at 1, gets at 1. cbv iota beta.
    rewrite M_bind_run. unfold lift at 1.
    destruct (elapsed_time_total (clock (proc s)) (clock (proc s1)) number)
      as (el & -> & _).
    discriminate.
  - intros [= <- <-]. now apply timed_executions_raise in Hexec.
Qed.

(** A measured loop without callback that raises: the last call of
    [exec], a timed one, is the one that raised. *)
Lemma measured_loop_raise (code setup : program) (repeat number : Z)
      (e : exn) (s s' : state Lib) :
  gc_disabled (for_range repeat [] (timed_repetition native code setup number None)) s
    = (Raise e, s') ->
  exists evs ev,
    trace s' = (trace s ++ evs ++ [ev])%list /\
    ev_site ev = TimedSnippet /\ ev_outcome ev = Raise e.
Proof.
  unfold gc_disabled.
  destruct (for_range repeat [] _ (with_proc (set_gc false) s)) as [r s1] eqn:Hloop.
  intros [= -> Hs']. unfold for_range in Hloop.
  apply (for_from_raise
           (fun a b => exists evs, trace b = (trace a ++ evs)%list)
           (fun e a b => exists evs ev, trace b = (trace a ++ evs ++ [ev])%list /\
                                        ev_site ev = TimedSnippet /\
                                        ev_outcome ev = Raise e))
    in Hloop.
  - destruct Hloop as (s2 & (evs & Ht) & evs' & ev & Ht' & Hsite & Hout).
    exists (evs ++ evs')%list, ev.
    assert (Hsame : trace s' = trace s1)
      by (subst s'; destruct (gc_enabled (proc s)); reflexivity).
    cbn [trace with_proc] in *. rewrite Hsame, Ht', Ht, <- !app_assoc. auto.
  - intros a. exists []. now rewrite app_nil_r.
  - intros a b c (e1 & H1) (e2 & H2). exists (e1 ++ e2)%list.
    now rewrite H2, H1, app_assoc.
  - intros i acc a acc' b Hbody.
    apply timed_repetition_ok in Hbody as (_ & _ & (evs & Ht & _) & _). eauto.
  - intros i acc a e1 b Hbody. now apply timed_repetition_raise in Hbody.
Qed.

End RunsThatFail.

(** X11: a timing run of one repetition or more that comes back without a
    result has left every attribute of the comparer as it was, the series
    of an earlier run included.  When no callback was given, the last call
    of [exec] is a timed execution of the snippet, and it raised. *)
Theorem X11_failed_run_keeps_series {Lib : Type} (sqrt : Q -> Q)
    (native : option string -> string -> list value -> process Lib
              -> result value * process Lib)
    (snippet_name : string) (code_to_time setup_code : program)
    (repeat number warmup_runs : Z) (on_repeat_end : option (@callback Lib))
    (s s' : state Lib) :
  1 <= repeat ->
  _time_single_snippet sqrt native snippet_name code_to_time setup_code repeat number
    warmup_runs on_repeat_end s = (Ok None, s') ->
  self s' = self s /\
  (on_repeat_end = None ->
   exists evs ev e,
     trace s' = (trace s ++ evs ++ [ev])%list /\
     ev_site ev = TimedSnippet /\ ev_outcome ev = Raise e).
Proof.
  intros Hrep Hrun.
  destruct (tss_split sqrt native snippet_name code_to_time setup_code repeat number
              warmup_runs on_repeat_end s) as (line & s0 & Hprint & Hsplit).
  destruct (print_run line s) as (s0' & Hprint' & Htrace & Hself & _).
  assert (s0' = s0) by congruence. subst s0'.
  destruct (_warmup native code_to_time setup_code warmup_runs s0) as [[[]|e] s1] eqn:Hw;
    [|congruence].
  pose proof (self_warmup (fun c => c) native code_to_time setup_code warmup_runs s0)
    as Hself1.
  rewrite Hw in Hself1. cbn [snd] in Hself1.
  destruct (gc_disabled _ s1) as [[times|e] s2] eqn:Hloop.
  - exfalso. destruct Hsplit as (r & s'' & Hrun' & _ & _ & _ & Hconv).
    rewrite Hrun in Hrun'. injection Hrun' as <- <-.
    apply measured_loop_ok in Hloop as (Hlen & _).
    assert (Hne : times <> []) by (intros ->; cbn in Hlen; lia).
    destruct (stdev_guarded_ok sqrt times) as (sd & Hsd).
    specialize (Hconv _ sd (mean_nonempty times Hne) Hsd).
    discriminate.
  - destruct (is_exception e); [|congruence].
    destruct Hsplit as (s'' & Hrun' & Ht & Hs).
    rewrite Hrun in Hrun'. injection Hrun' as <-.
    pose proof (self_measured_loop (fun c => c) native code_to_time setup_code repeat
                  number on_repeat_end s1) as Hself2.
    rewrite Hloop in Hself2. cbn [snd] in Hself2.
    split; [congruence|]. intros ->.
    apply measured_loop_raise in Hloop as (evs & ev & Ht2 & Hsite & Hout).
    apply warmup_ok in Hw as (evs0 & Ht0 & _).
    exists (evs0 ++ evs)%list, ev, e.
    rewrite Ht, Ht2, Ht0, Htrace, <- !app_assoc. auto.
Qed.

(** ** [compare_execution] on a comparer that has not run yet *)

(** What does not depend on the series written by a timing run is kept by
    it, on every path. *)
Lemma self_time_single_snippet {Lib X : Type} (g : CodeComparer -> X) (sqrt : Q -> Q)
      (native : option string -> string -> list value -> process Lib
                -> result value * process Lib)
      (snippet_name : string) (code setup : program) (repeat number warmup_runs : Z)
      (on_repeat_end : option (@callback Lib)) :
  (forall times c,
     g ((if contains "1" snippet_name
         then set_measurements_1 times else set_measurements_2 times) c) = g c) ->
  keeps (fun s => g (self s))
    (_time_single_snippet sqrt native snippet_name code setup repeat number warmup_runs
       on_repeat_end).
Proof.
  intros Hg. unfold _time_single_snippet.
  apply keeps_bind; [apply (self_print g) | intros _].
  apply keeps_bind; [apply (self_warmup g) | intros _].
  apply keeps_try_except.
  - apply keeps_bind; [apply (self_measured_loop g) | intros times].
    apply keeps_bind.
    { intros s0. specialize (Hg times (self s0)).
      destruct (contains "1" snippet_name); exact Hg. }
    intros _. apply keeps_bind; [apply keeps_lift | intros m].
    apply keeps_bind; [apply keeps_lift | intros sd]. apply keeps_ret.
  - intros e. repeat (apply keeps_bind; [apply (self_print g) | intros _]).
    apply keeps_ret.
Qed.

Lemma other_series_kept {Lib : Type} (sqrt : Q -> Q)
      (native : option string -> string -> list value -> process Lib
                -> result value * process Lib)
      (snippet_name : string) (code setup : program) (repeat number warmup_runs : Z)
      (on_repeat_end : option (@callback Lib)) :
  keeps (fun s => (other_series snippet_name (self s), configuration (self s)))
    (_time_single_snippet sqrt native snippet_name code setup repeat number warmup_runs
       on_repeat_end).
Proof.
  apply (self_time_single_snippet
           (fun c => (other_series snippet_name c, configuration c))).
  intros times c. unfold other_series, configuration.
  destruct (contains "1" snippet_name); reflexivity.
Qed.

(** A run that comes back without a result leaves its series as it was,
    or empty. *)
Lemma tss_none_series {Lib : Type} (sqrt : Q -> Q)
      (native : option string -> string -> list value -> process Lib
                -> result value * process Lib)
      (snippet_name : string) (code setup : program) (repeat number warmup_runs : Z)
      (on_repeat_end : option (@callback Lib)) (s s' : state Lib) :
  _time_single_snippet sqrt native snippet_name code setup repeat number warmup_runs
    on_repeat_end s = (Ok None, s') ->
  series_of snippet_name (self s') = series_of snippet_name (self s) \/
  series_of snippet_name (self s') = [].
Proof.
  intros Hrun.
  destruct (tss_split sqrt native snippet_name code setup repeat number
              warmup_runs on_repeat_end s) as (line & s0 & Hprint & Hsplit).
  destruct (print_run line s) as (s0' & Hprint' & _ & Hself & _).
  assert (s0' = s0) by congruence. subst s0'.
  destruct (_warmup native code setup warmup_runs s0) as [[[]|e] s1] eqn:Hw;
    [|congruence].
  pose proof (self_warmup (fun c => c) native code setup warmup_runs s0) as Hself1.
  rewrite Hw in Hself1. cbn [snd] in Hself1.
  pose proof (self_measured_loop (fun c => c) native code setup repeat
                number on_repeat_end s1) as Hself2.
  destruct (gc_disabled _ s1) as [[times|e] s2] eqn:Hloop; cbn [snd] in Hself2.
  - right. destruct Hsplit as (r & s'' & Hrun' & _ & Hs & _ & Hconv).
    rewrite Hrun in Hrun'. injection Hrun' as <- <-. rewrite Hs.
    destruct times as [|x xs].
    + unfold series_of. destruct (contains "1" snippet_name); reflexivity.
    + exfalso. destruct (stdev_guarded_ok sqrt (x :: xs)) as (sd & Hsd).
      specialize (Hconv _ sd eq_refl Hsd). discriminate.
  - left. destruct (is_exception e); [|congruence].
    destruct Hsplit as (s'' & Hrun' & _ & Hs).
    rewrite Hrun in Hrun'. injection Hrun' as <-. congruence.
Qed.

(** A run that comes back with a result: the executions it made, all of
    which returned, and the length of the series it wrote. *)
Lemma tss_some_series {Lib : Type} (sqrt : Q -> Q)
      (native : option string -> string -> list value -> process Lib
                -> result value * process Lib)
      (snippet_name : string) (code setup : program) (repeat number warmup_runs : Z)
      (on_repeat_end : option (@callback Lib)) (s s' : state Lib) (m sd : Q) :
  _time_single_snippet sqrt native snippet_name code setup repeat number warmup_runs
    on_repeat_end s = (Ok (Some (m, sd)), s') ->
  1 <= repeat /\
  len (series_of snippet_name (self s')) = repeat /\
  executed s s'
    (concat (replicate (Z.to_nat warmup_runs) [WarmupSetup; WarmupSnippet])
     ++ replicate (Z.to_nat number * Z.to_nat repeat) TimedSnippet)%list.
Proof.
  intros Hrun.
  apply tss_returns_pair in Hrun
    as (s1 & s2 & times & Hw & _ & Hloop & _ & Hlen & _ & -> & Hmean & _).
  assert (Hseries : series_of snippet_name
                      (self (with_self (if contains "1" snippet_name
                                        then set_measurements_1 times
                                        else set_measurements_2 times) s2)) = times)
    by (unfold series_of; destruct (contains "1" snippet_name); reflexivity).
  rewrite Hseries.
  assert (Hne : times <> []) by (intros ->; discriminate).
  split; [destruct times; [congruence | cbn in Hlen; lia]|].
  split; [unfold len; destruct times; [congruence | cbn in Hlen |- *; lia]|].
  apply (executed_same_trace _ s2); [reflexivity|].
  exact (executed_trans _ _ _ _ _ Hw Hloop).
Qed.

Lemma print_ok {Lib} (line : string) (s s1 : state Lib) (r : result ()) :
  print line s = (r, s1) ->
  r = Ok () /\ trace s1 = trace s /\ self s1 = self s.
Proof.
  destruct (print_run line s) as (s0 & Hp & Ht & Hs & _).
  rewrite Hp. intros [= <- <-]. auto.
Qed.

(** X12: on a comparer whose two series are empty, as [__init__] leaves
    them, a comparison that returns a verdict was asked for one repetition
    or more, and every execution of either snippet, in warm-up and in the
    measured loop, returned: the warm-up and the repetitions of Snippet 1,
    then those of Snippet 2.  Both descriptions are over exactly
    [num_repetitions] samples, and are those of the two series left in the
    comparer, whose configuration is unchanged. *)
Theorem X12_returned_comparison {Lib : Type} (sqrt : Q -> Q)
    (native : option string -> string -> list value -> process Lib
              -> result value * process Lib)
    (num_repetitions num_executions_per_rep warmup_runs : Z)
    (on_repeat_end : option (@callback Lib)) (s s' : state Lib)
    (res : ComparisonResult) :
  measurements_1 (self s) = [] -> measurements_2 (self s) = [] ->
  compare_execution sqrt native num_repetitions num_executions_per_rep warmup_runs
    on_repeat_end s = (Ok res, s') ->
  let sites :=
    (concat (replicate (Z.to_nat warmup_runs) [WarmupSetup; WarmupSnippet])
     ++ replicate (Z.to_nat num_executions_per_rep * Z.to_nat num_repetitions)
          TimedSnippet)%list in
  1 <= num_repetitions /\
  executed s s' (sites ++ sites)%list /\
  s_count (stats1 res) = num_repetitions /\
  s_count (stats2 res) = num_repetitions /\
  _detailed_stats sqrt (measurements_1 (self s')) = Ok (stats1 res) /\
  _detailed_stats sqrt (measurements_2 (self s')) = Ok (stats2 res) /\
  configuration (self s') = configuration (self s).
Proof.
  intros Hm1 Hm2 Hrun sites. unfold compare_execution in Hrun.
  apply M_bind_ok in Hrun as ([] & sa & Hp1 & Hrun).
  apply print_ok in Hp1 as (_ & Hta & Hsa).
  apply M_bind_ok in Hrun as ([] & sb & Hp2 & Hrun).
  apply print_ok in Hp2 as (_ & Htb & Hsb).
  apply M_bind_ok in Hrun as ([] & sc & Hp3 & Hrun).
  apply print_ok in Hp3 as (_ & Htc & Hsc).
  apply M_bind_ok in Hrun as (seed & sd & Hseed & Hrun). injection Hseed as _ <-.
  apply M_bind_ok in Hrun as ([] & se & Hp4 & Hrun).
  apply print_ok in Hp4 as (_ & Hte & Hse).
  apply M_bind_ok in Hrun as (total_start & sf & Hstart & Hrun). injection Hstart as _ <-.
  apply M_bind_ok in Hrun as (c & sf & Hc & Hrun). injection Hc as <- <-.
  apply M_bind_ok in Hrun as (r1 & s1 & Hrun1 & Hrun).
  apply M_bind_ok in Hrun as (r2 & s2 & Hrun2 & Hrun).
  apply M_bind_ok in Hrun as (total_end & sf & Hend & Hrun). injection Hend as _ <-.
  apply M_bind_ok in Hrun as (m1 & sf & Hg1 & Hrun). injection Hg1 as <- <-.
  apply M_bind_ok in Hrun as (m2 & sf & Hg2 & Hrun). injection Hg2 as <- <-.
  apply M_bind_ok in Hrun as (st1 & sf & Hst1 & Hrun).
  unfold lift in Hst1. injection Hst1 as Hst1 <-.
  apply M_bind_ok in Hrun as (st2 & sf & Hst2 & Hrun).
  unfold lift in Hst2. injection Hst2 as Hst2 <-.
  apply M_bind_ok in Hrun as (i1 & sf & Hi1 & Hrun).
  unfold lift in Hi1. injection Hi1 as Hi1 <-.
  apply M_bind_ok in Hrun as (i2 & sf & Hi2 & Hrun).
  unfold lift in Hi2. injection Hi2 as Hi2 <-.
  apply M_bind_ok in Hrun as (v & sf & Hv & Hrun).
  unfold lift in Hv. injection Hv as Hv <-.
  injection Hrun as <- <-. cbn [stats1 stats2].
  assert (Hself : self se = self s) by congruence.
  assert (Htrace : trace se = trace s) by congruence.
  pose proof (other_series_kept sqrt native "Snippet 1" (code_1 (self se))
                (setup_code (self se)) num_repetitions num_executions_per_rep
                warmup_runs on_repeat_end se) as Hk1.
  pose proof (other_series_kept sqrt native "Snippet 2" (code_2 (self se))
                (setup_code (self se)) num_repetitions num_executions_per_rep
                warmup_runs on_repeat_end s1) as Hk2.
  rewrite Hrun1 in Hk1. rewrite Hrun2 in Hk2. cbn [snd] in Hk1, Hk2.
  pose proof (f_equal fst Hk1) as Hother1. pose proof (f_equal snd Hk1) as Hconf1.
  pose proof (f_equal fst Hk2) as Hother2. pose proof (f_equal snd Hk2) as Hconf2.
  cbn [fst snd] in Hother1, Hconf1, Hother2, Hconf2. clear Hk1 Hk2.
  change (other_series "Snippet 1" (self s1)) with (measurements_2 (self s1)) in Hother1.
  change (other_series "Snippet 1" (self se)) with (measurements_2 (self se)) in Hother1.
  change (other_series "Snippet 2" (self s2)) with (measurements_1 (self s2)) in Hother2.
  change (other_series "Snippet 2" (self s1)) with (measurements_1 (self s1)) in Hother2.
  assert (Hne1 : measurements_1 (self s2) <> []) by (intros E; rewrite E in Hst1; discriminate).
  assert (Hne2 : measurements_2 (self s2) <> []) by (intros E; rewrite E in Hst2; discriminate).
  destruct r1 as [[mean1 sd1]|].
  2:{ exfalso. apply tss_none_series in Hrun1.
      change (series_of "Snippet 1" (self s1)) with (measurements_1 (self s1)) in Hrun1.
      change (series_of "Snippet 1" (self se)) with (measurements_1 (self se)) in Hrun1.
      apply Hne1. rewrite Hother2.
      destruct Hrun1 as [E|E]; [rewrite E, Hself; exact Hm1 | exact E]. }
  destruct r2 as [[mean2 sd2]|].
  2:{ exfalso. apply tss_none_series in Hrun2.
      change (series_of "Snippet 2" (self s2)) with (measurements_2 (self s2)) in Hrun2.
      change (series_of "Snippet 2" (self s1)) with (measurements_2 (self s1)) in Hrun2.
      apply Hne2.
      destruct Hrun2 as [E|E]; [rewrite E, Hother1, Hself; exact Hm2 | exact E]. }
  apply tss_some_series in Hrun1 as (Hrep & Hlen1 & Hex1).
  apply tss_some_series in Hrun2 as (_ & Hlen2 & Hex2).
  change (series_of "Snippet 1" (self s1)) with (measurements_1 (self s1)) in Hlen1.
  change (series_of "Snippet 2" (self s2)) with (measurements_2 (self s2)) in Hlen2.
  apply _detailed_stats_fields in Hst1 as Hf1. destruct Hf1 as (_ & _ & _ & _ & _ & Hc1).
  apply _detailed_stats_fields in Hst2 as Hf2. destruct Hf2 as (_ & _ & _ & _ & _ & Hc2).
  split; [exact Hrep|]. split.
  { pose proof (executed_trans _ _ _ _ _ Hex1 Hex2) as (evs & Ht & Hm & Hf).
    exists evs. rewrite Ht, Htrace. auto. }
  split; [now rewrite Hc1, Hother2|]. split; [now rewrite Hc2|].
  split; [exact Hst1|]. split; [exact Hst2|].
  now rewrite Hconf2, Hconf1, Hself.
Qed.

(** ** The standard streams and the collector switch around a comparison *)

Section StreamsOfARun.
Context {Lib : Type}.
Variable sqrt : Q -> Q.
Variable native :
  option string -> string -> list value -> process Lib -> result value * process Lib.
Variable on_repeat_end : option (@callback Lib).
Hypothesis callback_keeps_streams :
  forall cb rep elapsed p, on_repeat_end = Some cb ->
    sys_stdout (cb rep elapsed p).2 = sys_stdout p /\
    sys_stderr (cb rep elapsed p).2 = sys_stderr p.

Lemma streams_timed_repetition (code setup : program) (number rep : Z) (times : list Q) :
  keeps (@streams Lib) (timed_repetition native code setup number on_repeat_end rep times).
Proof.
  unfold timed_repetition.
  apply keeps_bind; [apply keeps_gets | intros seed].
  apply keeps_bind; [apply keeps_ret | intros _].
  apply keeps_bind; [apply keeps_gets | intros start].
  apply keeps_bind; [apply streams_suppress_output | intros _].
  apply keeps_bind; [apply keeps_gets | intros end_].
  apply keeps_bind; [apply keeps_lift | intros elapsed].
  apply keeps_bind; [|intros _; apply keeps_ret].
  destruct on_repeat_end as [cb|] eqn:Ecb; [|apply keeps_ret].
  intros s. unfold call_back, streams.
  destruct (callback_keeps_streams cb rep elapsed (proc s) eq_refl) as [Hout Herr].
  destruct (cb rep elapsed (proc s)) as [r p1]. cbn [fst snd proc with_proc] in *.
  now rewrite Hout, Herr.
Qed.

Lemma streams_time_single_snippet (snippet_name : string) (code setup : program)
      (repeat number warmup_runs : Z) :
  keeps (@streams Lib)
    (_time_single_snippet sqrt native snippet_name code setup repeat number warmup_runs
       on_repeat_end).
Proof.
  unfold _time_single_snippet.
  apply keeps_bind; [apply streams_print | intros _].
  apply keeps_bind.
  { unfold _warmup. apply keeps_for_range. intros _ _. apply streams_suppress_output. }
  intros _. apply keeps_try_except.
  - apply keeps_bind.
    { apply streams_gc_disabled, keeps_for_range. intros rep times.
      apply streams_timed_repetition. }
    intros times. apply keeps_bind.
    { destruct (contains "1" snippet_name); apply streams_modify_self. }
    intros _. apply keeps_bind; [apply keeps_lift | intros m].
    apply keeps_bind; [apply keeps_lift | intros sd]. apply keeps_ret.
  - intros e. repeat (apply keeps_bind; [apply streams_print | intros _]).
    apply keeps_ret.
Qed.

Lemma streams_compare_execution (num_repetitions num_executions_per_rep warmup_runs : Z) :
  keeps (@streams Lib)
    (compare_execution sqrt native num_repetitions num_executions_per_rep warmup_runs
       on_repeat_end).
Proof.
  unfold compare_execution.
  do 3 (apply keeps_bind; [apply streams_print | intros _]).
  apply keeps_bind; [apply keeps_gets | intros seed].
  apply keeps_bind; [apply streams_print | intros _].
  apply keeps_bind; [apply keeps_gets | intros total_start].
  apply keeps_bind; [apply keeps_gets | intros c].
  do 2 (apply keeps_bind; [apply streams_time_single_snippet | intros _]).
  do 3 (apply keeps_bind; [apply keeps_gets | intros ?]).
  do 5 (apply keeps_bind; [apply keeps_lift | intros ?]).
  apply keeps_ret.
Qed.

End StreamsOfARun.

(** X13: as long as the progress callback leaves [sys.stdout] and
    [sys.stderr] alone, a timing run and a whole comparison end with both
    streams as they found them, whatever the snippets and the libraries do
    to the streams and whether the run returns or raises. *)
Theorem X13_streams_restored {Lib : Type} (sqrt : Q -> Q)
    (native : option string -> string -> list value -> process Lib
              -> result value * process Lib)
    (snippet_name : string) (code_to_time setup_code : program)
    (repeat number warmup_runs : Z) (on_repeat_end : option (@callback Lib))
    (s : state Lib) :
  (forall cb rep elapsed p, on_repeat_end = Some cb ->
     sys_stdout (cb rep elapsed p).2 = sys_stdout p /\
     sys_stderr (cb rep elapsed p).2 = sys_stderr p) ->
  streams (_time_single_snippet sqrt native snippet_name code_to_time setup_code
             repeat number warmup_runs on_repeat_end s).2 = streams s /\
  streams (compare_execution sqrt native repeat number warmup_runs on_repeat_end s).2
  = streams s.
Proof.
  intros Hcb. split.
  - now apply streams_time_single_snippet.
  - now apply streams_compare_execution.
Qed.

(** The switch is on after [gc_disabled] whenever it was on before. *)
Lemma gc_disabled_back_on {Lib A : Type} (body : M Lib A) (s : state Lib) :
  gc_enabled (proc s) = true -> gc_enabled (proc (gc_disabled body s).2) = true.
Proof.
  intros Hon. destruct (gc_disabled_switch body s) as (_ & _ & Hgc).
  cbv zeta in Hgc. now rewrite Hgc, Hon.
Qed.

Lemma gc_print {Lib} (line : string) :
  keeps (fun s : state Lib => gc_enabled (proc s)) (print line).
Proof. intros s. now destruct (print_run line s) as (s1 & -> & _ & _ & Hgc). Qed.

(** What holds of the state at the end of each step holds at the end. *)
Lemma bind_ends {Lib A B} (I : state Lib -> Prop) (c : M Lib A) (k : A -> M Lib B)
      (s : state Lib) :
  I (c s).2 -> (forall a s', I s' -> I (k a s').2) -> I ((c ≫= k) s).2.
Proof.
  intros Hc Hk. rewrite M_bind_run.
  destruct (c s) as [[a|e] s1]; cbn [snd] in *; [now apply Hk | exact Hc].
Qed.

Lemma try_except_ends {Lib A} (I : state Lib -> Prop) (body : M Lib A)
      (handler : exn -> M Lib A) (s : state Lib) :
  I (body s).2 -> (forall e s', I s' -> I (handler e s').2) ->
  I (try_except body handler s).2.
Proof.
  intros Hb Hh. unfold try_except.
  destruct (body s) as [[a|e] s1]; cbn [snd] in *; [exact Hb|].
  destruct (is_exception e); [now apply Hh | exact Hb].
Qed.

Lemma collector_back_on {Lib : Type} (sqrt : Q -> Q)
      (native : option string -> string -> list value -> process Lib
                -> result value * process Lib)
      (snippet_name : string) (code setup : program) (repeat number warmup_runs : Z)
      (on_repeat_end : option (@callback Lib)) (s : state Lib) :
  warmup_runs <= 0 -> gc_enabled (proc s) = true ->
  gc_enabled (proc (_time_single_snippet sqrt native snippet_name code setup repeat
                      number warmup_runs on_repeat_end s).2) = true.
Proof.
  intros Hwarm Hon. unfold _time_single_snippet.
  apply (bind_ends (fun z => gc_enabled (proc z) = true));
    [cbv beta; now rewrite gc_print | intros _ s0 Hon0].
  apply (bind_ends (fun z => gc_enabled (proc z) = true));
    [now rewrite warmup_none | intros _ s1 Hon1].
  apply (try_except_ends (fun z => gc_enabled (proc z) = true)).
  - apply (bind_ends (fun z => gc_enabled (proc z) = true));
      [now apply gc_disabled_back_on | intros times s2 Hon2].
    apply (bind_ends (fun z => gc_enabled (proc z) = true));
      [destruct (contains "1" snippet_name); exact Hon2 | intros _ s3 Hon3].
    apply (bind_ends (fun z => gc_enabled (proc z) = true));
      [exact Hon3 | intros m s4 Hon4].
    apply (bind_ends (fun z => gc_enabled (proc z) = true));
      [exact Hon4 | intros sd s5 Hon5].
    exact Hon5.
  - intros e.
    do 5 (let x := fresh "st" in let Hx := fresh "H" in
          intros x Hx;
          apply (bind_ends (fun z => gc_enabled (proc z) = true));
          [cbv beta; now rewrite gc_print | intros _]).
    intros sf Hf. exact Hf.
Qed.

(** X14: with the collector on and no warm-up run asked for, a timing run
    and a whole comparison end with the collector on, whatever the
    snippets, the libraries and the callback did to the switch in the
    meantime, and whether the run returns or raises. *)
Theorem X14_collector_back_on {Lib : Type} (sqrt : Q -> Q)
    (native : option string -> string -> list value -> process Lib
              -> result value * process Lib)
    (snippet_name : string) (code_to_time setup_code : program)
    (repeat number warmup_runs : Z) (on_repeat_end : option (@callback Lib))
    (s : state Lib) :
  warmup_runs <= 0 -> gc_enabled (proc s) = true ->
  gc_enabled (proc (_time_single_snippet sqrt native snippet_name code_to_time setup_code
                      repeat number warmup_runs on_repeat_end s).2) = true /\
  gc_enabled (proc (compare_execution sqrt native repeat number warmup_runs
                      on_repeat_end s).2) = true.
Proof.
  intros Hwarm Hon. split; [now apply collector_back_on|].
  unfold compare_execution. revert s Hon.
  do 3 (let x := fresh "st" in let Hx := fresh "H" in
        intros x Hx; apply (bind_ends (fun z => gc_enabled (proc z) = true));
        [cbv beta; now rewrite gc_print | intros _]).
  intros s Hon. apply (bind_ends (fun z => gc_enabled (proc z) = true));
    [exact Hon | intros seed].
  intros s1 Hon1. apply (bind_ends (fun z => gc_enabled (proc z) = true));
    [cbv beta; now rewrite gc_print | intros _].
  do 2 (let x := fresh "st" in let Hx := fresh "H" in
        intros x Hx; apply (bind_ends (fun z => gc_enabled (proc z) = true));
        [exact Hx | intros ?]).
  do 2 (let x := fresh "st" in let Hx := fresh "H" in
        intros x Hx; apply (bind_ends (fun z => gc_enabled (proc z) = true));
        [now apply collector_back_on | intros _]).
  do 8 (let x := fresh "st" in let Hx := fresh "H" in
        intros x Hx; apply (bind_ends (fun z => gc_enabled (proc z) = true));
        [exact Hx | intros ?]).
  intros sf Hf. exact Hf.
Qed.

(** ** A snippet that cannot run: what the comparison does *)

(** The first warm-up round of a snippet that starts by loading an unbound
    name: either the setup raises, or the snippet raises [NameError]. *)
Lemma warmup_first_round {Lib : Type}
      (native : option string -> string -> list value -> process Lib
                -> result value * process Lib)
      (code setup : program) (runs : Z) (x : string) (s : state Lib) :
  1 <= runs -> first_load code = Some x -> is_builtin x = false ->
  exists e evs s',
    _warmup native code setup runs s = (Raise e, s') /\
    trace s' = (trace s ++ evs)%list /\ self s' = self s /\
    (map (fun ev => (ev_site ev, ev_code ev, ev_outcome ev)) evs
       = [ (WarmupSetup, setup, Raise e) ] \/
     e = NameError x /\
     map (fun ev => (ev_site ev, ev_code ev, ev_outcome ev)) evs
       = [ (WarmupSetup, setup, Ok ()); (WarmupSnippet, code, Raise (NameError x)) ]).
Proof.
  intros Hruns Hfirst Hb. unfold _warmup, for_range.
  destruct (Z.to_nat runs) as [|k] eqn:E; [lia|]. cbn [for_from].
  rewrite M_bind_run. unfold suppress_output. rewrite M_bind_run. unfold exec_at at 1.
  destruct (Py.exec native setup ∅ ∅ _) as [[[]|e] p1].
  - unfold exec_at. cbn [proc].
    rewrite (exec_first_load native code x p1 Hfirst Hb).
    eexists. eexists. eexists. split; [reflexivity|]. cbn [trace self with_proc].
    split; [now rewrite <- app_assoc|]. split; [reflexivity|]. right. split; reflexivity.
  - eexists. eexists. eexists. split; [reflexivity|]. cbn [trace self with_proc].
    split; [reflexivity|]. split; [reflexivity|]. left. reflexivity.
Qed.

Lemma gets_run {Lib A} (f : state Lib -> A) (s : state Lib) : gets f s = (Ok (f s), s).
Proof. reflexivity. Qed.

Lemma perf_counter_run {Lib} (s : state Lib) : perf_counter s = (Ok (clock (proc s)), s).
Proof. reflexivity. Qed.


(** ** [_format_duration]: the unit and the number shown *)

Lemma py_int_QofZ (z : Z) : py_int (QofZ z) = z.
Proof. unfold py_int, QofZ. cbn. apply Z.quot_1_r. Qed.

Lemma Qle_bool_false (a b : Q) : Qle_bool a b = false -> (b < a)%Q.
Proof.
  intros H. apply Qnot_le_lt. intros Hle. apply Qle_bool_iff in Hle. congruence.
Qed.


(** ** [Colors.progress_bar] and the callback of the command line *)

Lemma print_line_frame {Lib} (line : string) (p : process Lib) :
  gc_enabled (print_line line p) = gc_enabled p /\
  sys_stdout (print_line line p) = sys_stdout p /\
  sys_stderr (print_line line p) = sys_stderr p /\
  clock (print_line line p) = clock p /\
  lib (print_line line p) = lib p /\
  console (print_line line p)
  = (console p ++ match sys_stdout p with Console => [line] | DevNull => [] end)%list.
Proof.
  unfold print_line. destruct (sys_stdout p) eqn:E; cbn; rewrite ?E, ?app_nil_r;
    repeat split; reflexivity.
Qed.

Lemma QofZ_nonzero (z : Z) : z <> 0 -> Qeq_bool (QofZ z) 0 = false.
Proof.
  intros Hz. destruct (Qeq_bool (QofZ z) 0) eqn:E; [|reflexivity].
  apply Qeq_bool_iff in E. unfold Qeq, QofZ in E. cbn in E. lia.
Qed.

Lemma bar_percent_ok (fl : Q -> Q) (current total : Z) :
  bar_percent fl current total
  = Ok (if total =? 0 then 0%Q else fl (QofZ current / QofZ total)%Q).
Proof.
  unfold bar_percent, py_div. destruct (Z.eqb_spec total 0) as [?|Hne]; [reflexivity|].
  now rewrite (QofZ_nonzero total Hne).
Qed.

(** Truncation of a number between 0 and an integer, and of an integer. *)
Lemma py_int_bounds (x : Q) (n : Z) :
  (0 <= x)%Q -> (x <= QofZ n)%Q -> 0 <= py_int x <= n.
Proof.
  unfold py_int, QofZ, Qle. cbn [Qnum Qden inject_Z]. intros H0 Hn.
  rewrite Z.quot_div_nonneg by lia. split.
  - apply Z.div_pos; lia.
  - apply Z.div_le_upper_bound; lia.
Qed.

Lemma py_int_integer (x : Q) (n : Z) : (x == QofZ n)%Q -> py_int x = n.
Proof.
  unfold py_int, QofZ, Qeq. cbn [Qnum Qden inject_Z]. intros H.
  rewrite Z.mul_1_r in H. rewrite H. apply Z.quot_mul. discriminate.
Qed.

(** A monotone rounding gives equal results on equal numbers. *)
Lemma monotone_compatible (fl : Q -> Q) (x y : Q) :
  (forall a b, (a <= b)%Q -> (fl a <= fl b)%Q) -> (x == y)%Q -> (fl x == fl y)%Q.
Proof.
  intros Hmono Hxy. apply Qle_antisym; apply Hmono; rewrite Hxy; apply Qle_refl.
Qed.

(** The bar returns, and writes to the terminal only. *)
Lemma progress_bar_returns {Lib} (format_6_2f : Q -> string) (fl : Q -> Q)
      (current total bar_length : Z) (prefix suffix : string) (p : process Lib) :
  exists p',
    progress_bar format_6_2f fl current total bar_length prefix suffix p = (Ok (), p') /\
    gc_enabled p' = gc_enabled p /\
    sys_stdout p' = sys_stdout p /\ sys_stderr p' = sys_stderr p /\
    clock p' = clock p /\ lib p' = lib p.
Proof.
  unfold progress_bar. rewrite bar_percent_ok. cbv zeta.
  eexists. split; [reflexivity|].
  destruct (current =? total);
    repeat match goal with
           | |- context [print_line ?l ?q] =>
               let H := fresh in
               pose proof (print_line_frame l q) as H;
               destruct H as (-> & -> & -> & -> & -> & _)
           end;
    repeat split; reflexivity.
Qed.

(** The number of filled cells, for a rounding that is monotone and exact
    at 0, at 1 and at the length of the bar. *)
Lemma filled_cells (fl : Q -> Q) (current total bar_length : Z) :
  (forall a b, (a <= b)%Q -> (fl a <= fl b)%Q) ->
  (fl 0 == 0)%Q -> (fl 1 == 1)%Q -> (fl (QofZ bar_length) == QofZ bar_length)%Q ->
  0 <= current <= total -> 0 <= bar_length ->
  let percent := if total =? 0 then 0%Q else fl (QofZ current / QofZ total)%Q in
  let filled := py_int (fl (QofZ bar_length * percent)%Q) in
  0 <= filled <= bar_length /\
  (current = 0 -> filled = 0) /\
  (current = total -> filled = if total =? 0 then 0 else bar_length).
Proof.
  intros Hmono H0 H1 Hlen Hcur Hbar percent filled.
  assert (Hb : (0 <= QofZ bar_length)%Q)
    by (unfold QofZ; change 0%Q with (inject_Z 0); rewrite <- Zle_Qle; lia).
  assert (Hzero : forall q, (q == 0)%Q -> py_int (fl (QofZ bar_length * q)%Q) = 0).
  { intros q Hq. apply py_int_integer. change (QofZ 0) with 0%Q.
    apply Qeq_trans with (fl 0%Q); [|exact H0].
    apply (monotone_compatible fl); [exact Hmono|]. rewrite Hq. ring. }
  assert (Hone : forall q, (q == 1)%Q -> py_int (fl (QofZ bar_length * q)%Q) = bar_length).
  { intros q Hq. apply py_int_integer.
    apply Qeq_trans with (fl (QofZ bar_length)); [|exact Hlen].
    apply (monotone_compatible fl); [exact Hmono|]. rewrite Hq. ring. }
  assert (Hratio : total <> 0 ->
            (0 <= QofZ current / QofZ total)%Q /\ (QofZ current / QofZ total <= 1)%Q).
  { intros Hne.
    assert (Ht : (0 < QofZ total)%Q)
      by (unfold QofZ; change 0%Q with (inject_Z 0); rewrite <- Zlt_Qlt; lia).
    assert (Hc : (0 <= QofZ current)%Q)
      by (unfold QofZ; change 0%Q with (inject_Z 0); rewrite <- Zle_Qle; lia).
    assert (Hct : (QofZ current <= QofZ total)%Q)
      by (unfold QofZ; rewrite <- Zle_Qle; lia).
    split; [apply Qle_shift_div_l | apply Qle_shift_div_r]; try exact Ht; lra. }
  assert (Hp : (0 <= percent)%Q /\ (percent <= 1)%Q).
  { subst percent. destruct (Z.eqb_spec total 0) as [?|Hne]; [split; lra|].
    destruct (Hratio Hne) as [Hr0 Hr1].
    pose proof (Hmono _ _ Hr0). pose proof (Hmono _ _ Hr1). split; lra. }
  destruct Hp as [Hp0 Hp1].
  split; [|split].
  - subst filled. apply py_int_bounds.
    + assert (Hx : (0 <= QofZ bar_length * percent)%Q)
        by (apply Qmult_le_0_compat; assumption).
      pose proof (Hmono _ _ Hx). lra.
    + assert (Hx : (QofZ bar_length * percent <= QofZ bar_length)%Q) by nra.
      pose proof (Hmono _ _ Hx). lra.
  - intros ->. subst filled. apply Hzero. subst percent.
    destruct (Z.eqb_spec total 0) as [?|Hne]; [reflexivity|].
    apply Qeq_trans with (fl 0%Q); [|exact H0].
    apply (monotone_compatible fl); [exact Hmono|].
    change (QofZ 0) with 0%Q. unfold Qdiv. ring.
  - intros ->. subst filled percent.
    destruct (Z.eqb_spec total 0) as [?|Hne]; [now apply Hzero|].
    apply Hone. apply Qeq_trans with (fl 1%Q); [|exact H1].
    apply (monotone_compatible fl); [exact Hmono|].
    field. intros Hz. apply Qeq_bool_iff in Hz.
    rewrite (QofZ_nonzero total Hne) in Hz. discriminate.
Qed.


(** ** What [exec] keeps of the process, when the libraries keep it *)

Section ExecInvariant.
Context {Lib : Type}.
Variable native :
  option string -> string -> list value -> process Lib -> result value * process Lib.
(** A property of the process that no library call destroys. *)
Variable I : process Lib -> Prop.
Hypothesis native_keeps : forall m f args p, I p -> I (native m f args p).2.

Lemma call_invariant (f : value) (args : list value) (p : process Lib) :
  I p -> I (call native f args p).2.
Proof.
  intros Hp. unfold call.
  repeat case_match; solve [exact Hp | now apply native_keeps].
Qed.

Lemma eval_args_invariant (ev : expr -> process Lib -> result value * process Lib)
      (es : list expr) :
  list_all expr (fun e => forall p, I p -> I (ev e p).2) es ->
  forall p, I p -> I (eval_args ev es p).2.
Proof.
  induction 1 as [|e He es _ IH]; intros p Hp; cbn [eval_args]; [exact Hp|].
  specialize (He p Hp).
  destruct (ev e p) as [[v|ex] p1]; [|exact He].
  specialize (IH p1 He).
  destruct (eval_args ev es p1) as [[vs|ex] p2]; exact IH.
Qed.

Lemma eval_invariant (g l : gmap string value) (e : expr) :
  forall p, I p -> I (eval native g l e p).2.
Proof.
  induction e as [y|z|q|e IH a|f IHf args IHargs|a IHa b IHb];
    intros p Hp; cbn [eval]; try exact Hp.
  - specialize (IH p Hp).
    destruct (eval native g l e p) as [[[]|ex] p1]; exact IH.
  - specialize (IHf p Hp).
    destruct (eval native g l f p) as [[fv|ex] p1]; [|exact IHf].
    pose proof (eval_args_invariant (eval native g l) args IHargs p1 IHf) as Hargs.
    destruct (eval_args (eval native g l) args p1) as [[vs|ex] p2]; [|exact Hargs].
    now apply call_invariant.
  - specialize (IHa p Hp).
    destruct (eval native g l a p) as [[va|ex] p1]; [|exact IHa].
    specialize (IHb p1 IHa).
    destruct (eval native g l b p1) as [[vb|ex] p2]; exact IHb.
Qed.

Lemma run_block_invariant
      (ex : stmt -> gmap string value -> process Lib -> @outcome Lib) (ss : list stmt) :
  list_all stmt (fun s => forall l p, I p -> I (ex s l p).2) ss ->
  forall l p, I p -> I (run_block ex ss l p).2.
Proof.
  induction 1 as [|s Hs ss _ IH]; intros l p Hp; cbn [run_block]; [exact Hp|].
  specialize (Hs l p Hp).
  destruct (ex s l p) as [[[u|e] l1] p1]; [|exact Hs].
  now apply IH.
Qed.

Lemma iterate_invariant (body : gmap string value -> process Lib -> @outcome Lib)
      (x : string) (k : nat) :
  (forall l p, I p -> I (body l p).2) ->
  forall i l p, I p -> I (iterate body x k i l p).2.
Proof.
  intros Hbody. induction k as [|k IH]; intros i l p Hp; cbn [iterate]; [exact Hp|].
  specialize (Hbody (<[x := VInt i]> l) p Hp).
  destruct (body (<[x := VInt i]> l) p) as [[[u|e] l1] p1]; [|exact Hbody].
  now apply IH.
Qed.

Lemma exec_stmt_invariant (g : gmap string value) (s : stmt) :
  forall l p, I p -> I (exec_stmt native g s l p).2.
Proof.
  induction s as [m|y e|y e|e|y it body IH|msg|]; intros l p Hp; cbn [exec_stmt];
    try exact Hp.
  - pose proof (eval_invariant g l e p Hp) as He.
    destruct (eval native g l e p) as [[v|ex] p1]; exact He.
  - destruct (lookup_name g l y) as [old|ex]; [|exact Hp].
    pose proof (eval_invariant g l e p Hp) as He.
    destruct (eval native g l e p) as [[v|ex] p1]; [|exact He].
    destruct (add_values old v); exact He.
  - pose proof (eval_invariant g l e p Hp) as He.
    destruct (eval native g l e p) as [[v|ex] p1]; exact He.
  - pose proof (eval_invariant g l it p Hp) as He.
    destruct (eval native g l it p) as [[[]|ex] p1]; try exact He.
    apply iterate_invariant; [|exact He].
    now apply run_block_invariant.
Qed.

Lemma exec_invariant (code : program) (g l : gmap string value) (p : process Lib) :
  I p -> I (Py.exec native code g l p).2.
Proof.
  intros Hp. unfold Py.exec, exec_stmts.
  assert (H : forall l p, I p -> I (run_block (exec_stmt native g) code l p).2).
  { apply run_block_invariant.
    induction code; constructor; auto using exec_stmt_invariant. }
  specialize (H l p Hp).
  destruct (run_block (exec_stmt native g) code l p) as [[r l1] p1]. exact H.
Qed.

End ExecInvariant.

(** ** Samples under a clock that does not go back *)

Section MonotoneClock.
Context {Lib : Type}.
Variable native :
  option string -> string -> list value -> process Lib -> result value * process Lib.
Hypothesis clock_goes_on :
  forall m f args p, (clock p <= clock (native m f args p).2)%Q.

Lemma exec_clock (code : program) (g l : gmap string value) (p : process Lib) :
  (clock p <= clock (Py.exec native code g l p).2)%Q.
Proof.
  apply (exec_invariant native (fun q => (clock p <= clock q)%Q)).
  - intros m f args q Hq. eapply Qle_trans; [exact Hq | apply clock_goes_on].
  - apply Qle_refl.
Qed.

Lemma timed_executions_clock (code : program) (number : Z) (s s' : state Lib) :
  suppress_output
    (for_range number () (fun _ _ => exec_at native TimedSnippet code ∅ ∅)) s
    = (Ok (), s') ->
  (clock (proc s) <= clock (proc s'))%Q.
Proof.
  unfold suppress_output.
  destruct (for_range number () _ (with_proc (set_streams DevNull DevNull) s))
    as [r s1] eqn:Hloop.
  intros [= -> <-]. cbn [proc with_proc set_streams clock].
  apply (for_range_invariant
           (fun _ _ st => (clock (proc s) <= clock (proc st))%Q)) in Hloop.
  - exact Hloop.
  - intros _ _ [] a [] b Ha Hbody. unfold exec_at in Hbody.
    pose proof (exec_clock code ∅ ∅ (proc a)) as Hc.
    destruct (Py.exec native code ∅ ∅ (proc a)) as [r p1].
    injection Hbody as _ <-. cbn [proc snd] in *. eapply Qle_trans; eassumption.
  - apply Qle_refl.
Qed.

Lemma timed_repetition_sample (code setup : program) (number : Z)
      (on_repeat_end : option (@callback Lib)) (rep : Z) (times times' : list Q)
      (s s' : state Lib) :
  timed_repetition native code setup number on_repeat_end rep times s = (Ok times', s') ->
  exists elapsed, times' = (times ++ [elapsed])%list /\ (0 <= elapsed)%Q.
Proof.
  unfold timed_repetition. intros Hrun.
  apply M_bind_ok in Hrun as (seed & s1 & Hseed & Hrun). injection Hseed as _ <-.
  apply M_bind_ok in Hrun as ([] & s1 & Hreset & Hrun). injection Hreset as <-.
  apply M_bind_ok in Hrun as (start & s1 & Hstart & Hrun). injection Hstart as <- <-.
  apply M_bind_ok in Hrun as ([] & s1 & Hexec & Hrun).
  apply timed_executions_clock in Hexec.
  apply M_bind_ok in Hrun as (end_ & s2 & Hend & Hrun). injection Hend as <- <-.
  apply M_bind_ok in Hrun as (elapsed & s2 & Hel & Hrun).
  unfold lift in Hel. injection Hel as Hel <-.
  apply M_bind_ok in Hrun as ([] & s2 & Hcb & Hrun). injection Hrun as <- _.
  exists elapsed. split; [reflexivity|].
  destruct (elapsed_time_total (clock (proc s)) (clock (proc s1)) number)
    as (e & He & Hpos & Hzero).
  rewrite He in Hel. injection Hel as <-.
  destruct (Z_lt_ge_dec 0 number) as [Hn|Hn].
  - rewrite (Hpos Hn). apply Qle_shift_div_l.
    + unfold QofZ. change 0%Q with (inject_Z 0). now rewrite <- Zlt_Qlt.
    + lra.
  - rewrite Hzero by lia. apply Qle_refl.
Qed.

Lemma measured_loop_samples (code setup : program) (repeat number : Z)
      (on_repeat_end : option (@callback Lib)) (times : list Q) (s s' : state Lib) :
  gc_disabled (for_range repeat [] (timed_repetition native code setup number
                                       on_repeat_end)) s = (Ok times, s') ->
  Forall (fun t => (0 <= t)%Q) times.
Proof.
  unfold gc_disabled.
  destruct (for_range repeat [] _ (with_proc (set_gc false) s)) as [r s1] eqn:Hloop.
  intros [= -> _].
  apply (for_range_invariant (fun _ acc _ => Forall (fun t => (0 <= t)%Q) acc)) in Hloop.
  - exact Hloop.
  - intros _ i a sa a' sb Ha Hbody.
    apply timed_repetition_sample in Hbody as (el & -> & Hel).
    apply Forall_app. split; [exact Ha | now constructor].
  - constructor.
Qed.

End MonotoneClock.

(** X18: if no library call moves [time.perf_counter] back, every sample
    of a timing run that returns is non-negative, and so is the mean it
    returns; the ranking block is then given non-negative means. *)
Theorem X18_samples_not_negative {Lib : Type} (sqrt : Q -> Q)
    (native : option string -> string -> list value -> process Lib
              -> result value * process Lib)
    (snippet_name : string) (code_to_time setup_code : program)
    (repeat number warmup_runs : Z) (on_repeat_end : option (@callback Lib))
    (s s' : state Lib) (m sd : Q) :
  (forall mo f args p, (clock p <= clock (native mo f args p).2)%Q) ->
  _time_single_snippet sqrt native snippet_name code_to_time setup_code repeat number
    warmup_runs on_repeat_end s = (Ok (Some (m, sd)), s') ->
  Forall (fun t => (0 <= t)%Q) (series_of snippet_name (self s')) /\ (0 <= m)%Q.
Proof.
  intros Hclock Hrun.
  destruct (tss_split sqrt native snippet_name code_to_time setup_code repeat number
              warmup_runs on_repeat_end s) as (line & s0 & _ & Hsplit).
  destruct (_warmup native code_to_time setup_code warmup_runs s0) as [[[]|e] s1];
    [|congruence].
  destruct (gc_disabled _ s1) as [[times|e] s2] eqn:Hloop.
  2:{ destruct (is_exception e); [destruct Hsplit as (s'' & Hrun' & _)|]; congruence. }
  destruct Hsplit as (r & s'' & Hrun' & _ & _ & Hpair & _).
  rewrite Hrun in Hrun'. injection Hrun' as <- <-.
  destruct (Hpair m sd eq_refl) as (-> & Hmean & _).
  apply (measured_loop_samples native Hclock) in Hloop.
  assert (Hseries : series_of snippet_name
                      (self (with_self (if contains "1" snippet_name
                                        then set_measurements_1 times
                                        else set_measurements_2 times) s2)) = times)
    by (unfold series_of; destruct (contains "1" snippet_name); reflexivity).
  rewrite Hseries. split; [exact Hloop|].
  assert (Hne : times <> []) by (intros ->; discriminate).
  rewrite (mean_nonempty times Hne) in Hmean. injection Hmean as <-.
  apply Qle_shift_div_l; [now apply QofZ_len_pos|].
  rewrite Qmult_0_l. rewrite <- (Qmult_0_l (QofZ (len times))).
  apply fsum_lower. now apply List.Forall_forall.
Qed.

(** * The further properties on concrete runs *)


Lemma X2_series_of_a_returned_run_witness :
  exists m sd s',
    time_first sleepy_native napping_comparer 3 2 1 None = (Ok (Some (m, sd)), s') /\
    len (measurements_1 (self s')) = 3 /\
    statistics.mean (measurements_1 (self s')) = Ok m /\
    measurements_2 (self s') = [].
Proof.
  unfold time_first.
  destruct (_time_single_snippet approx_sqrt sleepy_native "Snippet 1"
              (code_1 napping_comparer) (setup_code napping_comparer) 3 2 1 None
              (start_state napping_comparer)) as [[[[m sd]|]|e] s'] eqn:E;
    try (exfalso; vm_compute in E; discriminate).
  destruct (X2_series_of_a_returned_run _ _ _ _ _ _ _ _ _ _ _ _ _ E)
    as (_ & Hlen & Hmean & _ & Hother & _).
  exists m, sd, s'. split; [reflexivity|]. split; [exact Hlen|].
  split; [exact Hmean | exact Hother].
Defined.

Lemma X3_executions_of_a_returned_run_witness :
  exists m sd s',
    time_first sleepy_native napping_comparer 3 2 1 None = (Ok (Some (m, sd)), s') /\
    executed (start_state napping_comparer) s'
      ([WarmupSetup; WarmupSnippet] ++ replicate 6 TimedSnippet)%list.
Proof.
  unfold time_first.
  destruct (_time_single_snippet approx_sqrt sleepy_native "Snippet 1"
              (code_1 napping_comparer) (setup_code napping_comparer) 3 2 1 None
              (start_state napping_comparer)) as [[[[m sd]|]|e] s'] eqn:E;
    try (exfalso; vm_compute in E; discriminate).
  exists m, sd, s'. split; [reflexivity|].
  exact (X3_executions_of_a_returned_run _ _ _ _ _ _ _ _ _ _ _ _ _ E).
Defined.

Lemma X4_no_repetition_witness :
  (time_first sleepy_native napping_comparer 0 2 0 None).1 = Ok None /\
  trace (time_first sleepy_native napping_comparer 0 2 0 None).2 = [] /\
  measurements_1 (self (time_first sleepy_native napping_comparer 0 2 0 None).2) = [].
Proof.
  assert (H0 : 0 <= 0) by lia.
  pose proof (X4_no_repetition approx_sqrt sleepy_native "Snippet 1"
                (code_1 napping_comparer) (setup_code napping_comparer) 0 2 0 None
                (start_state napping_comparer) H0 H0) as H.
  cbv zeta in H. destruct H as (H1 & H2 & H3 & _).
  split; [exact H1|]. split; [exact H2 | exact H3].
Defined.

Lemma X5_no_execution_witness :
  trace (time_first sleepy_native napping_comparer 3 0 0 None).2 = [] /\
  exists m sd,
    (time_first sleepy_native napping_comparer 3 0 0 None).1 = Ok (Some (m, sd)) /\
    measurements_1 (self (time_first sleepy_native napping_comparer 3 0 0 None).2)
    = [0%Q; 0%Q; 0%Q] /\
    (m == 0)%Q.
Proof.
  assert (H0 : 0 <= 0) by lia.
  assert (H1 : 1 <= 3) by lia.
  pose proof (X5_no_execution approx_sqrt sleepy_native "Snippet 1"
                (code_1 napping_comparer) (setup_code napping_comparer) 3 0 0 None
                (start_state napping_comparer) H0 H0) as H.
  cbv zeta in H. destruct H as (Ht & Hzero & Hsome).
  split; [exact Ht|].
  destruct (Hsome eq_refl H1) as (m & sd & Hrun).
  destruct (Hzero m sd Hrun) as (Hseries & Hm).
  exists m, sd. split; [exact Hrun|]. split; [exact Hseries | exact Hm].
Defined.

Lemma X6_described_series_witness :
  exists st,
    _detailed_stats approx_sqrt [1%Q; 3%Q; 2%Q] = Ok st /\
    s_count st = 3 /\
    (s_min st <= s_mean st <= s_max st)%Q /\
    (s_min st <= s_median st <= s_max st)%Q.
Proof.
  destruct (X6_described_series approx_sqrt [1%Q; 3%Q; 2%Q]) as [[_ Hex] Hall].
  destruct Hex as (st & Hst); [discriminate|].
  destruct (Hall st Hst) as (Hc & _ & _ & _ & Hmean & Hmed).
  exists st. split; [exact Hst|]. split; [exact Hc|]. split; [exact Hmean | exact Hmed].
Defined.

Lemma X7_percentile_fields_witness :
  exists st p5 qs,
    _detailed_stats approx_sqrt (map (fun n => QofZ (Z.of_nat n)) (seq 1 20)) = Ok st /\
    s_percentile_5 st = Some p5 /\ ~ (p5 == 0)%Q /\
    statistics.quantiles (map (fun n => QofZ (Z.of_nat n)) (seq 1 20)) 100 = Ok qs /\
    nth_error qs 4 = Some p5.
Proof.
  destruct (_detailed_stats approx_sqrt (map (fun n => QofZ (Z.of_nat n)) (seq 1 20)))
    as [st|e] eqn:E; [|exfalso; vm_compute in E; discriminate].
  destruct (X7_percentile_fields approx_sqrt _ st E) as (_ & H5 & _).
  destruct (s_percentile_5 st) as [p5|] eqn:E5;
    [|exfalso; vm_compute in E; injection E as <-; discriminate].
  destruct (H5 p5 eq_refl) as (_ & Hnz & qs & Hqs & Hnth).
  exists st, p5, qs. split; [reflexivity|]. split; [exact E5|].
  split; [exact Hnz|]. split; [exact Hqs | exact Hnth].
Defined.

Lemma X8_critical_value_decreases_witness :
  (t_value 40 <= t_value 3)%Q /\ (1.96 <= t_value 3 <= 12.71)%Q.
Proof.
  assert (H1 : 2 <= 3) by lia.
  assert (H2 : 3 <= 40) by lia.
  exact (X8_critical_value_decreases 3 40 H1 H2).
Defined.

Lemma approx_sqrt_nonneg (x : Q) : (0 <= approx_sqrt x)%Q.
Proof.
  unfold approx_sqrt. destruct (Qle_bool x 0); [apply Qle_refl|].
  unfold Qle. cbn [Qnum Qden].
  pose proof (Z.sqrt_nonneg (Qnum x * 10 ^ 12 / Z.pos (Qden x))). lia.
Qed.

Lemma X9_interval_around_mean_witness :
  exists lo hi,
    _confidence_interval approx_sqrt [1%Q; 3%Q] = Ok (lo, hi) /\
    exists m, statistics.mean [1%Q; 3%Q] = Ok m /\ (lo <= m <= hi)%Q.
Proof.
  destruct (_confidence_interval approx_sqrt [1%Q; 3%Q]) as [[lo hi]|e] eqn:E;
    [|exfalso; vm_compute in E; discriminate].
  destruct (X9_interval_around_mean approx_sqrt [1%Q; 3%Q]) as [_ H].
  assert (Hlen : 2 <= len [1%Q; 3%Q]) by (vm_compute; discriminate).
  destruct (H approx_sqrt_nonneg lo hi E Hlen) as (m & Hm & Hb & _).
  exists lo, hi. split; [reflexivity|]. exists m. split; [exact Hm | exact Hb].
Defined.

Lemma X10_rank_gives_a_verdict_witness :
  exists r p,
    rank 10 20
    = Ok {| faster := Snippet1; slower := Snippet2; ratio := r; percent := p |} /\
    rank 20 10
    = Ok {| faster := Snippet2; slower := Snippet1; ratio := r; percent := p |}.
Proof.
  destruct (X10_rank_gives_a_verdict 10 20) as [_ H].
  apply H. reflexivity.
Defined.

Lemma X11_failed_run_keeps_series_witness :
  exists s',
    time_first sleepy_native faulty_comparer 3 2 0 None = (Ok None, s') /\
    self s' = faulty_comparer /\
    exists evs ev e,
      trace s' = (evs ++ [ev])%list /\
      ev_site ev = TimedSnippet /\ ev_outcome ev = Raise e.
Proof.
  unfold time_first.
  destruct (_time_single_snippet approx_sqrt sleepy_native "Snippet 1"
              (code_1 faulty_comparer) (setup_code faulty_comparer) 3 2 0 None
              (start_state faulty_comparer)) as [[[[m sd]|]|e] s'] eqn:E;
    try (exfalso; vm_compute in E; discriminate).
  assert (H1 : 1 <= 3) by lia.
  destruct (X11_failed_run_keeps_series _ _ _ _ _ _ _ _ _ _ _ H1 E) as (Hself & Htrace).
  exists s'. split; [reflexivity|]. split; [exact Hself|]. exact (Htrace eq_refl).
Defined.

Lemma X12_returned_comparison_witness :
  exists res s',
    run_compare 3 2 1 (start_state napping_comparer) = (Ok res, s') /\
    s_count (stats1 res) = 3 /\ s_count (stats2 res) = 3 /\
    executed (start_state napping_comparer) s'
      (([WarmupSetup; WarmupSnippet] ++ replicate 6 TimedSnippet)
       ++ ([WarmupSetup; WarmupSnippet] ++ replicate 6 TimedSnippet))%list.
Proof.
  unfold run_compare.
  destruct (compare_execution approx_sqrt sleepy_native 3 2 1 None
              (start_state napping_comparer)) as [[res|e] s'] eqn:E;
    [|exfalso; vm_compute in E; discriminate].
  pose proof (X12_returned_comparison approx_sqrt sleepy_native 3 2 1 None
                (start_state napping_comparer) s' res eq_refl eq_refl E) as H.
  cbv zeta in H. destruct H as (_ & Hex & Hc1 & Hc2 & _).
  exists res, s'. split; [reflexivity|]. split; [exact Hc1|].
  split; [exact Hc2 | exact Hex].
Defined.

Lemma progress_callback_keeps_streams (format_6_2f : Q -> string) (fl : Q -> Q)
      (reps : Z) (cb : @callback ()) (rep : Z) (elapsed : Q) (p : process ()) :
  Some (progress_callback format_6_2f fl reps) = Some cb ->
  sys_stdout (cb rep elapsed p).2 = sys_stdout p /\
  sys_stderr (cb rep elapsed p).2 = sys_stderr p.
Proof.
  intros [= <-]. unfold progress_callback.
  destruct (progress_bar_returns format_6_2f fl (rep + 1) reps 32 "Progress:"
              (pretty (rep + 1) ++ "/" ++ pretty reps) p)
    as (p' & -> & _ & Hout & Herr & _).
  split; [exact Hout | exact Herr].
Qed.

Lemma X13_streams_restored_witness :
  streams (time_first sleepy_native napping_comparer 3 2 1
             (Some (progress_callback decimal_6_2f chop 3))).2 = (Console, Console) /\
  streams (compare_execution approx_sqrt sleepy_native 3 2 1
             (Some (progress_callback decimal_6_2f chop 3))
             (start_state napping_comparer)).2 = (Console, Console).
Proof.
  exact (X13_streams_restored approx_sqrt sleepy_native "Snippet 1"
           (code_1 napping_comparer) (setup_code napping_comparer) 3 2 1
           (Some (progress_callback decimal_6_2f chop 3)) (start_state napping_comparer)
           (fun cb rep elapsed p =>
              progress_callback_keeps_streams decimal_6_2f chop 3 cb rep elapsed p)).
Defined.

Lemma X14_collector_back_on_witness :
  gc_enabled (proc (time_first sleepy_native faulty_comparer 3 2 0 None).2) = true /\
  gc_enabled (proc (compare_execution approx_sqrt sleepy_native 3 2 0 None
                      (start_state faulty_comparer)).2) = true.
Proof.
  assert (H0 : 0 <= 0) by lia.
  exact (X14_collector_back_on approx_sqrt sleepy_native "Snippet 1"
           (code_1 faulty_comparer) (setup_code faulty_comparer) 3 2 0 None
           (start_state faulty_comparer) H0 eq_refl).
Defined.



Lemma chop_monotone (a b : Q) : (a <= b)%Q -> (chop a <= chop b)%Q.
Proof.
  intros Hab. unfold chop, Qle. cbn [Qnum Qden].
  apply Z.mul_le_mono_nonneg_r; [lia|].
  apply Qfloor_resp_le. apply Qmult_le_compat_r; [exact Hab | discriminate].
Qed.

Lemma chop_integer (z : Z) : (chop (QofZ z) == QofZ z)%Q.
Proof.
  unfold chop, QofZ.
  change (inject_Z z * 1099511627776)%Q with (inject_Z z * inject_Z 1099511627776)%Q.
  rewrite <- inject_Z_mult, Qfloor_Z.
  unfold Qeq, inject_Z. cbn [Qnum Qden]. lia.
Qed.


Lemma ticking_native_clock (m : option string) (f : string) (args : list value)
      (p : process ()) :
  (clock p <= clock (ticking_native m f args p).2)%Q.
Proof. unfold ticking_native. cbn [snd clock]. lra. Qed.

Lemma X18_samples_not_negative_witness :
  exists m sd s',
    _time_single_snippet approx_sqrt ticking_native "Snippet 1"
      [SExpr (ECall (EName "abs") [EInt 1])] [] 3 2 1 None
      (start_state default_comparer) = (Ok (Some (m, sd)), s') /\
    Forall (fun t => (0 <= t)%Q) (measurements_1 (self s')) /\ (0 <= m)%Q.
Proof.
  destruct (_time_single_snippet approx_sqrt ticking_native "Snippet 1"
              [SExpr (ECall (EName "abs") [EInt 1])] [] 3 2 1 None
              (start_state default_comparer)) as [[[[m sd]|]|e] s'] eqn:E;
    try (exfalso; vm_compute in E; discriminate).
  destruct (X18_samples_not_negative _ _ _ _ _ _ _ _ _ _ _ _ _ ticking_native_clock E)
    as (Hall & Hm).
  exists m, sd, s'. split; [reflexivity|]. split; [exact Hall | exact Hm].
Defined.
